(** * Customer-churn notebook: data preparation, split, thresholding, metrics

    A shallow embedding of the data-processing cells of
    [customised_xgboost_customer_churn_batch_transform.ipynb].  The notebook
    is glue around pandas, numpy and scikit-learn calls; the calls it makes
    are embedded here with the semantics those libraries give them for the
    arguments the notebook passes (defaults included). *)

From Stdlib Require Import ZArith QArith Qround Qcanon Qfield Lia Lqa Bool.
From stdpp Require Import base option list numbers strings pretty sorting gmap.

(** ** IEEE-754 binary64 arithmetic of [int(0.7 * len(model_data))]

    Cell 34 computes the two cut points with a Python float
    multiplication followed by [int].  Only finite non-negative doubles
    occur, so a double is kept as an integer significand and a binary
    exponent. *)
Module Float64.
Local Open Scope Z_scope.

(** the double [mant * 2 ^ expo] *)
Record float := mkFloat { mant : Z; expo : Z }.

Definition prec : Z := 53.

(** Round the exact value [m * 2 ^ e] (with [0 <= m]) to [prec] significant
    bits, ties to even: the rounding every binary64 operation applies. *)
Definition round_nearest_even (m e : Z) : float :=
  let s := Z.log2 m + 1 - prec in
  if s <=? 0 then mkFloat m e
  else
    let q := Z.shiftr m s in
    let r := Z.land m (Z.ones s) in
    let half := Z.shiftl 1 (s - 1) in
    let q' := if (half <? r) || ((r =? half) && Z.odd q) then q + 1 else q in
    mkFloat q' (e + s).

(** the integer a double with a non-negative exponent denotes *)
Definition int_value (f : float) : Z := Z.shiftl (mant f) (expo f).

(** Python's conversion of an [int] operand to [float]: correctly rounded,
    [OverflowError] ([None]) when the result does not fit a double. *)
Definition float_of_int (n : Z) : option float :=
  let f := round_nearest_even n 0 in
  if int_value f <? 2 ^ 1024 then Some f else None.

(** [a * b] for doubles whose product lies in the normal range *)
Definition fmul (a b : float) : float :=
  round_nearest_even (mant a * mant b) (expo a + expo b).

(** [int(f)]: truncation, which is the floor for [0 <= f] *)
Definition py_int (f : float) : Z := Z.shiftr (mant f) (- expo f).

(** the literals [0.7] and [0.9]: [0x1.6666666666666p-1] and
    [0x1.ccccccccccccdp-1] *)
Definition f0_7 : float := mkFloat 6305039478318694 (-53).
Definition f0_9 : float := mkFloat 8106479329266893 (-53).

(** [int(c * n)] for a float literal [c] and an [int] [n] *)
Definition int_mul (c : float) (n : Z) : option Z :=
  nf ← float_of_int n; Some (py_int (fmul c nf)).

End Float64.

(** ** Tables

    A [DataFrame] as the notebook uses it: named, typed columns and rows
    that carry their index label.  Rows are kept in order; a cell is a
    Python scalar or the missing value. *)
Module Frame.

Inductive dtype := object | int64 | float64 | uint8.

Inductive scalar :=
| SInt (z : Z)
| SFloat (q : Qc)
| SStr (s : string)
| NaN.

#[global] Instance dtype_eq_dec : EqDecision dtype.
Proof. solve_decision. Defined.

#[global] Instance scalar_eq_dec : EqDecision scalar.
Proof. solve_decision. Defined.

Record column := mkColumn { col_name : string; col_dtype : dtype }.

#[global] Instance column_eq_dec : EqDecision column.
Proof. solve_decision. Defined.

(** a row: its index label and its cells *)
Abbreviation row := (Z * list scalar)%type.

Record DataFrame := mkDataFrame { columns : list column; rows : list row }.

Definition len (df : DataFrame) : nat := length (rows df).
Definition index (df : DataFrame) : list Z := (rows df).*1.
Definition values (df : DataFrame) : list (list scalar) := (rows df).*2.
Definition names (df : DataFrame) : list string := col_name <$> columns df.

(** every row has one cell per column *)
Definition rectangular (df : DataFrame) : Prop :=
  Forall (fun r : row => length r.2 = length (columns df)) (rows df).

(** boolean-mask selection, [l[mask]] *)
Fixpoint select {A} (mask : list bool) (l : list A) : list A :=
  match mask, l with
  | b :: mask, x :: l => if b then x :: select mask l else select mask l
  | _, _ => []
  end.

Definition select_columns (mask : list bool) (df : DataFrame) : DataFrame :=
  mkDataFrame (select mask (columns df))
              ((fun r : row => (r.1, select mask r.2)) <$> rows df).

(** [df.drop(labels, axis=1)]: [KeyError] when a label is no column *)
Definition drop_labels (labels : list string) (df : DataFrame) : option DataFrame :=
  if decide (labels ⊆ names df)
  then Some (select_columns ((fun c => bool_decide (col_name c ∉ labels)) <$> columns df) df)
  else None.

(** [df[label]]: [KeyError] when the label is no column *)
Definition getitem (label : string) (df : DataFrame) : option DataFrame :=
  if decide (label ∈ names df)
  then Some (select_columns ((fun c => bool_decide (col_name c = label)) <$> columns df) df)
  else None.

(** [df[label] = df[label].astype(t)]: the cells stay, the dtype changes *)
Definition astype (label : string) (t : dtype) (df : DataFrame) : option DataFrame :=
  if decide (label ∈ names df)
  then Some (mkDataFrame
               ((fun c => if decide (col_name c = label) then mkColumn label t else c)
                  <$> columns df)
               (rows df))
  else None.

(** [pd.concat([a, b], axis=1)] of two frames with the same index *)
Definition concat_columns (a b : DataFrame) : DataFrame :=
  mkDataFrame (columns a ++ columns b)
              (zip_with (fun ra rb : row => (ra.1, ra.2 ++ rb.2)) (rows a) (rows b)).

(** [df.iloc[:, k:]] *)
Definition iloc_columns_from (k : nat) (df : DataFrame) : DataFrame :=
  mkDataFrame (drop k (columns df)) ((fun r : row => (r.1, drop k r.2)) <$> rows df).

(** [df.to_csv(path, header=False, index=False)]: the records written,
    one per row, fields in column order *)
Definition to_csv (df : DataFrame) : list (list scalar) := values df.

(** *** Duplicates *)

(** [duplicated(keep='first')]: a key is flagged when it was seen before *)
Fixpoint duplicated_from {K} `{EqDecision K} (seen ks : list K) : list bool :=
  match ks with
  | [] => []
  | k :: ks =>
      if decide (k ∈ seen) then true :: duplicated_from seen ks
      else false :: duplicated_from (k :: seen) ks
  end.

(** what [factorize] files a cell under when [duplicated] compares rows:
    its value as Python's [==] and [hash] see it, so that the integer [1]
    and the float [1.0] are one value; missing values are filed together *)
Inductive factor :=
| Number (q : Qc)
| Text (s : string)
| Missing.

#[global] Instance factor_eq_dec : EqDecision factor.
Proof. solve_decision. Defined.

Definition factorize (v : scalar) : factor :=
  match v with
  | SInt z => Number (Q2Qc (inject_Z z))
  | SFloat q => Number q
  | SStr s => Text s
  | NaN => Missing
  end.

(** what two rows are compared by: their cells, the index label apart *)
Definition row_key (r : row) : list factor := factorize <$> r.2.

(** [df.empty]: one of the two axes has length 0 *)
Definition empty (df : DataFrame) : Prop := columns df = [] \/ rows df = [].

#[global] Instance empty_dec (df : DataFrame) : Decision (empty df).
Proof. unfold empty. apply _. Defined.

(** [df.duplicated()]: [if self.empty: return Series(dtype=bool)], else
    one flag per row *)
Definition duplicated (df : DataFrame) : list bool :=
  if decide (empty df) then []
  else duplicated_from [] (row_key <$> rows df).

(** [df.drop_duplicates()]: [if self.empty: return self.copy()], else
    [self[-self.duplicated()]] *)
Definition drop_duplicates (df : DataFrame) : DataFrame :=
  if decide (empty df) then df
  else mkDataFrame (columns df) (select (negb <$> duplicated df) (rows df)).

(** the elements [duplicated] leaves unflagged, by key, given the keys
    already seen *)
Definition kept {A K} `{EqDecision K} (key : A -> K) (seen : list K) (l : list A) : list A :=
  select (negb <$> duplicated_from seen (key <$> l)) l.

(** *** One-hot encoding *)

(** distinct values in order of appearance *)
Definition unique (data : list scalar) : list scalar :=
  select (negb <$> duplicated_from [] data) data.

Definition number (v : scalar) : Qc :=
  match v with
  | SInt z => Q2Qc (inject_Z z)
  | SFloat q => q
  | _ => 0%Qc
  end.

(** the order categories are sorted in: numbers by value, then strings
    by code point *)
Definition scalar_leb (a b : scalar) : bool :=
  match a, b with
  | SStr s, SStr t => String.leb s t
  | SStr _, _ => false
  | _, SStr _ => true
  | _, _ => bool_decide (number a ≤ number b)%Qc
  end.

Fixpoint insert_sorted (x : scalar) (l : list scalar) : list scalar :=
  match l with
  | [] => [x]
  | y :: l' => if scalar_leb x y then x :: l else y :: insert_sorted x l'
  end.

Definition sort (l : list scalar) : list scalar := foldr insert_sorted [] l.

(** the categories of a column: sorted distinct non-missing values *)
Definition levels (data : list scalar) : list scalar :=
  sort (unique (filter (fun v => v ≠ NaN) data)).

Definition indicator (v l : scalar) : scalar :=
  SInt (if decide (v = l) then 1 else 0).

(** one row of [np.eye(len(levels)).take(codes)], zero for a missing value *)
Definition dummy_row (lv : list scalar) (v : scalar) : list scalar :=
  indicator v <$> lv.

Definition cell (j : nat) (r : row) : scalar := default NaN (r.2 !! j).
Definition column_values (j : nat) (df : DataFrame) : list scalar := cell j <$> rows df.
Definition is_object (c : column) : bool := bool_decide (col_dtype c = object).

(** the columns [get_dummies] encodes, with their positions *)
Definition encoded (df : DataFrame) : list (nat * column) :=
  filter (fun jc : nat * column => is_object jc.2) (imap pair (columns df)).

Definition field_levels (df : DataFrame) (j : nat) : list scalar :=
  levels (column_values j df).

(** the indicator cells of row [r] for the field at position [j] *)
Definition field_indicators (df : DataFrame) (j : nat) (r : row) : list scalar :=
  dummy_row (field_levels df j) (cell j r).

(** the integer in an indicator cell, and the sum over a run of cells *)
Definition cell_value (v : scalar) : Z :=
  match v with SInt z => z | _ => 0%Z end.

Definition sum_cells (l : list scalar) : Z :=
  foldr (fun v acc => (cell_value v + acc)%Z) 0%Z l.

Section Dummies.
(** [str] of a float (Python's shortest round-trip [repr]) is left open *)
Variable repr_float : Qc -> string.

Definition str (v : scalar) : string :=
  match v with
  | SStr s => s
  | SInt z => pretty z
  | SFloat q => repr_float q
  | NaN => "nan"
  end.

(** ['{prefix}{sep}{level}'] with [sep = '_'] *)
Definition dummy_columns (prefix : string) (lv : list scalar) : list column :=
  (fun l => mkColumn (prefix +:+ "_" +:+ str l) uint8) <$> lv.

(** [pd.get_dummies(df)]: the columns that are not of dtype object first,
    then, for each object column in order, one indicator column per level *)
Definition get_dummies (df : DataFrame) : DataFrame :=
  let mask := (fun c => negb (is_object c)) <$> columns df in
  let enc := encoded df in
  mkDataFrame
    (select mask (columns df)
       ++ (enc ≫= fun jc => dummy_columns (col_name jc.2) (field_levels df jc.1)))
    ((fun r : row =>
        (r.1, select mask r.2 ++ (enc ≫= fun jc => field_indicators df jc.1 r)))
       <$> rows df).

End Dummies.

End Frame.

(** ** Cells 11 to 32: cleaning and encoding *)
Module Churn.
Import Frame.

(** the column layout of [churn.txt] as [pd.read_csv] types it *)
Definition raw_columns : list column :=
  [ mkColumn "State" object; mkColumn "Account Length" int64;
    mkColumn "Area Code" int64; mkColumn "Phone" object;
    mkColumn "Int’l Plan" object; mkColumn "VMail Plan" object;
    mkColumn "VMail Message" int64; mkColumn "Day Mins" float64;
    mkColumn "Day Calls" int64; mkColumn "Day Charge" float64;
    mkColumn "Eve Mins" float64; mkColumn "Eve Calls" int64;
    mkColumn "Eve Charge" float64; mkColumn "Night Mins" float64;
    mkColumn "Night Calls" int64; mkColumn "Night Charge" float64;
    mkColumn "Intl Mins" float64; mkColumn "Intl Calls" int64;
    mkColumn "Intl Charge" float64; mkColumn "CustServ Calls" int64;
    mkColumn "Churn?" object ].

(** cells 11, 12 and 27 *)
Definition clean (churn : DataFrame) : option DataFrame :=
  churn ← drop_labels ["Phone"] churn;
  churn ← astype "Area Code" object churn;
  let churn := drop_duplicates churn in
  drop_labels ["Day Charge"; "Eve Charge"; "Night Charge"; "Intl Charge"] churn.

(** the mask of [drop("Phone", axis=1)] on [raw_columns] *)
Definition phone_mask : list bool :=
  [true; true; true; false; true; true; true; true; true; true; true; true;
   true; true; true; true; true; true; true; true; true].

(** the mask of the second [drop], on the twenty columns left *)
Definition charge_mask : list bool :=
  [true; true; true; true; true; true; true; true; false; true; true; false;
   true; true; false; true; true; false; true; true].

(** the layout [clean] leaves *)
Definition churn_columns : list column :=
  [ mkColumn "State" object; mkColumn "Account Length" int64;
    mkColumn "Area Code" object; mkColumn "Int’l Plan" object;
    mkColumn "VMail Plan" object; mkColumn "VMail Message" int64;
    mkColumn "Day Mins" float64; mkColumn "Day Calls" int64;
    mkColumn "Eve Mins" float64; mkColumn "Eve Calls" int64;
    mkColumn "Night Mins" float64; mkColumn "Night Calls" int64;
    mkColumn "Intl Mins" float64; mkColumn "Intl Calls" int64;
    mkColumn "CustServ Calls" int64; mkColumn "Churn?" object ].

(** position of the target in [churn_columns] *)
Definition target_position : nat := 15.

(** the target is binary: every row is ['True.'] or ['False.'], and both
    occur ("only 14% of customers churned", markdown cell 14) *)
Definition binary_target (churn : DataFrame) : Prop :=
  (forall r, r ∈ rows churn ->
     cell target_position r = SStr "True." \/ cell target_position r = SStr "False.") /\
  (exists r, r ∈ rows churn /\ cell target_position r = SStr "True.") /\
  (exists r, r ∈ rows churn /\ cell target_position r = SStr "False.").

(** 1 for a customer who churned, 0 otherwise *)
Definition churned (r : row) : Z :=
  if decide (cell target_position r = SStr "True.") then 1 else 0.

(** the two indicator columns of the target *)
Definition false_column : column := mkColumn "Churn?_False." uint8.
Definition true_column : column := mkColumn "Churn?_True." uint8.

(** the columns of [churn_columns] that are not of dtype object *)
Definition numeric_mask : list bool :=
  [false; true; false; false; false; true; true; true; true; true; true; true;
   true; true; true; false].

Definition numeric_columns : list column := select numeric_mask churn_columns.

Section Encode.
Variable repr_float : Qc -> string.

(** [get_dummies] on the layout [churn_columns], block by block: the
    indicator columns of the field at position [j] ... *)
Definition block (churn : DataFrame) (j : nat) (name : string) : list column :=
  dummy_columns repr_float name (field_levels churn j).

(** ... every column but the target's, and a row's cells under them *)
Definition other_columns (churn : DataFrame) : list column :=
  numeric_columns ++ block churn 0 "State" ++ block churn 2 "Area Code"
    ++ block churn 3 "Int’l Plan" ++ block churn 4 "VMail Plan".

Definition other_cells (churn : DataFrame) (r : row) : list scalar :=
  select numeric_mask r.2 ++ field_indicators churn 0 r ++ field_indicators churn 2 r
    ++ field_indicators churn 3 r ++ field_indicators churn 4 r.

(** cell 32 *)
Definition encode (churn : DataFrame) : option DataFrame :=
  let model_data := get_dummies repr_float churn in
  target ← getitem "Churn?_True." model_data;
  others ← drop_labels ["Churn?_False."; "Churn?_True."] model_data;
  Some (concat_columns target others).

End Encode.
End Churn.

(** ** Cell 34: shuffle and split *)
Module Split.
Import Frame Float64.

(** Python's [l[st:en]] *)
Definition slice_bound (n : nat) (i : Z) : nat :=
  Z.to_nat (if (i <? 0)%Z then Z.max (i + Z.of_nat n) 0 else Z.min i (Z.of_nat n)).

Definition py_slice {A} (st en : Z) (l : list A) : list A :=
  let a := slice_bound (length l) st in
  let b := slice_bound (length l) en in
  take (b - a) (drop a l).

(** the loop of [np.array_split] over consecutive division points *)
Fixpoint sections {A} (div_points : list Z) (l : list A) : list (list A) :=
  match div_points with
  | [] => []
  | st :: rest =>
      match rest with
      | [] => []
      | en :: _ => py_slice st en l :: sections rest l
      end
  end.

(** [np.split(df, indices)] along axis 0 *)
Definition np_split (df : DataFrame) (indices : list Z) : list DataFrame :=
  mkDataFrame (columns df)
    <$> sections (0%Z :: indices ++ [Z.of_nat (len df)]) (rows df).

(** [df.take(locs)]: [IndexError] on a position out of range *)
Definition take_rows (locs : list nat) (df : DataFrame) : option DataFrame :=
  rs ← mapM (fun i => rows df !! i) locs; Some (mkDataFrame (columns df) rs).

(** what cells 34 and 58 write *)
Record datasets := mkDatasets {
  train_csv : list (list scalar);
  validation_csv : list (list scalar);
  test_data : DataFrame;
  test_data_batch : DataFrame;
  batch_csv : list (list scalar) }.

Section Sample.
(** [np.random.RandomState(1729).permutation(n)] *)
Variable permutation : nat -> list nat.

(** [df.sample(frac=1, random_state=1729)] *)
Definition sample (df : DataFrame) : option DataFrame :=
  take_rows (take (len df) (permutation (len df))) df.

Definition Splitter (model_data : DataFrame) : option (DataFrame * DataFrame * DataFrame) :=
  shuffled ← sample model_data;
  i1 ← int_mul f0_7 (Z.of_nat (len model_data));
  i2 ← int_mul f0_9 (Z.of_nat (len model_data));
  match np_split shuffled [i1; i2] with
  | [train_data; validation_data; test_data] =>
      Some (train_data, validation_data, test_data)
  | _ => None
  end.

(** cells 34 and 58 *)
Definition write_datasets (model_data : DataFrame) : option datasets :=
  parts ← Splitter model_data;
  let '(train_data, validation_data, test_data) := parts in
  let test_data_batch := iloc_columns_from 1 test_data in
  Some (mkDatasets (to_csv train_data) (to_csv validation_data)
                   test_data test_data_batch (to_csv test_data_batch)).

End Sample.
End Split.

(** ** Cell 65: thresholding *)
Module Threshold.

(** [np.round] with [decimals=0] is [rint]: to the nearest integer, ties
    to the even one.  A score is the rational its double denotes. *)
Definition np_round (x : Q) : Z :=
  let f := Qfloor x in
  match (x - inject_Z f ?= 1 # 2)%Q with
  | Lt => f
  | Gt => (f + 1)%Z
  | Eq => if Z.even f then f else (f + 1)%Z
  end.

Definition pred_y (batch_output : list Q) : list Z := np_round <$> batch_output.

End Threshold.

(** ** Cell 66: scikit-learn metrics

    Labels are integers, [1] the positive one ([pos_label=1],
    [average='binary']).  A metric is the exact quotient its double
    approximates. *)
Module Metrics.

(** [unique_labels(y_true, y_pred)]: the sorted distinct labels *)
Definition unique_labels (y_true y_pred : list Z) : list Z :=
  merge_sort Z.le (remove_dups (y_true ++ y_pred)).

(** observations with true label [t] and predicted label [p] *)
Definition count_pairs (t p : Z) (y_true y_pred : list Z) : nat :=
  length (filter (fun tp : Z * Z => tp = (t, p)) (zip y_true y_pred)).

Definition count_label (l : Z) (y : list Z) : nat :=
  length (filter (fun x : Z => x = l) y).

(** [confusion_matrix(y_true, y_pred)]: rows are true labels, columns
    predicted labels, both over the labels present; [ValueError] on
    inputs of different lengths *)
Definition confusion_matrix (y_true y_pred : list Z) : option (list (list nat)) :=
  if decide (length y_true = length y_pred) then
    let labels := unique_labels y_true y_pred in
    Some ((fun t => (fun p => count_pairs t p y_true y_pred) <$> labels) <$> labels)
  else None.

Definition ravel (m : list (list nat)) : list nat := concat m.

(** [_prf_divide]: a ratio with a zero denominator is set to [0] *)
Definition prf_divide (num den : nat) : Q :=
  if decide (den = 0%nat) then 0%Q
  else (inject_Z (Z.of_nat num) / inject_Z (Z.of_nat den))%Q.

(** [precision_recall_fscore_support(..., beta=1, pos_label=1,
    average='binary')]: precision, recall and F1 *)
Definition precision_recall_fscore (y_true y_pred : list Z) : option (Q * Q * Q) :=
  if decide (length y_true = length y_pred) then
    let present := unique_labels y_true y_pred in
    if decide (2 < length present)%nat then None
    else if decide ((1%Z ∉ present) ∧ (2 ≤ length present)%nat) then None
    else
      let tp_sum := count_pairs 1 1 y_true y_pred in
      let pred_sum := count_label 1 y_pred in
      let true_sum := count_label 1 y_true in
      let precision := prf_divide tp_sum pred_sum in
      let recall := prf_divide tp_sum true_sum in
      let f_score :=
        if decide (tp_sum = 0%nat) then 0%Q
        else (2 * precision * recall / (precision + recall))%Q in
      Some (precision, recall, f_score)
  else None.

Definition f1_score (y_true y_pred : list Z) : option Q :=
  prf ← precision_recall_fscore y_true y_pred; Some prf.2.

Definition precision_score (y_true y_pred : list Z) : option Q :=
  prf ← precision_recall_fscore y_true y_pred; Some prf.1.1.

Definition recall_score (y_true y_pred : list Z) : option Q :=
  prf ← precision_recall_fscore y_true y_pred; Some prf.1.2.

Inductive pyfloat := Finite (q : Q) | NotANumber.

(** observations whose true and predicted labels agree *)
Definition hits (y_true y_pred : list Z) : nat :=
  length (filter (fun tp : Z * Z => tp.1 = tp.2) (zip y_true y_pred)).

(** [accuracy_score]: the mean of [y_true == y_pred], [nan] for no
    observation *)
Definition accuracy_score (y_true y_pred : list Z) : option pyfloat :=
  if decide (length y_true = length y_pred) then
    let n := length y_true in
    Some (if decide (n = 0%nat) then NotANumber
          else Finite (inject_Z (Z.of_nat (hits y_true y_pred)) / inject_Z (Z.of_nat n))%Q)
  else None.

Record scores := mkScores {
  precision : Q; recall : Q; f1 : Q; accuracy : pyfloat;
  tn : nat; fp : nat; fn : nat; tp : nat }.

(** [get_score]; [None] is an exception, the last line raising
    [ValueError] when the matrix does not unpack into four counts *)
Definition get_score (y_true y_pred : list Z) : option scores :=
  f1 ← f1_score y_true y_pred;
  precision ← precision_score y_true y_pred;
  recall ← recall_score y_true y_pred;
  accuracy ← accuracy_score y_true y_pred;
  cm ← confusion_matrix y_true y_pred;
  match ravel cm with
  | [tn; fp; fn; tp] => Some (mkScores precision recall f1 accuracy tn fp fn tp)
  | _ => None
  end.

(** a vector of labels 0 and 1 *)
Definition binary (y : list Z) : Prop := Forall (fun l => l = 0%Z \/ l = 1%Z) y.


End Metrics.

(** ** The notebook as a kernel session

    What a code cell does to the kernel's global namespace: each
    statement is the sequence of its global-name loads, in evaluation
    order, with the operations between them that can raise, followed by
    the names it binds. *)
Module Notebook.

Inductive event := Load (x : string) | Op.

Inductive stmt :=
| Simple (code : list event) (stores : list string)
| For (target : string) (iter : list event) (body : list stmt)
| If (cond : list event) (body : list stmt).

Definition env : Type := gset string.

Inductive exn := NameError (x : string) | OtherError.
Inductive outcome := Completed | Raised (e : exn).

(** evaluation of an expression's events: a load of an unbound name
    raises [NameError], an operation may raise anything else *)
Inductive eval (E : env) : list event -> option exn -> Prop :=
| eval_done : eval E [] None
| eval_load_unbound x k : x ∉ E -> eval E (Load x :: k) (Some (NameError x))
| eval_load x k r : x ∈ E -> eval E k r -> eval E (Load x :: k) r
| eval_op_raise k : eval E (Op :: k) (Some OtherError)
| eval_op k r : eval E k r -> eval E (Op :: k) r.

(** execution of a statement list; the namespace keeps what was bound
    before an exception.  The relation is generous where the cells leave
    room: a loop runs any number of times, a branch is taken or not, and
    a statement with several stores may raise between two of them. *)
Inductive exec : env -> list stmt -> env -> outcome -> Prop :=
| exec_nil E : exec E [] E Completed
| exec_simple_raise E code stores rest e :
    eval E code (Some e) ->
    exec E (Simple code stores :: rest) E (Raised e)
| exec_simple_store_raise E code stores stored rest :
    eval E code None ->
    stored `prefix_of` stores ->
    exec E (Simple code stores :: rest) (E ∪ list_to_set stored) (Raised OtherError)
| exec_simple E code stores rest E' o :
    eval E code None ->
    exec (E ∪ list_to_set stores) rest E' o ->
    exec E (Simple code stores :: rest) E' o
| exec_if_raise E cond body rest e :
    eval E cond (Some e) ->
    exec E (If cond body :: rest) E (Raised e)
| exec_if_skip E cond body rest E' o :
    eval E cond None ->
    exec E rest E' o ->
    exec E (If cond body :: rest) E' o
| exec_if_body_raise E cond body rest E1 e :
    eval E cond None ->
    exec E body E1 (Raised e) ->
    exec E (If cond body :: rest) E1 (Raised e)
| exec_if_body E cond body rest E1 E' o :
    eval E cond None ->
    exec E body E1 Completed ->
    exec E1 rest E' o ->
    exec E (If cond body :: rest) E' o
| exec_for_raise E target iter body rest e :
    eval E iter (Some e) ->
    exec E (For target iter body :: rest) E (Raised e)
| exec_for_end E target iter body rest E' o :
    eval E iter None ->
    exec E rest E' o ->
    exec E (For target iter body :: rest) E' o
| exec_for_body_raise E target iter body rest E1 e :
    eval E iter None ->
    exec (E ∪ {[target]}) body E1 (Raised e) ->
    exec E (For target iter body :: rest) E1 (Raised e)
| exec_for_body E target iter body rest E1 E' o :
    eval E iter None ->
    exec (E ∪ {[target]}) body E1 Completed ->
    exec E1 (For target iter body :: rest) E' o ->
    exec E (For target iter body :: rest) E' o.

(** a call [f(...)] of a global, an attribute access, an import: code
    that loads the given names in order and can raise after each *)
Definition uses (xs : list string) : list event := xs ≫= fun x => [Load x; Op].

Definition cell_1 : list stmt :=
  [ Simple [] ["bucket"]; Simple [] ["prefix"];
    Simple [Op] ["boto3"]; Simple [Op] ["re"];
    Simple [Op] ["get_execution_role"];
    Simple [Load "get_execution_role"; Op] ["role"] ].

Definition cell_3 : list stmt :=
  [ Simple [Op] ["pd"]; Simple [Op] ["np"]; Simple [Op] ["plt"];
    Simple [Op] ["sns"]; Simple [Op] ["io"]; Simple [Op] ["os"];
    Simple [Op] ["sys"]; Simple [Op] ["time"]; Simple [Op] ["json"];
    Simple [Op] ["metrics"]; Simple [Op] ["display"];
    Simple [Op] ["strftime"; "gmtime"];
    Simple [Op] ["sagemaker"]; Simple [Op] ["csv_serializer"] ].

Definition cell_5 : list stmt := [ Simple [Op] []; Simple [Op] [] ].

Definition cell_6 : list stmt :=
  [ Simple [Load "pd"; Op] ["churn"]; Simple [Load "pd"; Op] [];
    Simple [Load "churn"; Op] [] ].

Definition cell_8 : list stmt :=
  [ Simple [Load "print"; Load "churn"; Op] [];
    Simple [Load "print"; Load "churn"; Op] [];
    Simple [Load "print"; Load "churn"; Op] [];
    Simple [Load "print"; Load "churn"; Op] [];
    Simple [Load "print"; Load "churn"; Op] [] ].

Definition cell_11 : list stmt :=
  [ Simple [Load "churn"; Op] ["churn"];
    Simple [Load "churn"; Op; Load "object"; Op; Load "churn"; Op] [] ].

Definition cell_12 : list stmt :=
  [ Simple [Load "print"; Load "len"; Load "churn"; Op] [];
    Simple [Load "churn"; Op] ["churn"];
    Simple [Load "print"; Load "len"; Load "churn"; Op] [] ].

Definition cell_15 : list stmt := [ Simple [Load "churn"; Op] [] ].

Definition cell_16 : list stmt :=
  [ Simple [] ["categorial_variable"]; Simple [] ["continuous_variable"] ].

Definition cell_18 : list stmt :=
  [ Simple [] ["colours"];
    For "column" [Load "churn"; Op]
      [ If [Load "column"; Load "categorial_variable"; Op]
          [ Simple [Load "pd"; Op; Load "churn"; Op; Load "churn"; Load "column"; Op]
                   ["table"];
            Simple [Load "print"; Load "table"; Op] [];
            Simple [Load "print"; Op] [];
            Simple [Load "plt"; Op] ["fig"; "ax"];
            Simple [Load "table"; Op; Load "colours"; Load "ax"; Op] [];
            Simple [Load "ax"; Op; Load "column"; Op] [];
            Simple [Load "ax"; Op] [];
            Simple [Load "plt"; Op] [];
            Simple [Load "sns"; Op] [];
            Simple [Load "plt"; Op] [] ] ] ].

Definition cell_21 : list stmt :=
  [ For "column" [Load "churn"; Op]
      [ Simple [Load "print"; Load "column"; Op] [];
        Simple [Load "churn"; Load "column"; Op] ["hist"];
        Simple [Load "plt"; Op] [] ] ].

Definition cell_24 : list stmt :=
  [ Simple [Load "plt"; Op] ["f"; "ax"];
    Simple [Load "sns"; Op; Load "churn"; Op; Load "ax"; Op] [] ].

Definition cell_27 : list stmt := [ Simple [Load "churn"; Op] ["churn"] ].

Definition cell_29 : list stmt :=
  [ Simple [Load "pd"; Op; Load "churn"; Op] []; Simple [Load "plt"; Op] [] ].

Definition cell_32 : list stmt :=
  [ Simple [Load "pd"; Op; Load "churn"; Op] ["model_data"];
    Simple [Load "pd"; Op; Load "model_data"; Op; Load "model_data"; Op]
           ["model_data"] ].

Definition cell_34 : list stmt :=
  [ Simple [Load "np"; Op; Load "model_data"; Op;
            Load "int"; Load "len"; Load "model_data"; Op;
            Load "int"; Load "len"; Load "model_data"; Op]
           ["train_data"; "validation_data"; "test_data"];
    Simple [Load "train_data"; Op] [];
    Simple [Load "validation_data"; Op] [] ].

Definition cell_36 : list stmt :=
  [ Simple (uses ["boto3"; "bucket"; "os"; "prefix"]) [];
    Simple (uses ["boto3"; "bucket"; "os"; "prefix"]) [] ].

Definition cell_38 : list stmt :=
  [ Simple [Op] ["get_image_uri"];
    Simple [Load "get_image_uri"; Load "boto3"; Op] ["container"] ].

Definition cell_40 : list stmt :=
  [ Simple [Load "sagemaker"; Op; Load "bucket"; Load "prefix"; Op] ["s3_input_train"];
    Simple [Load "sagemaker"; Op; Load "bucket"; Load "prefix"; Op]
           ["s3_input_validation"] ].

Definition cell_42 : list stmt := [ Simple [] ["model_name"] ].

Definition cell_43 : list stmt :=
  [ Simple [Load "sagemaker"; Op] ["sess"];
    Simple [Load "sagemaker"; Op; Load "container"; Load "role"; Load "model_name"; Op;
            Load "bucket"; Load "prefix"; Op; Load "sess"; Op] ["xgb"];
    Simple [Load "xgb"; Op] [];
    Simple [Load "xgb"; Op; Load "s3_input_train"; Load "s3_input_validation"; Op] [] ].

Definition cell_45 : list stmt := [ Simple [Op] [] ].

Definition cell_46 : list stmt :=
  [ Simple [Load "train_data"; Op] ["train_y"];
    Simple [Load "train_data"; Op] ["train_X"];
    Simple [Load "validation_data"; Op] ["valid_y"];
    Simple [Load "validation_data"; Op] ["valid_X"] ].

Definition cell_47 : list stmt :=
  [ Simple [Op] ["xgboost"];
    Simple [Load "xgboost"; Op] ["customised_xgb"];
    Simple [Load "customised_xgb"; Op; Load "train_X"; Load "train_y";
            Load "valid_X"; Load "valid_y"; Op] [] ].

Definition cell_49 : list stmt :=
  [ Simple [] ["model_file_name"];
    Simple [Load "customised_xgb"; Op; Load "model_file_name"; Op] [] ].

Definition cell_50 : list stmt := [ Simple [Op] [] ].

Definition cell_52 : list stmt :=
  [ Simple [Load "open"; Op] ["fObj"];
    Simple [Load "os"; Op; Load "prefix"; Load "model_file_name"; Op] ["key"];
    Simple (uses ["boto3"; "bucket"; "key"; "fObj"]) [] ].

Definition cell_54 : list stmt :=
  [ Simple [Op; Load "bucket"; Load "key"; Op] ["model_url"];
    Simple [Load "model_url"] [] ].

Definition cell_55 : list stmt := [ Simple [] ["customised_model_name"] ].

Definition cell_56 : list stmt :=
  [ Simple [Load "sagemaker"; Op] ["sess"];
    Simple [Load "sagemaker"; Op; Load "container"; Load "role"; Load "model_url";
            Load "customised_model_name"; Op; Load "bucket"; Load "prefix"; Op;
            Load "sess"; Op] ["customised_xgb"];
    Simple [Load "customised_xgb"; Op] [];
    Simple [Load "customised_xgb"; Op; Load "s3_input_train";
            Load "s3_input_validation"; Op] [] ].

Definition cell_58 : list stmt :=
  [ Simple [Load "test_data"; Op] ["test_data_batch"];
    Simple [Load "test_data_batch"; Op] [];
    Simple (uses ["boto3"; "bucket"; "os"; "prefix"]) [] ].

Definition cell_59 : list stmt :=
  [ Simple [Op; Load "bucket"; Load "prefix"; Op] ["s3_batch_input"];
    Simple [Op; Load "bucket"; Load "prefix"; Op] ["s3_batch_output"] ].

Definition cell_61 : list stmt :=
  [ Simple [Load "xgb"; Op; Load "s3_batch_output"; Op] ["transformer"];
    Simple [Load "transformer"; Op; Load "s3_batch_input"; Op] [];
    Simple [Load "transformer"; Op] [] ].

Definition cell_63 : list stmt :=
  [ Simple [Op; Load "bucket"; Load "prefix"; Op] ["batch_output"];
    Simple [Load "pd"; Op; Load "batch_output"; Op] ["batch_output"] ].

Definition cell_65 : list stmt :=
  [ Simple [Load "np"; Op; Load "batch_output"; Op] ["pred_y"] ].

(** [def get_score(y_true, y_pred): ...] *)
Definition cell_66 : list stmt := [ Simple [] ["get_score"] ].

(** the statement [... = get_score(test_y, pred_y)]: the callee and the
    arguments are loaded, then the call is made *)
Definition get_scores : stmt :=
  Simple [Load "get_score"; Load "test_y"; Load "pred_y"; Op]
         ["temp_precision"; "temp_recall"; "temp_f1"; "temp_accuracy";
          "tn"; "fp"; "fn"; "tp"].

Definition cell_67 : list stmt :=
  [ get_scores;
    Simple [Load "temp_precision"; Load "temp_recall"; Load "temp_f1";
            Load "temp_accuracy"; Load "tp"; Load "fp"; Load "tn"; Load "fn"]
           ["output"];
    Simple [Load "pd"; Op; Load "output"; Op] ["output"];
    Simple [Load "print"; Load "output"; Op] [];
    Simple [Op] ["classification_report"];
    Simple [Load "print"; Load "classification_report"; Load "test_y";
            Load "pred_y"; Op] [] ].

Definition cell_69 : list stmt :=
  [ Simple [Load "plt"; Op; Load "pred_y"; Op] []; Simple [Load "plt"; Op] [] ].

Definition cell_72 : list stmt :=
  [ Simple [Op] ["gmtime"; "strftime"];
    Simple [Op; Load "bucket"; Load "prefix"; Op] ["batch_input"];
    Simple [Op; Load "bucket"; Load "prefix"; Op] ["batch_output"];
    Simple [] ["Modelname"];
    Simple [Load "strftime"; Load "gmtime"; Op] ["transformJobName"] ].

Definition cell_73 : list stmt := [ Simple [Load "boto3"; Op] ["client"] ].

Definition cell_74 : list stmt :=
  [ Simple [Load "client"; Op; Load "transformJobName"; Load "Modelname";
            Load "batch_input"; Load "batch_output"; Op] ["create_batch"] ].

(** the code cells above and below the evaluation cell *)
Definition cells_above : list (list stmt) :=
  [ cell_1; cell_3; cell_5; cell_6; cell_8; cell_11; cell_12; cell_15;
    cell_16; cell_18; cell_21; cell_24; cell_27; cell_29; cell_32; cell_34;
    cell_36; cell_38; cell_40; cell_42; cell_43; cell_45; cell_46; cell_47;
    cell_49; cell_50; cell_52; cell_54; cell_55; cell_56; cell_58; cell_59;
    cell_61; cell_63; cell_65; cell_66 ].

Definition cells_below : list (list stmt) :=
  [ cell_69; cell_72; cell_73; cell_74 ].

(** the code cells, top to bottom *)
Definition notebook : list (list stmt) := cells_above ++ cell_67 :: cells_below.

(** the builtins the cells refer to *)
Definition builtins : env :=
  list_to_set ["print"; "len"; "int"; "open"; "object"].

(** a kernel session: cells run in any order, any number of times, each
    to completion or to its first exception *)
Inductive session : env -> Prop :=
| session_start : session builtins
| session_run E c E' o : session E -> c ∈ notebook -> exec E c E' o -> session E'.

(** the names a statement can bind *)
Fixpoint stmt_stores (s : stmt) : list string :=
  let fix all (p : list stmt) : list string :=
    match p with
    | [] => []
    | s :: p => stmt_stores s ++ all p
    end in
  match s with
  | Simple _ stores => stores
  | For target _ body => target :: all body
  | If _ body => all body
  end.

Definition bound_names (p : list stmt) : list string := p ≫= stmt_stores.

(** every name a cell other than cell 67 can bind, and the builtins *)
Definition other_names : list string :=
  ["print"; "len"; "int"; "open"; "object"] ++ ((cells_above ++ cells_below) ≫= bound_names).

(** the names cell 67 would bind with the metrics *)
Definition metric_names : list string :=
  ["temp_precision"; "temp_recall"; "temp_f1"; "temp_accuracy";
   "tn"; "fp"; "fn"; "tp"; "output"].

(** the outcome of "Run All": cells top to bottom until one raises *)
Inductive run_all : env -> list (list stmt) -> env -> outcome -> Prop :=
| run_all_nil E : run_all E [] E Completed
| run_all_raise E c cs E' e : exec E c E' (Raised e) -> run_all E (c :: cs) E' (Raised e)
| run_all_next E c cs E1 E' o :
    exec E c E1 Completed -> run_all E1 cs E' o -> run_all E (c :: cs) E' o.

End Notebook.

(** ** Small tables to run the model on *)
Module Samples.
Import Frame Churn.

(** a table with a missing value in its one categorical column *)
Definition with_missing : DataFrame :=
  mkDataFrame [mkColumn "VMail Plan" object]
              [(0%Z, [SStr "yes"]); (1%Z, [SStr "no"]); (2%Z, [NaN])].

(** two customers in the layout cell 32 receives, one of whom churned *)
Definition two_customers : DataFrame :=
  mkDataFrame churn_columns
    [ (0%Z, [ SStr "KS"; SInt 128; SInt 415; SStr "no"; SStr "yes"; SInt 25;
              SFloat (Q2Qc (2651 # 10)); SInt 110; SFloat (Q2Qc (1974 # 10)); SInt 99;
              SFloat (Q2Qc (2447 # 10)); SInt 91; SFloat (Q2Qc 10); SInt 3; SInt 1;
              SStr "False." ]);
      (1%Z, [ SStr "NJ"; SInt 137; SInt 415; SStr "no"; SStr "no"; SInt 0;
              SFloat (Q2Qc (2434 # 10)); SInt 114; SFloat (Q2Qc (1212 # 10)); SInt 110;
              SFloat (Q2Qc (1626 # 10)); SInt 104; SFloat (Q2Qc (122 # 10)); SInt 5; SInt 4;
              SStr "True." ]) ].

(** the same two customers as [pd.read_csv] delivers them, followed by a
    copy of the first under a new index label *)
Definition three_raw_rows : DataFrame :=
  mkDataFrame raw_columns
    [ (0%Z, [ SStr "KS"; SInt 128; SInt 415; SStr "382-4657"; SStr "no"; SStr "yes";
              SInt 25; SFloat (Q2Qc (2651 # 10)); SInt 110; SFloat (Q2Qc (4507 # 100));
              SFloat (Q2Qc (1974 # 10)); SInt 99; SFloat (Q2Qc (1678 # 100));
              SFloat (Q2Qc (2447 # 10)); SInt 91; SFloat (Q2Qc (1101 # 100));
              SFloat (Q2Qc 10); SInt 3; SFloat (Q2Qc (27 # 10)); SInt 1;
              SStr "False." ]);
      (1%Z, [ SStr "NJ"; SInt 137; SInt 415; SStr "358-1921"; SStr "no"; SStr "no";
              SInt 0; SFloat (Q2Qc (2434 # 10)); SInt 114; SFloat (Q2Qc (4138 # 100));
              SFloat (Q2Qc (1212 # 10)); SInt 110; SFloat (Q2Qc (1030 # 100));
              SFloat (Q2Qc (1626 # 10)); SInt 104; SFloat (Q2Qc (732 # 100));
              SFloat (Q2Qc (122 # 10)); SInt 5; SFloat (Q2Qc (329 # 100)); SInt 4;
              SStr "True." ]);
      (2%Z, [ SStr "KS"; SInt 128; SInt 415; SStr "382-4657"; SStr "no"; SStr "yes";
              SInt 25; SFloat (Q2Qc (2651 # 10)); SInt 110; SFloat (Q2Qc (4507 # 100));
              SFloat (Q2Qc (1974 # 10)); SInt 99; SFloat (Q2Qc (1678 # 100));
              SFloat (Q2Qc (2447 # 10)); SInt 91; SFloat (Q2Qc (1101 # 100));
              SFloat (Q2Qc 10); SInt 3; SFloat (Q2Qc (27 # 10)); SInt 1;
              SStr "False." ]) ].


(** an object column that holds the integer 1, the float 1.0 and the
    string ['1'] *)
Definition ones : DataFrame :=
  mkDataFrame [mkColumn "a" object]
              [(0%Z, [SInt 1]); (1%Z, [SFloat (Q2Qc 1)]); (2%Z, [SStr "1"])].

(** ten rows without columns, labelled 0 to 9 *)
Definition ten_rows : DataFrame :=
  mkDataFrame [] ((fun i => (Z.of_nat i, [])) <$> seq 0 10).

(** a shuffle that reverses the positions *)
Definition reversed (n : nat) : list nat := reverse (seq 0 n).

End Samples.

(** ** Cells 8, 12, 16, 18 and 21: what the notebook reports about the table *)
Module Describe.
Import Frame.






(** [df.select_dtypes(exclude=['object'])] *)
Definition select_dtypes_exclude_object (df : DataFrame) : DataFrame :=
  select_columns ((fun c => negb (is_object c)) <$> columns df) df.

(** cell 16 *)
Definition categorial_variable : list string :=
  ["State"; "Area Code"; "Int’l Plan"; "VMail Plan"].

Definition continuous_variable : list string :=
  ["Account Length"; "VMail Message"; "Day Mins"; "Day Calls"; "Day Charge";
   "Eve Mins"; "Eve Calls"; "Eve Charge"; "Night Mins"; "Night Calls"; "Night Charge";
   "Intl Mins"; "Intl Calls"; "Intl Charge"; "CustServ Calls"].

(** the observations [pd.crosstab] counts: those with both factors present *)
Definition observed (index columns : list scalar) : list (scalar * scalar) :=
  filter (fun p : scalar * scalar => p.1 ≠ NaN ∧ p.2 ≠ NaN) (zip index columns).

Record table := mkTable {
  row_labels : list scalar;
  column_labels : list scalar;
  counts : list (list nat) }.

(** [pd.crosstab(index, columns)]: one row per value of the first factor,
    one column per value of the second, both sorted; each cell counts the
    observations with that pair of values *)
Definition crosstab (index columns : list scalar) : table :=
  let obs := observed index columns in
  let rs := levels obs.*1 in
  let cs := levels obs.*2 in
  mkTable rs cs
    ((fun a => (fun b => length (filter (fun p => p = (a, b)) obs)) <$> cs) <$> rs).

(** position of the first column with the given label *)
Definition position (label : string) (df : DataFrame) : option nat :=
  fst <$> list_find (fun c => col_name c = label) (columns df).

(** [df[label]] as the values of a column: [KeyError] when the label is
    no column *)
Definition column_of (label : string) (df : DataFrame) : option (list scalar) :=
  j ← position label df; Some (column_values j df).

(** the columns the loop of cell 18 makes a table for:
    [for column in churn.columns[:-1]: if column in categorial_variable] *)
Definition tabulated (churn : DataFrame) : list string :=
  filter (fun column => column ∈ categorial_variable)
         (take (length (names churn) - 1) (names churn)).

(** the tables of cell 18, in the order they are printed *)
Definition crosstabs (churn : DataFrame) : option (list (string * table)) :=
  mapM (fun column =>
          target ← column_of "Churn?" churn;
          factor ← column_of column churn;
          Some (column, crosstab target factor))
       (tabulated churn).

(** the columns the loop of cell 21 draws histograms for *)
Definition histogram_columns (churn : DataFrame) : list string :=
  names (select_dtypes_exclude_object churn).

End Describe.

(** ** Cell 46: features and target of the local model *)
Module Features.
Import Frame.

(** a pandas [Series]: a name and the values with their index labels *)
Record Series := mkSeries { series_name : string; series_items : list (Z * scalar) }.

(** [df.iloc[:, k]]: [IndexError] when there is no column [k] *)
Definition iloc_column (k : nat) (df : DataFrame) : option Series :=
  c ← columns df !! k;
  Some (mkSeries (col_name c) ((fun r : row => (r.1, cell k r)) <$> rows df)).

Record learning_data := mkLearningData {
  train_y : Series; train_X : DataFrame;
  valid_y : Series; valid_X : DataFrame }.

Definition split_features (train_data validation_data : DataFrame) : option learning_data :=
  train_y ← iloc_column 0 train_data;
  let train_X := iloc_columns_from 1 train_data in
  valid_y ← iloc_column 0 validation_data;
  let valid_X := iloc_columns_from 1 validation_data in
  Some (mkLearningData train_y train_X valid_y valid_X).

(** the labels a target series holds *)
Definition labels (y : Series) : list scalar := (series_items y).*2.

End Features.

(** ** Cells 36, 40, 52, 54, 58, 59, 63 and 72: object keys and S3 URIs *)
Module Paths.
Import Stdlib.Strings.Ascii.

Definition starts_with_sep (s : string) : bool :=
  match s with
  | String c _ => bool_decide (c = "/"%char)
  | EmptyString => false
  end.

Fixpoint ends_with_sep (s : string) : bool :=
  match s with
  | EmptyString => false
  | String c EmptyString => bool_decide (c = "/"%char)
  | String _ s' => ends_with_sep s'
  end.

(** one step of [posixpath.join]: an absolute component replaces the path,
    any other is appended, after a separator unless the path is empty or
    ends with one *)
Definition join_step (path b : string) : string :=
  if starts_with_sep b then b
  else if bool_decide (path = "") || ends_with_sep path then path +:+ b
  else path +:+ "/" +:+ b.

(** [os.path.join(a, b, ...)] *)
Definition path_join (a : string) (p : list string) : string := foldl join_step a p.

(** [template.format(a, b, ...)] for a template whose replacement fields are
    all the automatic field [{}] (doubled braces are literal braces):
    [IndexError] when the arguments run out, [ValueError] on a single
    brace; any other field is outside what is modelled.  Surplus
    arguments are ignored, as Python does. *)
Fixpoint format (template : string) (args : list string) : option string :=
  match template with
  | EmptyString => Some EmptyString
  | String c rest =>
      if bool_decide (c = "{"%char) then
        match rest with
        | String d rest' =>
            if bool_decide (d = "}"%char) then
              match args with
              | a :: args' => r ← format rest' args'; Some (a +:+ r)
              | [] => None
              end
            else if bool_decide (d = "{"%char) then
              r ← format rest' args; Some (String "{" r)
            else None
        | EmptyString => None
        end
      else if bool_decide (c = "}"%char) then
        match rest with
        | String d rest' =>
            if bool_decide (d = "}"%char) then r ← format rest' args; Some (String "}" r)
            else None
        | EmptyString => None
        end
      else r ← format rest args; Some (String c r)
  end.

(** ['s3://{}/{}'.format(bucket, key)], the URI cell 54 forms of the
    object [Bucket(bucket).Object(key)] *)
Definition object_uri (bucket key : string) : option string :=
  format "s3://{}/{}" [bucket; key].

Section Locations.
Variables bucket prefix : string.

(** cell 36: the keys the two files are uploaded under *)
Definition train_key : string := path_join prefix ["train/train.csv"].
Definition validation_key : string := path_join prefix ["validation/validation.csv"].

(** cell 40: where the training job looks for them *)
Definition s3_input_train : option string := format "s3://{}/{}/train" [bucket; prefix].
Definition s3_input_validation : option string :=
  format "s3://{}/{}/validation/" [bucket; prefix].

(** cells 49, 52 and 54: the model artefact *)
Definition model_file_name : string := "DEMO-customised-xgboost-churn".
Definition key : string := path_join prefix [model_file_name; "model.tar.gz"].
Definition model_url : option string := object_uri bucket key.

(** cells 58 and 59: the batch input and where the transform job writes *)
Definition batch_key : string := path_join prefix ["batch/test_data_Batch.csv"].
Definition s3_batch_input : option string :=
  format "s3://{}/{}/batch/test_data_Batch.csv" [bucket; prefix].
Definition s3_batch_output : option string :=
  format "s3://{}/{}/batch/batch-inference" [bucket; prefix].

(** cell 63: the file the predictions are read from; cell 72 builds the
    same two strings again for the second job *)
Definition batch_output : option string :=
  format "s3://{}/{}/batch/batch-inference/test_data_Batch.csv.out" [bucket; prefix].
Definition batch_input : option string :=
  format "s3://{}/{}/batch/test_data_Batch.csv" [bucket; prefix].

End Locations.
End Paths.

(** ** Cell 67: the scores that are printed *)
Module Report.
Import Metrics.

(** a Python value of the evaluation cell *)
Inductive value := Ratio (q : Q) | Mean (a : pyfloat) | Count (n : nat).

(** [return precision, recall, f1, accuracy, tn, fp, fn, tp] *)
Definition returned (s : scores) : list value :=
  [Ratio (precision s); Ratio (recall s); Ratio (f1 s); Mean (accuracy s);
   Count (tn s); Count (fp s); Count (fn s); Count (tp s)].

(** [pd.Series(data, index=index)]: [ValueError] when the lengths differ *)
Definition Series (data : list value) (index : list string) : option (list (string * value)) :=
  if decide (length data = length index) then Some (zip index data) else None.

(** [series[label]] for a label that occurs once: [KeyError] when it does
    not occur *)
Definition lookup_label (label : string) (series : list (string * value)) : option value :=
  found ← list_find (fun item : string * value => item.1 = label) series;
  Some found.2.2.

(** [series[[label, ...]]] *)
Definition getitems (labels : list string) (series : list (string * value))
  : option (list (string * value)) :=
  mapM (fun label => v ← lookup_label label series; Some (label, v)) labels.

(** the body of cell 67 up to its first [print], given what [get_score]
    returned: the tuple is unpacked by position, listed again in another
    order and labelled *)
Definition printed (result : list value) : option (list (string * value)) :=
  match result with
  | [temp_precision; temp_recall; temp_f1; temp_accuracy; tn; fp; fn; tp] =>
      let output := [temp_precision; temp_recall; temp_f1; temp_accuracy; tp; fp; tn; fn] in
      output ← Series output ["precision"; "recall"; "f1"; "accuracy"; "tp"; "fp"; "tn"; "fn"];
      getitems ["accuracy"; "tp"; "fp"; "tn"; "fn"] output
  | _ => None
  end.

(** cell 67 for given label vectors *)
Definition report (test_y pred_y : list Z) : option (list (string * value)) :=
  s ← get_score test_y pred_y; printed (returned s).

End Report.

(** ** Names that may be unbound when they are loaded *)
Module Scope.
Import Notebook.

(** the global names an expression loads, in order *)
Definition loaded (code : list event) : list string :=
  code ≫= fun e => match e with Load x => [x] | Op => [] end.

(** the loads of [code] that [known] does not cover *)
Definition uncovered (known : list string) (code : list event) : list string :=
  filter (fun x => x ∉ known) (loaded code).

(** One pass over a statement, given the names [known] to be bound before
    it: the loads not covered by a binding that is certain to precede
    them, and the names certain to be bound once the statement has
    completed.  A loop body or a branch may not run, so what it binds is
    not counted afterwards. *)
Fixpoint scan_stmt (known : list string) (s : stmt) : list string * list string :=
  let fix scan (known : list string) (p : list stmt) : list string * list string :=
    match p with
    | [] => ([], known)
    | s :: p =>
        let r := scan_stmt known s in
        let r' := scan r.2 p in
        (r.1 ++ r'.1, r'.2)
    end in
  match s with
  | Simple code stores => (uncovered known code, stores ++ known)
  | For target iter body =>
      (uncovered known iter ++ (scan (target :: known) body).1, known)
  | If cond body => (uncovered known cond ++ (scan known body).1, known)
  end.

Fixpoint scan (known : list string) (p : list stmt) : list string * list string :=
  match p with
  | [] => ([], known)
  | s :: p =>
      let r := scan_stmt known s in
      let r' := scan r.2 p in
      (r.1 ++ r'.1, r'.2)
  end.

(** the builtins as a list *)
Definition builtin_names : list string := ["print"; "len"; "int"; "open"; "object"].

(** the loads of a top-to-bottom run that no earlier binding covers *)
Definition undefined_names (cells : list (list stmt)) : list string :=
  (scan builtin_names (concat cells)).1.

(** the names bound for certain once the cells have completed *)
Definition defined_after (cells : list (list stmt)) : list string :=
  (scan builtin_names (concat cells)).2.

End Scope.

(** ** Cells 11 to 58 in sequence *)
Module Pipeline.
Import Frame Churn Split Features.

(** position of the target in [raw_columns] *)
Definition raw_target_position : nat := 20.

(** a customer's cells without the phone number and the four charges *)
Definition kept_cells (cells : list scalar) : list scalar :=
  select charge_mask (select phone_mask cells).

(** the target of the table as read: ['True.'] or ['False.'] in every
    row, and both occur *)
Definition raw_binary_target (churn : DataFrame) : Prop :=
  (forall r, r ∈ rows churn ->
     cell raw_target_position r = SStr "True." \/
     cell raw_target_position r = SStr "False.") /\
  (exists r, r ∈ rows churn /\ cell raw_target_position r = SStr "True.") /\
  (exists r, r ∈ rows churn /\ cell raw_target_position r = SStr "False.").

(** cell 11: the table the exploration of cells 15 to 24 looks at (cell
    12 removes rows only) *)
Definition drop_phone (churn : DataFrame) : option DataFrame :=
  churn ← drop_labels ["Phone"] churn;
  astype "Area Code" object churn.

(** the rows cells 11, 12 and 27 leave of a table in the layout of
    [churn.txt] *)
Definition cleaned_rows (churn : DataFrame) : list row :=
  (fun r : row => (r.1, select charge_mask r.2))
    <$> rows (drop_duplicates (select_columns phone_mask churn)).

Section Prepare.
Variable repr_float : Qc -> string.
Variable permutation : nat -> list nat.


(** cells 32, 34 and 46: what the local classifier is fitted on *)
Definition learning_set (churn : DataFrame) : option learning_data :=
  model_data ← encode repr_float churn;
  parts ← Splitter permutation model_data;
  let '(train_data, validation_data, test_data) := parts in
  split_features train_data validation_data.

End Prepare.
End Pipeline.

(** ** Cells 65 and 66 in sequence *)
Module Evaluate.
Import Threshold Metrics.

(** a score above the cut-off *)
Definition above_half (s : Q) : bool := if Qlt_le_dec (1 # 2) s then true else false.

(** a prediction score as the model delivers it: a probability *)
Definition probability (s : Q) : Prop := (0 <= s <= 1)%Q.

(** cells 65 and 66 applied to the true labels of the rows scored *)
Definition evaluate (test_y : list Z) (batch_output : list Q) : option scores :=
  get_score test_y (pred_y batch_output).

End Evaluate.

(** ** More small tables *)
Module MoreSamples.
Import Frame Churn.

(** two customers of one state who differ in their phone number only *)
Definition same_but_phone : DataFrame :=
  mkDataFrame [mkColumn "Phone" object; mkColumn "State" object]
    [ (0%Z, [SStr "382-4657"; SStr "KS"]); (1%Z, [SStr "358-1921"; SStr "KS"]) ].

End MoreSamples.

Module Float64Facts.
Import Float64.
Local Open Scope Z_scope.

Example int_mul_0_7_3333 : int_mul f0_7 3333 = Some 2333.
Proof. reflexivity. Qed.

Example int_mul_0_9_3333 : int_mul f0_9 3333 = Some 2999.
Proof. reflexivity. Qed.

(** [0.7 * 90] is [62.99999999999999] in binary64 *)
Example int_mul_0_7_90 : int_mul f0_7 90 = Some 62.
Proof. reflexivity. Qed.

(** Rounding moves a significand by at most one part in [2 ^ 53]. *)
Lemma round_nearest_even_spec m e :
  0 <= m ->
  exists s, 0 <= s /\
    expo (round_nearest_even m e) = e + s /\
    0 <= mant (round_nearest_even m e) /\
    (2 ^ 53 - 1) * m <= 2 ^ 53 * (mant (round_nearest_even m e) * 2 ^ s) /\
    2 ^ 53 * (mant (round_nearest_even m e) * 2 ^ s) <= (2 ^ 53 + 1) * m.
Proof.
  intros Hm. unfold round_nearest_even, prec.
  destruct (Z.leb_spec (Z.log2 m + 1 - 53) 0) as [Hs|Hs].
  - exists 0. cbn [mant expo]. rewrite Z.pow_0_r. lia.
  - set (s := Z.log2 m + 1 - 53) in *.
    exists s. cbn [mant expo].
    assert (Hmpos : 0 < m) by (destruct (Z.eq_dec m 0) as [->|]; [cbn in s; lia|lia]).
    rewrite Z.shiftr_div_pow2, Z.land_ones, Z.shiftl_1_l by lia.
    assert (Hlog : 2 ^ (s + 52) <= m).
    { replace (s + 52) with (Z.log2 m) by lia. apply Z.log2_spec; lia. }
    assert (Hsplit : 2 ^ s = 2 * 2 ^ (s - 1)).
    { replace s with (Z.succ (s - 1)) at 1 by lia. apply Z.pow_succ_r; lia. }
    assert (Hbig : 2 ^ (s + 52) = 2 ^ 53 * 2 ^ (s - 1)).
    { replace (s + 52) with (53 + (s - 1)) by lia. apply Z.pow_add_r; lia. }
    assert (HP : 0 < 2 ^ (s - 1)) by (apply Z.pow_pos_nonneg; lia).
    pose proof (Z.div_mod m (2 ^ s) ltac:(lia)) as Hdm.
    pose proof (Z.mod_pos_bound m (2 ^ s) ltac:(lia)) as Hrem.
    assert (Hq : 0 <= m / 2 ^ s) by (apply Z.div_pos; lia).
    set (q := m / 2 ^ s) in *. set (r := m mod 2 ^ s) in *.
    set (P := 2 ^ (s - 1)) in *.
    rewrite Hsplit in Hdm, Hrem |- *.
    assert (Hval : forall x, 2 ^ 53 * (x * (2 * P)) = 2 * (2 ^ 53 * (P * x))) by (intros; ring).
    replace (2 * P * q) with (2 * (P * q)) in Hdm by ring.
    split; [lia|]. split; [reflexivity|].
    destruct ((P <? r) || ((r =? P) && Z.odd q)) eqn:Hup.
    + assert (P <= r).
      { apply orb_true_iff in Hup as [H|H]; [apply Z.ltb_lt in H; lia|].
        apply andb_true_iff in H as [H _]. apply Z.eqb_eq in H. lia. }
      rewrite Hval. replace (P * (q + 1)) with (P * q + P) by ring.
      set (a := P * q) in *. change (2 ^ 53) with 9007199254740992 in *. lia.
    + assert (r <= P).
      { apply orb_false_iff in Hup as [H _]. apply Z.ltb_ge in H. lia. }
      rewrite Hval.
      set (a := P * q) in *. change (2 ^ 53) with 9007199254740992 in *. lia.
Qed.

Lemma shiftr_scaled (q t : Z) :
  0 <= q -> 0 <= t -> Z.shiftr q (53 - t) = (q * 2 ^ t) / 2 ^ 53.
Proof.
  intros Hq Ht. destruct (Z.le_gt_cases t 53) as [Hle|Hgt].
  - rewrite Z.shiftr_div_pow2 by lia.
    assert (E : 2 ^ 53 = 2 ^ (53 - t) * 2 ^ t)
      by (rewrite <- Z.pow_add_r by lia; f_equal; lia).
    rewrite E, Z.div_mul_cancel_r; [reflexivity| |]; apply Z.pow_nonzero; lia.
  - rewrite Z.shiftr_mul_pow2 by lia.
    replace (- (53 - t)) with (t - 53) by lia.
    assert (E : 2 ^ t = 2 ^ (t - 53) * 2 ^ 53)
      by (rewrite <- Z.pow_add_r by lia; f_equal; lia).
    rewrite E, Z.mul_assoc, Z.div_mul; [reflexivity|]. apply Z.pow_nonzero; lia.
Qed.

(** The conversion of a row count succeeds and is off by at most one part
    in [2 ^ 53]. *)
Lemma float_of_int_spec (n : Z) :
  0 <= n < 2 ^ 63 ->
  exists nf, float_of_int n = Some nf /\ 0 <= mant nf /\ 0 <= expo nf /\
    (2 ^ 53 - 1) * n <= 2 ^ 53 * int_value nf /\
    2 ^ 53 * int_value nf <= (2 ^ 53 + 1) * n.
Proof.
  intros [Hn Hlt]. unfold float_of_int.
  destruct (round_nearest_even_spec n 0 Hn) as (s & Hs & He & Hm & Hlo & Hhi).
  set (nf := round_nearest_even n 0) in *.
  assert (Hv : int_value nf = mant nf * 2 ^ s).
  { unfold int_value. rewrite He, Z.shiftl_mul_pow2 by lia. reflexivity. }
  exists nf. rewrite Hv.
  assert (Hsmall : mant nf * 2 ^ s < 2 ^ 1024).
  { apply Z.lt_trans with (2 ^ 64); [|now apply Z.pow_lt_mono_r].
    change (2 ^ 53) with 9007199254740992 in *.
    change (2 ^ 63) with 9223372036854775808 in *.
    change (2 ^ 64) with 18446744073709551616. lia. }
  destruct (Z.ltb_spec (mant nf * 2 ^ s) (2 ^ 1024)) as [_|Hge]; [|lia].
  repeat split; try assumption. lia.
Qed.

(** [int(c * n)] for a literal [c] of exponent [-53]: the floor of a
    product rounded once more. *)
Lemma py_int_fmul_spec (c nf : float) :
  0 <= mant c -> expo c = -53 -> 0 <= mant nf -> 0 <= expo nf ->
  exists w, py_int (fmul c nf) = w / 2 ^ 53 /\ 0 <= w /\
    (2 ^ 53 - 1) * (mant c * int_value nf) <= 2 ^ 53 * w /\
    2 ^ 53 * w <= (2 ^ 53 + 1) * (mant c * int_value nf).
Proof.
  intros Hc He Hm Hen. unfold fmul, py_int.
  assert (Hx : 0 <= mant c * mant nf) by now apply Z.mul_nonneg_nonneg.
  destruct (round_nearest_even_spec (mant c * mant nf) (expo c + expo nf) Hx)
    as (s & Hs & Hes & Hq & Hlo & Hhi).
  set (f := round_nearest_even _ _) in *.
  assert (Hpow : 0 < 2 ^ expo nf) by (apply Z.pow_pos_nonneg; lia).
  assert (Hpow' : 0 <= 2 ^ s) by (apply Z.pow_nonneg; lia).
  exists (mant f * 2 ^ (s + expo nf)).
  split; [|split].
  - rewrite Hes, He. replace (- (-53 + expo nf + s)) with (53 - (s + expo nf)) by lia.
    apply shiftr_scaled; lia.
  - apply Z.mul_nonneg_nonneg; [assumption|apply Z.pow_nonneg; lia].
  - unfold int_value. rewrite Z.shiftl_mul_pow2, Z.pow_add_r by lia.
    apply (Z.mul_le_mono_nonneg_r _ _ (2 ^ expo nf)) in Hlo; [|lia].
    apply (Z.mul_le_mono_nonneg_r _ _ (2 ^ expo nf)) in Hhi; [|lia].
    split; [etransitivity; [|etransitivity; [exact Hlo|]]
           |etransitivity; [|etransitivity; [exact Hhi|]]];
      apply Z.eq_le_incl; ring.
Qed.

(** The two cut points of cell 34 exist and are ordered:
    [0 <= int(0.7 * n) <= int(0.9 * n) <= n]. *)
Lemma cut_points (n : Z) :
  0 <= n < 2 ^ 63 ->
  exists i1 i2, int_mul f0_7 n = Some i1 /\ int_mul f0_9 n = Some i2 /\
    0 <= i1 /\ i1 <= i2 /\ i2 <= n.
Proof.
  intros Hn.
  destruct (float_of_int_spec n Hn) as (nf & Hnf & Hm & He & Hlo & Hhi).
  destruct (py_int_fmul_spec f0_7 nf) as (w1 & H1 & Hw1 & Hlo1 & Hhi1);
    [cbn; lia|reflexivity|assumption|assumption|].
  destruct (py_int_fmul_spec f0_9 nf) as (w2 & H2 & Hw2 & Hlo2 & Hhi2);
    [cbn; lia|reflexivity|assumption|assumption|].
  exists (w1 / 2 ^ 53), (w2 / 2 ^ 53).
  unfold int_mul. rewrite Hnf. cbn [mbind option_bind]. rewrite H1, H2.
  split; [reflexivity|]. split; [reflexivity|].
  cbn [mant f0_7 f0_9] in *.
  set (N := int_value nf) in *.
  assert (HN : 0 <= N).
  { unfold N, int_value. rewrite Z.shiftl_mul_pow2 by lia.
    apply Z.mul_nonneg_nonneg; [assumption|apply Z.pow_nonneg; lia]. }
  change (2 ^ 53) with 9007199254740992 in *.
  split; [apply Z.div_pos; lia|].
  split.
  - apply Z.div_le_mono; lia.
  - apply Z.div_le_upper_bound; lia.
Qed.

End Float64Facts.

(** ** Mask selection and duplicate removal *)
Module DuplicateFacts.
Import Frame Samples.

Lemma select_sublist {A} (mask : list bool) (l : list A) : select mask l `sublist_of` l.
Proof.
  revert l. induction mask as [|b mask IH]; intros [|x l]; cbn;
    try apply sublist_nil_l.
  destruct b; [now apply sublist_skip|now apply sublist_cons].
Qed.

Lemma elem_of_select {A} (mask : list bool) (l : list A) (x : A) :
  x ∈ select mask l <-> exists i, l !! i = Some x /\ mask !! i = Some true.
Proof.
  revert l. induction mask as [|b mask IH]; intros [|y l]; cbn.
  - split; [intros H%elem_of_nil; contradiction|intros (i & H & _); discriminate].
  - split; [intros H%elem_of_nil; contradiction|intros (i & _ & H); discriminate].
  - split; [intros H%elem_of_nil; contradiction|intros (i & H & _); discriminate].
  - destruct b.
    + rewrite elem_of_cons, IH. split.
      * intros [->|(i & Hl & Hm)]; [exists 0%nat; auto|exists (S i); auto].
      * intros ([|i] & Hl & Hm); cbn in *; [left; congruence|right; eauto].
    + rewrite IH. split.
      * intros (i & Hl & Hm). exists (S i); auto.
      * intros ([|i] & Hl & Hm); cbn in *; [discriminate|eauto].
Qed.

Lemma elem_of_select_1 {A} (mask : list bool) (l : list A) (x : A) :
  x ∈ select mask l -> x ∈ l.
Proof.
  intros (i & Hi & _)%elem_of_select. eapply list_elem_of_lookup_2. exact Hi.
Qed.

Lemma select_fmap {A B} (f : A -> B) (mask : list bool) (l : list A) :
  f <$> select mask l = select mask (f <$> l).
Proof.
  revert l. induction mask as [|b mask IH]; intros [|x l]; cbn; try reflexivity.
  destruct b; cbn; now rewrite IH.
Qed.

(** a duplicate-free list with two possible members, both present *)
Lemma two_elements {A} (l : list A) (a b : A) :
  NoDup l -> (forall x, x ∈ l <-> x = a \/ x = b) -> a ≠ b -> l = [a; b] \/ l = [b; a].
Proof.
  intros Hnd Hin Hab.
  assert (Ha : a ∈ l) by (apply Hin; now left).
  assert (Hb : b ∈ l) by (apply Hin; now right).
  destruct l as [|x [|y [|z l]]].
  - apply elem_of_nil in Ha. contradiction.
  - apply list_elem_of_singleton in Ha, Hb. congruence.
  - apply NoDup_cons in Hnd as [Hxy _]. rewrite list_elem_of_singleton in Hxy.
    assert (Hx : x = a \/ x = b) by (apply Hin; left).
    assert (Hy : y = a \/ y = b) by (apply Hin; right; left).
    destruct Hx as [-> | ->], Hy as [-> | ->]; try contradiction; auto.
  - exfalso. apply NoDup_cons in Hnd as [Hx Hnd]. apply NoDup_cons in Hnd as [Hy _].
    apply not_elem_of_cons in Hx as [Hxy Hx]. apply not_elem_of_cons in Hx as [Hxz _].
    apply not_elem_of_cons in Hy as [Hyz _].
    assert (Hx' : x = a \/ x = b) by (apply Hin; left).
    assert (Hy' : y = a \/ y = b) by (apply Hin; right; left).
    assert (Hz' : z = a \/ z = b) by (apply Hin; right; right; left).
    destruct Hx' as [-> | ->], Hy' as [-> | ->], Hz' as [-> | ->]; contradiction.
Qed.

Section Keyed.
Context {A K : Type} `{EqDecision K} (key : A -> K).

Lemma kept_cons (seen : list K) (x : A) (l : list A) :
  kept key seen (x :: l) =
  if decide (key x ∈ seen) then kept key seen l else x :: kept key (key x :: seen) l.
Proof. unfold kept. cbn. destruct (decide (key x ∈ seen)); reflexivity. Qed.

Lemma kept_idempotent (seen : list K) (l : list A) :
  kept key seen (kept key seen l) = kept key seen l.
Proof.
  revert seen. induction l as [|x l IH]; intros seen; [reflexivity|].
  rewrite kept_cons. destruct (decide (key x ∈ seen)) as [Hin|Hout].
  - apply IH.
  - rewrite kept_cons, decide_False by assumption. now rewrite IH.
Qed.

Lemma kept_fresh (seen : list K) (l : list A) (x : A) :
  x ∈ kept key seen l -> key x ∉ seen.
Proof.
  revert seen. induction l as [|y l IH]; intros seen; [intros H%elem_of_nil; contradiction|].
  rewrite kept_cons. destruct (decide (key y ∈ seen)) as [Hin|Hout].
  - apply IH.
  - intros [->|H]%elem_of_cons; [assumption|].
    apply IH in H. intros Hs. apply H. now right.
Qed.

Lemma kept_NoDup (seen : list K) (l : list A) : NoDup (key <$> kept key seen l).
Proof.
  revert seen. induction l as [|y l IH]; intros seen; [constructor|].
  rewrite kept_cons. destruct (decide (key y ∈ seen)) as [Hin|Hout]; [apply IH|].
  cbn. constructor; [|apply IH].
  intros (x & Hk & Hx)%list_elem_of_fmap.
  apply kept_fresh in Hx. apply Hx. rewrite <- Hk. now left.
Qed.

Lemma kept_covers (seen : list K) (l : list A) (x : A) :
  x ∈ l -> key x ∈ seen \/ key x ∈ key <$> kept key seen l.
Proof.
  revert seen. induction l as [|y l IH]; intros seen; [intros H%elem_of_nil; contradiction|].
  rewrite kept_cons. intros [->|Hx]%elem_of_cons.
  - destruct (decide (key y ∈ seen)); [now left|right; cbn; now left].
  - destruct (decide (key y ∈ seen)) as [Hin|Hout]; [now apply IH|].
    destruct (IH (key y :: seen) Hx) as [[->|H]%elem_of_cons|H].
    + right; cbn; now left.
    + now left.
    + right; cbn; now right.
Qed.

End Keyed.


(** the early return of an empty table; every other table is filtered *)
Lemma drop_duplicates_empty (df : DataFrame) : empty df -> drop_duplicates df = df.
Proof. intros H. unfold drop_duplicates. now rewrite decide_True. Qed.


Lemma drop_duplicates_rows (df : DataFrame) :
  columns df ≠ [] -> rows (drop_duplicates df) = kept row_key [] (rows df).
Proof.
  intros Hc. unfold drop_duplicates, duplicated.
  destruct (decide (empty df)) as [[H|H]|H]; [contradiction| |reflexivity].
  now rewrite H.
Qed.

Lemma drop_duplicates_columns (df : DataFrame) :
  columns (drop_duplicates df) = columns df.
Proof. unfold drop_duplicates. now destruct (decide (empty df)). Qed.

Lemma drop_duplicates_sublist (df : DataFrame) :
  rows (drop_duplicates df) `sublist_of` rows df.
Proof.
  unfold drop_duplicates. destruct (decide (empty df)); [reflexivity|].
  apply select_sublist.
Qed.

(** which rows stay depends on the columns only through there being one *)
Lemma drop_duplicates_retyped (cols cols' : list column) (rws : list row) :
  cols ≠ [] -> cols' ≠ [] ->
  rows (drop_duplicates (mkDataFrame cols rws))
  = rows (drop_duplicates (mkDataFrame cols' rws)).
Proof. intros H H'. now rewrite !drop_duplicates_rows. Qed.

(** a table with a row and a column keeps its first row *)
Lemma drop_duplicates_not_empty (df : DataFrame) :
  ¬ empty df -> ¬ empty (drop_duplicates df).
Proof.
  intros Hne [Hc|Hr]; apply Hne.
  - left. now rewrite drop_duplicates_columns in Hc.
  - right. destruct (decide (columns df = [])) as [Hc|Hc]; [exfalso; apply Hne; now left|].
    rewrite (drop_duplicates_rows df Hc) in Hr.
    destruct (rows df) as [|r rws]; [reflexivity|].
    rewrite kept_cons, decide_False in Hr by apply not_elem_of_nil. discriminate.
Qed.

(** C4. Removing duplicate rows twice gives the same table, hence the
    same row count, as removing them once. *)
Theorem drop_duplicates_idempotent (df : DataFrame) :
  drop_duplicates (drop_duplicates df) = drop_duplicates df /\
  len (drop_duplicates (drop_duplicates df)) = len (drop_duplicates df).
Proof.
  assert (E : drop_duplicates (drop_duplicates df) = drop_duplicates df).
  { destruct (decide (empty df)) as [He|He].
    - now rewrite !(drop_duplicates_empty df He).
    - pose proof (drop_duplicates_not_empty df He) as He'.
      assert (Hc : columns df ≠ []) by (intros Hc; apply He; now left).
      assert (Hc' : columns (drop_duplicates df) ≠ [])
        by now rewrite drop_duplicates_columns.
      pose proof (drop_duplicates_rows _ Hc') as Hr.
      rewrite (drop_duplicates_rows df Hc), kept_idempotent in Hr.
      rewrite <- (drop_duplicates_rows df Hc) in Hr.
      pose proof (drop_duplicates_columns (drop_duplicates df)) as Hcol.
      destruct (drop_duplicates (drop_duplicates df)) as [c2 r2].
      destruct (drop_duplicates df) as [c1 r1]. cbn [columns rows] in *. now subst. }
  split; [exact E|now rewrite E].
Qed.

(** which cells [duplicated] takes for the same: equal ones, and an
    integer and the float of the same value *)
Lemma factorize_same (a b : scalar) :
  factorize a = factorize b <->
  a = b \/ (exists z, a = SInt z /\ b = SFloat (Q2Qc (inject_Z z)))
        \/ (exists z, a = SFloat (Q2Qc (inject_Z z)) /\ b = SInt z).
Proof.
  split.
  - destruct a as [z|q|t|], b as [z'|q'|t'|]; cbn; intros H; try discriminate;
      try (left; reflexivity).
    + left. f_equal.
      assert (E : Q2Qc (inject_Z z) = Q2Qc (inject_Z z')) by congruence.
      apply Q2Qc_eq_iff in E. now apply inject_Z_injective.
    + right; left. exists z. split; [reflexivity|]. now injection H as <-.
    + right; right. exists z'. split; [|reflexivity]. now injection H as ->.
    + left. now injection H as ->.
    + left. now injection H as ->.
  - intros [->|[(z & -> & ->)|(z & -> & ->)]]; reflexivity.
Qed.




End DuplicateFacts.

(** ** One-hot encoding *)
Module DummyFacts.
Import Frame Samples DuplicateFacts.

Lemma select_length {A B} (mask : list bool) (l : list A) (k : list B) :
  length l = length k -> length (select mask l) = length (select mask k).
Proof.
  revert l k. induction mask as [|b mask IH]; intros [|x l] [|y k] H; cbn in *;
    try reflexivity; try discriminate.
  injection H as H. destruct b; cbn; auto.
Qed.

Lemma insert_sorted_Permutation (x : scalar) (l : list scalar) :
  insert_sorted x l ≡ₚ x :: l.
Proof.
  induction l as [|y l IH]; cbn; [reflexivity|].
  destruct (scalar_leb x y); [reflexivity|].
  rewrite IH. apply Permutation_swap.
Qed.

Lemma sort_Permutation (l : list scalar) : sort l ≡ₚ l.
Proof.
  induction l as [|x l IH]; cbn; [reflexivity|].
  now rewrite insert_sorted_Permutation, IH.
Qed.

Lemma unique_kept (data : list scalar) : unique data = kept (fun v => v) [] data.
Proof. unfold unique, kept. now rewrite list_fmap_id. Qed.

Lemma unique_NoDup (data : list scalar) : NoDup (unique data).
Proof.
  rewrite unique_kept. rewrite <- (list_fmap_id (kept _ _ _)).
  apply (kept_NoDup (fun v : scalar => v)).
Qed.

Lemma elem_of_unique (data : list scalar) (v : scalar) : v ∈ unique data <-> v ∈ data.
Proof.
  split.
  - apply elem_of_select_1.
  - intros H. rewrite unique_kept.
    destruct (kept_covers (fun v : scalar => v) [] _ _ H) as [E%elem_of_nil|E]; [contradiction|].
    now rewrite list_fmap_id in E.
Qed.

Lemma levels_NoDup (data : list scalar) : NoDup (levels data).
Proof. unfold levels. rewrite sort_Permutation. apply unique_NoDup. Qed.

(** the levels of a column are its values that are not missing *)
Lemma elem_of_levels (data : list scalar) (v : scalar) :
  v ∈ levels data <-> v ∈ data /\ v ≠ NaN.
Proof.
  unfold levels. rewrite sort_Permutation, elem_of_unique, list_elem_of_filter. tauto.
Qed.

Lemma dummy_row_cons (l : scalar) (lv : list scalar) (v : scalar) :
  dummy_row (l :: lv) v = indicator v l :: dummy_row lv v.
Proof. reflexivity. Qed.

Lemma dummy_row_absent (lv : list scalar) (v : scalar) :
  v ∉ lv -> dummy_row lv v = replicate (length lv) (SInt 0).
Proof.
  induction lv as [|l lv IH]; [reflexivity|].
  intros [Hne Hout]%not_elem_of_cons. rewrite dummy_row_cons. unfold indicator at 1.
  rewrite decide_False by assumption. cbn. f_equal. now apply IH.
Qed.

(** for a value among distinct levels, one indicator is 1 and the rest 0 *)
Lemma dummy_row_present (lv : list scalar) (v : scalar) :
  NoDup lv -> v ∈ lv ->
  exists pre post, (pre + S post)%nat = length lv /\
    dummy_row lv v = replicate pre (SInt 0) ++ SInt 1 :: replicate post (SInt 0).
Proof.
  induction lv as [|l lv IH]; [intros _ H%elem_of_nil; contradiction|].
  intros [Hl Hnd]%NoDup_cons Hin. rewrite dummy_row_cons. unfold indicator at 1.
  destruct (decide (v = l)) as [->|Hne].
  - exists 0%nat, (length lv). split; [reflexivity|]. cbn. f_equal.
    now apply dummy_row_absent.
  - apply elem_of_cons in Hin as [?|Hin]; [contradiction|].
    destruct (IH Hnd Hin) as (pre & post & Hlen & ->).
    exists (S pre), post. split; [cbn; lia|reflexivity].
Qed.

Lemma sum_cells_app (l k : list scalar) : sum_cells (l ++ k) = (sum_cells l + sum_cells k)%Z.
Proof.
  induction l as [|x l IH]; [reflexivity|].
  change (sum_cells ((x :: l) ++ k)) with (cell_value x + sum_cells (l ++ k))%Z.
  change (sum_cells (x :: l)) with (cell_value x + sum_cells l)%Z.
  rewrite IH. lia.
Qed.

Lemma sum_cells_zeros (n : nat) : sum_cells (replicate n (SInt 0)) = 0%Z.
Proof. induction n as [|n IH]; cbn; [reflexivity|exact IH]. Qed.

Lemma dummy_row_length (lv : list scalar) (v : scalar) : length (dummy_row lv v) = length lv.
Proof. unfold dummy_row. apply length_fmap. Qed.

(** the frame [get_dummies] builds, block by block *)
Lemma get_dummies_split (repr_float : Qc -> string) (df : DataFrame) (j : nat) (c : column) :
  (j, c) ∈ encoded df ->
  exists e1 e2,
    encoded df = e1 ++ (j, c) :: e2 /\
    columns (get_dummies repr_float df) =
      (select ((fun c => negb (is_object c)) <$> columns df) (columns df)
         ++ (e1 ≫= fun jc => dummy_columns repr_float (col_name jc.2) (field_levels df jc.1)))
      ++ dummy_columns repr_float (col_name c) (field_levels df j)
      ++ (e2 ≫= fun jc => dummy_columns repr_float (col_name jc.2) (field_levels df jc.1)) /\
    rows (get_dummies repr_float df) =
      (fun r : row =>
         (r.1, (select ((fun c => negb (is_object c)) <$> columns df) r.2
                  ++ (e1 ≫= fun jc => field_indicators df jc.1 r))
               ++ field_indicators df j r
               ++ (e2 ≫= fun jc => field_indicators df jc.1 r))) <$> rows df.
Proof.
  intros (e1 & e2 & He)%list_elem_of_split. exists e1, e2.
  split; [exact He|]. unfold get_dummies. cbn [columns rows]. rewrite He.
  split.
  - now rewrite bind_app, bind_cons, <- !app_assoc.
  - apply list_fmap_ext. intros _ r _. now rewrite bind_app, bind_cons, <- !app_assoc.
Qed.

Lemma bind_blocks_length {A} (e : list A) (f : A -> list column) (g : A -> list scalar) :
  (forall a, length (g a) = length (f a)) -> length (e ≫= g) = length (e ≫= f).
Proof.
  intros H. induction e as [|a e IH]; [reflexivity|].
  rewrite !bind_cons, !length_app, H, IH. reflexivity.
Qed.

Lemma replicate_zeros_binary (n : nat) :
  Forall (fun v => v = SInt 0 \/ v = SInt 1) (replicate n (SInt 0)).
Proof. apply Forall_replicate. now left. Qed.

(** C6, as the code has it.  [get_dummies] lays the indicator columns of
    a categorical field out as one block.  In every row the cells under
    the block are 0 or 1 and at most one of them is 1; they sum to 1 when
    the row's value of the field is not missing, and are all 0 when it
    is. *)
Theorem one_hot_row (repr_float : Qc -> string) (df : DataFrame)
    (j : nat) (c : column) (r : row) :
  rectangular df -> (j, c) ∈ encoded df -> r ∈ rows df ->
  exists cols_before cols_after cells_before cells_after,
    columns (get_dummies repr_float df) =
      cols_before ++ dummy_columns repr_float (col_name c) (field_levels df j) ++ cols_after /\
    (r.1, cells_before ++ field_indicators df j r ++ cells_after)
      ∈ rows (get_dummies repr_float df) /\
    length cells_before = length cols_before /\
    length (field_indicators df j r)
      = length (dummy_columns repr_float (col_name c) (field_levels df j)) /\
    Forall (fun v => v = SInt 0 \/ v = SInt 1) (field_indicators df j r) /\
    (sum_cells (field_indicators df j r) <= 1)%Z /\
    (cell j r ≠ NaN ->
       sum_cells (field_indicators df j r) = 1%Z /\
       exists pre post,
         field_indicators df j r
           = replicate pre (SInt 0) ++ SInt 1 :: replicate post (SInt 0)) /\
    (cell j r = NaN ->
       sum_cells (field_indicators df j r) = 0%Z /\
       field_indicators df j r = replicate (length (field_levels df j)) (SInt 0)).
Proof.
  intros Hrect Hjc Hr.
  destruct (get_dummies_split repr_float df j c Hjc) as (e1 & e2 & He & Hcols & Hrows).
  assert (Hone : forall pre post,
            sum_cells (replicate pre (SInt 0) ++ SInt 1 :: replicate post (SInt 0)) = 1%Z).
  { intros pre post. rewrite sum_cells_app, sum_cells_zeros.
    change (sum_cells (SInt 1 :: replicate post (SInt 0)))
      with (1 + sum_cells (replicate post (SInt 0)))%Z.
    now rewrite sum_cells_zeros. }
  assert (Hcases :
            (cell j r ≠ NaN /\ exists pre post,
               field_indicators df j r
                 = replicate pre (SInt 0) ++ SInt 1 :: replicate post (SInt 0)) \/
            (cell j r = NaN /\
               field_indicators df j r = replicate (length (field_levels df j)) (SInt 0))).
  { destruct (decide (cell j r = NaN)) as [Hna|Hna].
    - right. split; [exact Hna|]. apply dummy_row_absent.
      intros [_ H]%elem_of_levels. contradiction.
    - left. split; [exact Hna|].
      assert (Hlv : cell j r ∈ field_levels df j).
      { apply elem_of_levels. split; [|assumption].
        unfold column_values. now apply list_elem_of_fmap_2. }
      destruct (dummy_row_present _ _ (levels_NoDup _) Hlv) as (pre & post & _ & Hrow).
      now exists pre, post. }
  eexists _, _, _, _. split; [exact Hcols|].
  split; [rewrite Hrows; apply list_elem_of_fmap; exists r; split; [reflexivity|exact Hr]|].
  split.
  { rewrite !length_app. f_equal.
    - apply select_length. unfold rectangular in Hrect.
      rewrite Forall_forall in Hrect. now apply Hrect.
    - apply bind_blocks_length. intros a. unfold field_indicators, dummy_columns.
      now rewrite dummy_row_length, length_fmap. }
  split; [unfold field_indicators, dummy_columns; now rewrite dummy_row_length, length_fmap|].
  destruct Hcases as [(Hna & pre & post & Hrow)|(Hna & Hrow)]; rewrite Hrow.
  - split.
    { rewrite Forall_app, Forall_cons. repeat split; auto using replicate_zeros_binary. }
    rewrite Hone. split; [lia|]. split; [|contradiction].
    intros _. split; [reflexivity|]. now exists pre, post.
  - split; [apply replicate_zeros_binary|].
    rewrite sum_cells_zeros. split; [lia|]. split; [contradiction|].
    intros _. split; reflexivity.
Qed.

(** C6 fails on a missing value: every indicator of the field is 0
    there, so the row's indicators sum to 0, not to 1. *)
Lemma one_hot_missing_value :
  (0%nat, mkColumn "VMail Plan" object) ∈ encoded with_missing /\
  (2%Z, [NaN]) ∈ rows with_missing /\
  rows (get_dummies (fun _ => "") with_missing)
    = [(0%Z, [SInt 0; SInt 1]); (1%Z, [SInt 1; SInt 0]); (2%Z, [SInt 0; SInt 0])] /\
  field_indicators with_missing 0 (2%Z, [NaN]) = [SInt 0; SInt 0] /\
  sum_cells (field_indicators with_missing 0 (2%Z, [NaN])) = 0%Z.
Proof.
  split; [vm_compute; left|].
  split; [vm_compute; right; right; left|].
  repeat split; reflexivity.
Qed.

Lemma one_hot_row_witness :
  sum_cells (field_indicators with_missing 0 (1%Z, [SStr "no"])) = 1%Z.
Proof.
  destruct (one_hot_row (fun _ => "") with_missing 0 (mkColumn "VMail Plan" object)
              (1%Z, [SStr "no"]))
    as (? & ? & ? & ? & _ & _ & _ & _ & _ & _ & H & _).
  - repeat constructor.
  - vm_compute. left.
  - vm_compute. right. left.
  - apply H. discriminate.
Defined.

End DummyFacts.

(** ** Cells 11, 12 and 27: the table that reaches the encoder *)
Module CleanFacts.
Import Frame Churn Samples DuplicateFacts DummyFacts.

Ltac known :=
  match goal with
  | |- context [decide ?P] =>
      destruct (decide P) as [_|n];
      [|exfalso; apply n; apply (bool_decide_unpack _); vm_compute; exact I]
  end.

(** on the layout of [churn.txt] no [drop] or [astype] raises, and the
    result has the sixteen columns the encoder is given *)
Lemma clean_spec (churn : DataFrame) :
  columns churn = raw_columns ->
  clean churn
  = Some (mkDataFrame churn_columns
            ((fun r : row => (r.1, select charge_mask r.2))
               <$> rows (drop_duplicates (select_columns phone_mask churn)))).
Proof.
  destruct churn as [cols rws]. cbn [columns]. intros ->.
  unfold clean, drop_labels. known.
  cbn [mbind option_bind]. unfold astype. known.
  cbn [mbind option_bind]. unfold names. rewrite drop_duplicates_columns. known.
  unfold select_columns at 1. rewrite drop_duplicates_columns.
  f_equal. f_equal. f_equal.
  apply drop_duplicates_retyped; discriminate.
Qed.

Lemma clean_rectangular (churn : DataFrame) :
  columns churn = raw_columns -> rectangular churn ->
  exists cleaned,
    clean churn = Some cleaned /\ columns cleaned = churn_columns /\ rectangular cleaned.
Proof.
  intros Hcols Hrect. rewrite (clean_spec churn Hcols).
  eexists. split; [reflexivity|]. split; [reflexivity|].
  unfold rectangular in *. cbn [columns rows]. rewrite Hcols in Hrect.
  rewrite Forall_forall in Hrect. apply Forall_forall.
  intros r (r1 & -> & H1)%list_elem_of_fmap.
  assert (H2 : r1 ∈ rows (select_columns phone_mask churn)).
  { eapply elem_of_sublist; [exact H1|apply drop_duplicates_sublist]. }
  cbn [rows select_columns] in H2.
  apply list_elem_of_fmap in H2 as (r0 & -> & H0).
  cbn [snd]. specialize (Hrect r0 H0).
  rewrite (select_length charge_mask _ (select phone_mask raw_columns)).
  - reflexivity.
  - now apply select_length.
Qed.

(** the duplicate of the first customer goes, and so do the phone number
    and the four charges *)
Example clean_three_raw_rows : clean three_raw_rows = Some two_customers.
Proof. vm_compute. reflexivity. Qed.

End CleanFacts.

(** ** Cell 32: the target becomes the first column *)
Module EncodeFacts.
Import Frame Churn Samples DuplicateFacts DummyFacts.

Lemma select_app {A} (m1 m2 : list bool) (l1 l2 : list A) :
  length m1 = length l1 -> select (m1 ++ m2) (l1 ++ l2) = select m1 l1 ++ select m2 l2.
Proof.
  revert l1. induction m1 as [|b m1 IH]; intros [|x l1] H; try discriminate; [reflexivity|].
  injection H as H. cbn. destruct b; cbn; now rewrite IH.
Qed.

Lemma select_fmap_false {A B} (p : B -> bool) (cols : list B) (l : list A) :
  Forall (fun c => p c = false) cols -> select (p <$> cols) l = [].
Proof.
  intros H. revert l. induction H as [|c cols Hc _ IH]; intros [|x l]; cbn; try reflexivity.
  rewrite Hc. apply IH.
Qed.

Lemma select_fmap_true {A B} (p : B -> bool) (cols : list B) (l : list A) :
  Forall (fun c => p c = true) cols -> length cols = length l -> select (p <$> cols) l = l.
Proof.
  intros H. revert l. induction H as [|c cols Hc _ IH]; intros [|x l] Hl; try discriminate;
    [reflexivity|].
  injection Hl as Hl. cbn. rewrite Hc. f_equal. now apply IH.
Qed.

Lemma target_first_framed (md : DataFrame) (rest : list column) (rws : list row)
    (g : row -> list scalar) (a b : row -> scalar) :
  columns md = rest ++ [false_column; true_column] ->
  rows md = (fun r : row => (r.1, g r ++ [a r; b r])) <$> rws ->
  Forall (fun r => length (g r) = length rest) rws ->
  Forall (fun c => col_name c ≠ "Churn?_True." /\ col_name c ≠ "Churn?_False.") rest ->
  (target ← getitem "Churn?_True." md;
   others ← drop_labels ["Churn?_False."; "Churn?_True."] md;
   Some (concat_columns target others))
  = Some (mkDataFrame (true_column :: rest)
                      ((fun r : row => (r.1, b r :: g r)) <$> rws)).
Proof.
  intros Hc Hr Hlen Hnames.
  assert (Hnm : names md = (col_name <$> rest) ++ ["Churn?_False."; "Churn?_True."]).
  { unfold names. rewrite Hc, fmap_app. reflexivity. }
  unfold getitem, drop_labels.
  assert (Hin : "Churn?_True." ∈ names md).
  { rewrite Hnm, elem_of_app. right; right; left. }
  assert (Hsub : ["Churn?_False."; "Churn?_True."] ⊆ names md).
  { rewrite Hnm. intros x [->|[->|H%elem_of_nil]%elem_of_cons]%elem_of_cons;
      [| |contradiction]; rewrite elem_of_app; right; [left|right; left]. }
  rewrite (decide_True _ _ Hin), (decide_True _ _ Hsub).
  cbn [mbind option_bind]. f_equal. unfold concat_columns, select_columns.
  cbn [columns rows]. rewrite Hc, Hr, !fmap_app.
  set (p1 := fun c => bool_decide (col_name c = "Churn?_True.")).
  set (p2 := fun c => bool_decide (col_name c ∉ ["Churn?_False."; "Churn?_True."])).
  assert (H1 : Forall (fun c => p1 c = false) rest).
  { eapply Forall_impl; [exact Hnames|]. intros c [H _]. now apply bool_decide_eq_false. }
  assert (H2 : Forall (fun c => p2 c = true) rest).
  { eapply Forall_impl; [exact Hnames|]. intros c [Ht Hf]. apply bool_decide_eq_true.
    rewrite !not_elem_of_cons. repeat split; auto. apply not_elem_of_nil. }
  assert (E1 : forall A (x y : A),
             select (p1 <$> [false_column; true_column]) [x; y] = [y]) by reflexivity.
  assert (E2 : forall A (x y : A),
             select (p2 <$> [false_column; true_column]) [x; y] = []) by reflexivity.
  f_equal.
  - rewrite !select_app by now rewrite length_fmap.
    rewrite (select_fmap_false p1), (select_fmap_true p2), E1, E2, app_nil_r by auto.
    reflexivity.
  - rewrite <- !list_fmap_compose, zip_with_fmap_l, zip_with_fmap_r, zip_with_diag.
    apply list_fmap_ext. intros i r Hi. unfold compose. cbn [fst snd]. f_equal.
    assert (Hg : length (g r) = length rest).
    { rewrite Forall_forall in Hlen. apply Hlen. eapply list_elem_of_lookup_2; eauto. }
    rewrite !select_app by now rewrite length_fmap.
    rewrite (select_fmap_false p1) by exact H1.
    rewrite (select_fmap_true p2) by (try exact H2; now symmetry).
    rewrite E1, E2, app_nil_r. reflexivity.
Qed.

Section Encoded.
Variable repr_float : Qc -> string.
Variable churn : DataFrame.
Hypothesis Hcols : columns churn = churn_columns.

Lemma encoded_churn :
  encoded churn =
    [ (0, mkColumn "State" object); (2, mkColumn "Area Code" object);
      (3, mkColumn "Int’l Plan" object); (4, mkColumn "VMail Plan" object);
      (15, mkColumn "Churn?" object) ]%nat.
Proof. unfold encoded. rewrite Hcols. reflexivity. Qed.

Lemma get_dummies_churn :
  get_dummies repr_float churn =
    mkDataFrame ((other_columns repr_float churn) ++ block repr_float churn 15 "Churn?")
                ((fun r : row => (r.1, other_cells churn r ++ field_indicators churn 15 r))
                   <$> rows churn).
Proof.
  unfold get_dummies. cbv zeta. rewrite encoded_churn, Hcols.
  f_equal.
  - unfold other_columns. rewrite <- !app_assoc. 
    rewrite <- (app_nil_r (block repr_float churn 15 _)). reflexivity.
  - apply list_fmap_ext. intros _ r _. f_equal.
    unfold other_cells. rewrite <- !app_assoc.
    rewrite <- (app_nil_r (field_indicators churn 15 _)). reflexivity.
Qed.

Lemma target_levels :
  binary_target churn ->
  field_levels churn 15 = [SStr "False."; SStr "True."].
Proof.
  unfold binary_target, target_position.
  intros (Hall & (rt & Hrt & Ht) & (rf & Hrf & Hf)).
  unfold field_levels, levels.
  set (u := unique _).
  assert (Hu : u = [SStr "False."; SStr "True."] \/ u = [SStr "True."; SStr "False."]).
  { apply two_elements; [apply unique_NoDup| |discriminate].
    intros v. unfold u. rewrite elem_of_unique, list_elem_of_filter.
    unfold column_values. rewrite list_elem_of_fmap. split.
    - intros (_ & r & -> & Hr). destruct (Hall r Hr); auto.
    - intros [-> | ->]; (split; [discriminate|]); eauto. }
  destruct Hu as [-> | ->]; reflexivity.
Qed.

Lemma block_names (j : nat) (name : string) :
  (forall s, name +:+ "_" +:+ s ≠ "Churn?_True." /\ name +:+ "_" +:+ s ≠ "Churn?_False.") ->
  Forall (fun c => col_name c ≠ "Churn?_True." /\ col_name c ≠ "Churn?_False.")
         (block repr_float churn j name).
Proof.
  intros H. unfold block, dummy_columns. apply Forall_fmap, Forall_true. intros l. apply H.
Qed.

Lemma other_columns_names :
  Forall (fun c => col_name c ≠ "Churn?_True." /\ col_name c ≠ "Churn?_False.")
         (other_columns repr_float churn).
Proof.
  unfold other_columns. rewrite !Forall_app. repeat split.
  - unfold numeric_columns. cbn. repeat constructor; discriminate.
  - apply block_names. intros s. split; discriminate.
  - apply block_names. intros s. split; discriminate.
  - apply block_names. intros s. split; discriminate.
  - apply block_names. intros s. split; discriminate.
Qed.

Lemma other_cells_length (r : row) :
  length r.2 = length (columns churn) ->
  length (other_cells churn r) = length (other_columns repr_float churn).
Proof.
  intros Hr.
  unfold other_cells, other_columns, numeric_columns, block, field_indicators, dummy_columns.
  rewrite !length_app, !dummy_row_length, !length_fmap. f_equal.
  apply select_length. now rewrite <- Hcols.
Qed.

Hypothesis Hrect : rectangular churn.
Hypothesis Hbin : binary_target churn.

Lemma target_indicators (r : row) :
  r ∈ rows churn ->
  field_indicators churn 15 r = [SInt (1 - churned r); SInt (churned r)].
Proof.
  intros Hr. unfold field_indicators. rewrite (target_levels Hbin).
  destruct Hbin as (Hall & _). unfold churned. unfold target_position in *.
  destruct (Hall r Hr) as [-> | ->]; reflexivity.
Qed.

(** cell 32 in closed form *)
Lemma encode_churn :
  encode repr_float churn =
    Some (mkDataFrame (true_column :: (other_columns repr_float churn))
                      ((fun r : row => (r.1, SInt (churned r) :: other_cells churn r))
                         <$> rows churn)).
Proof.
  unfold encode. cbv zeta.
  apply (target_first_framed (get_dummies repr_float churn) (other_columns repr_float churn) (rows churn)
           (other_cells churn) (fun r => SInt (1 - churned r)) (fun r => SInt (churned r))).
  - rewrite get_dummies_churn. cbn [columns]. unfold block.
    rewrite (target_levels Hbin). reflexivity.
  - rewrite get_dummies_churn. cbn [rows].
    apply list_fmap_ext. intros i r Hi. f_equal. f_equal.
    apply target_indicators. eapply list_elem_of_lookup_2; eauto.
  - unfold rectangular in Hrect. eapply Forall_impl; [exact Hrect|].
    apply other_cells_length.
  - apply other_columns_names.
Qed.

End Encoded.

(** C10.  For a table with the notebook's column layout and a binary
    target, the encoding ends with the two indicator columns
    ['Churn?_False.'] and ['Churn?_True.']; cell 32 drops the former and
    moves the latter to position 0, where it is 1 exactly for the
    customers who churned, and keeps every other encoded column with its
    cells. *)
Theorem target_is_first_column (repr_float : Qc -> string) (churn : DataFrame) :
  columns churn = churn_columns -> rectangular churn -> binary_target churn ->
  exists model_data others,
    encode repr_float churn = Some model_data /\
    columns (get_dummies repr_float churn) = others ++ [false_column; true_column] /\
    columns model_data = true_column :: others /\
    Forall (fun c => col_name c ≠ "Churn?_True." /\ col_name c ≠ "Churn?_False.") others /\
    len model_data = len churn /\
    forall i r, rows churn !! i = Some r ->
      exists cells, length cells = length others /\
        rows (get_dummies repr_float churn) !! i
          = Some (r.1, cells ++ [SInt (1 - churned r); SInt (churned r)]) /\
        rows model_data !! i = Some (r.1, SInt (churned r) :: cells).
Proof.
  intros Hcols Hrect Hbin.
  eexists _, (other_columns repr_float churn).
  split; [apply encode_churn; assumption|].
  split.
  { rewrite get_dummies_churn by assumption. cbn [columns]. unfold block.
    now rewrite (target_levels churn Hbin). }
  split; [reflexivity|].
  split; [apply other_columns_names|].
  split; [unfold len; cbn [rows]; apply length_fmap|].
  intros i r Hi. exists (other_cells churn r).
  assert (Hr : r ∈ rows churn) by (eapply list_elem_of_lookup_2; eauto).
  split.
  { apply other_cells_length; [assumption|].
    unfold rectangular in Hrect. rewrite Forall_forall in Hrect. now apply Hrect. }
  split.
  - rewrite get_dummies_churn by assumption. cbn [rows].
    rewrite list_lookup_fmap, Hi. cbn. now rewrite target_indicators.
  - cbn [rows]. now rewrite list_lookup_fmap, Hi.
Qed.

Lemma two_customers_binary : binary_target two_customers.
Proof.
  split; [|split].
  - intros r [->|Hr%list_elem_of_singleton]%elem_of_cons; [right|subst r; left]; reflexivity.
  - eexists. split; [right; left|reflexivity].
  - eexists. split; [left|reflexivity].
Qed.

Lemma two_customers_rectangular : rectangular two_customers.
Proof. repeat constructor. Qed.

Lemma target_is_first_column_witness :
  exists model_data,
    encode (fun _ => "") two_customers = Some model_data /\
    head (names model_data) = Some "Churn?_True.".
Proof.
  destruct (target_is_first_column (fun _ => "") two_customers eq_refl
              two_customers_rectangular two_customers_binary)
    as (model_data & others & He & _ & Hc & _).
  exists model_data. split; [exact He|]. unfold names. rewrite Hc. reflexivity.
Defined.

End EncodeFacts.

(** ** Cell 34: the three partitions *)
Module SplitFacts.
Import Frame Float64 Split Samples Float64Facts.

Lemma lookup_positions {A} (l : list A) :
  Forall2 (fun i r => l !! i = Some r) (seq 0 (length l)) l.
Proof.
  apply Forall2_same_length_lookup. split; [apply length_seq|].
  intros i j r Hj Hr. apply lookup_seq in Hj as [-> _]. exact Hr.
Qed.

Lemma slice_bound_id (n i : nat) : i <= n -> slice_bound n (Z.of_nat i) = i.
Proof.
  intros H. unfold slice_bound.
  destruct (Z.ltb_spec (Z.of_nat i) 0); lia.
Qed.

Lemma py_slice_nat {A} (a b : nat) (l : list A) :
  a <= length l -> b <= length l ->
  py_slice (Z.of_nat a) (Z.of_nat b) l = take (b - a) (drop a l).
Proof. intros Ha Hb. unfold py_slice. now rewrite !slice_bound_id. Qed.

Section Sample.
Variable permutation : nat -> list nat.
Hypothesis permutation_spec : forall n, permutation n ≡ₚ seq 0 n.

Lemma sample_spec (df : DataFrame) :
  exists rs, sample permutation df = Some (mkDataFrame (columns df) rs) /\
    Forall2 (fun i r => rows df !! i = Some r) (permutation (len df)) rs /\
    rs ≡ₚ rows df.
Proof.
  assert (Hp : seq 0 (len df) ≡ₚ permutation (len df)) by (symmetry; apply permutation_spec).
  destruct (Permutation_Forall2 Hp (lookup_positions (rows df))) as (rs & Hrs & Hf).
  exists rs. split; [|split; [exact Hf|now symmetry]].
  unfold sample, take_rows.
  rewrite take_ge by (rewrite <- Hp, length_seq; reflexivity).
  apply mapM_Some_2 in Hf. rewrite Hf. reflexivity.
Qed.

Lemma np_split_three (df : DataFrame) (i1 i2 : nat) :
  i1 <= i2 -> i2 <= len df ->
  np_split df [Z.of_nat i1; Z.of_nat i2] =
    [ mkDataFrame (columns df) (take i1 (rows df));
      mkDataFrame (columns df) (take (i2 - i1) (drop i1 (rows df)));
      mkDataFrame (columns df) (drop i2 (rows df)) ].
Proof.
  intros H1 H2. unfold np_split, len in *. cbn [app sections fmap list_fmap].
  change 0%Z with (Z.of_nat 0).
  rewrite !py_slice_nat by lia. rewrite drop_0, Nat.sub_0_r.
  rewrite (take_ge (drop i2 _)) by (rewrite length_drop; lia).
  reflexivity.
Qed.

(** what the splitter returns: the shuffled rows cut at the two points *)
Lemma Splitter_spec (df : DataFrame) :
  (Z.of_nat (len df) < 2 ^ 63)%Z ->
  exists (i1 i2 : nat) (rs : list row),
    int_mul f0_7 (Z.of_nat (len df)) = Some (Z.of_nat i1) /\
    int_mul f0_9 (Z.of_nat (len df)) = Some (Z.of_nat i2) /\
    i1 <= i2 /\ i2 <= len df /\
    Forall2 (fun i r => rows df !! i = Some r) (permutation (len df)) rs /\
    rs ≡ₚ rows df /\
    Splitter permutation df =
      Some (mkDataFrame (columns df) (take i1 rs),
            mkDataFrame (columns df) (take (i2 - i1) (drop i1 rs)),
            mkDataFrame (columns df) (drop i2 rs)).
Proof.
  intros Hn.
  destruct (cut_points (Z.of_nat (len df))) as (z1 & z2 & Hz1 & Hz2 & H0 & H12 & H2n); [lia|].
  destruct (sample_spec df) as (rs & Hs & Hf & Hp).
  destruct (Z_of_nat_complete z1 H0) as [i1 ->].
  destruct (Z_of_nat_complete z2 ltac:(lia)) as [i2 ->].
  exists i1, i2, rs.
  assert (Hlen : length rs = len df) by (unfold len; now rewrite Hp).
  repeat split; try assumption; try lia.
  unfold Splitter. rewrite Hs, Hz1, Hz2. cbn [mbind option_bind].
  rewrite np_split_three by (unfold len; cbn [rows]; lia).
  reflexivity.
Qed.

(** C1.  The splitter returns three tables of [int(0.7 * n)],
    [int(0.9 * n) - int(0.7 * n)] and [n - int(0.9 * n)] rows.  They hold
    the rows of the input at three runs of positions that together make up
    the shuffle, so no position is used twice: the partitions are pairwise
    disjoint, cover the input, and their sizes add up to [n]. *)
Theorem split_partitions (df : DataFrame) :
  (Z.of_nat (len df) < 2 ^ 63)%Z ->
  exists (train validation test : DataFrame) (i1 i2 : nat) (p1 p2 p3 : list nat),
    Splitter permutation df = Some (train, validation, test) /\
    int_mul f0_7 (Z.of_nat (len df)) = Some (Z.of_nat i1) /\
    int_mul f0_9 (Z.of_nat (len df)) = Some (Z.of_nat i2) /\
    i1 <= i2 /\ i2 <= len df /\
    len train = i1 /\ len validation = i2 - i1 /\ len test = len df - i2 /\
    len train + len validation + len test = len df /\
    p1 ++ p2 ++ p3 = permutation (len df) /\
    NoDup (p1 ++ p2 ++ p3) /\
    Forall2 (fun i r => rows df !! i = Some r) p1 (rows train) /\
    Forall2 (fun i r => rows df !! i = Some r) p2 (rows validation) /\
    Forall2 (fun i r => rows df !! i = Some r) p3 (rows test) /\
    rows train ++ rows validation ++ rows test ≡ₚ rows df /\
    (NoDup (index df) -> NoDup (index train ++ index validation ++ index test)).
Proof.
  intros Hn.
  destruct (Splitter_spec df Hn) as (i1 & i2 & rs & H1 & H2 & H12 & H2n & Hf & Hp & Hs).
  assert (Hlen : length rs = len df) by (unfold len; now rewrite Hp).
  assert (Hcut : forall A (l : list A),
            take i1 l ++ take (i2 - i1) (drop i1 l) ++ drop i2 l = l).
  { intros A l. replace (drop i2 l) with (drop (i2 - i1) (drop i1 l))
      by (rewrite drop_drop; f_equal; lia).
    now rewrite !take_drop. }
  eexists _, _, _, i1, i2, (take i1 (permutation (len df))),
    (take (i2 - i1) (drop i1 (permutation (len df)))), (drop i2 (permutation (len df))).
  split; [exact Hs|]. unfold len in *. cbn [rows].
  rewrite !length_take, !length_drop, Hlen.
  repeat split; try assumption; try lia.
  - apply Hcut.
  - rewrite Hcut, permutation_spec. apply NoDup_seq.
  - now apply Forall2_take.
  - now apply Forall2_take, Forall2_drop.
  - now apply Forall2_drop.
  - now rewrite Hcut.
  - intros Hnd. unfold index in *. cbn [rows].
    rewrite <- !fmap_app, Hcut, Hp. exact Hnd.
Qed.

End Sample.

Lemma reversed_shuffle (n : nat) : reversed n ≡ₚ seq 0 n.
Proof. apply reverse_Permutation. Qed.

Lemma split_partitions_witness :
  exists train validation test,
    Splitter reversed ten_rows = Some (train, validation, test) /\
    len train = 7 /\ len validation = 2 /\ len test = 1.
Proof.
  destruct (split_partitions reversed reversed_shuffle ten_rows)
    as (train & validation & test & i1 & i2 & p1 & p2 & p3
        & Hs & H1 & H2 & _ & _ & Ht & Hv & Hte & _).
  - vm_compute. reflexivity.
  - exists train, validation, test.
    change (int_mul f0_7 (Z.of_nat (len ten_rows))) with (Some 7%Z) in H1.
    change (int_mul f0_9 (Z.of_nat (len ten_rows))) with (Some 9%Z) in H2.
    assert (E1 : i1 = 7) by (injection H1; lia).
    assert (E2 : i2 = 9) by (injection H2; lia).
    rewrite E1 in Ht. rewrite E1, E2 in Hv. rewrite E2 in Hte.
    split; [exact Hs|]. split; [exact Ht|]. split; [exact Hv|exact Hte].
Defined.

End SplitFacts.

(** ** Cells 34 and 58: what is written for training and for scoring *)
Module DatasetFacts.
Import Frame Churn Float64 Split Samples EncodeFacts SplitFacts.

Section Written.
Variable repr_float : Qc -> string.
Variable permutation : nat -> list nat.
Hypothesis permutation_spec : forall n, permutation n ≡ₚ seq 0 n.

(** C8.  The training and validation files hold the rows of their part of
    the split in full, one record per row: every column of the model
    dataset, the label first, followed by the other encoded cells of the
    same customer.  The batch input has one record per row of the test
    part, in the same order, which is that row without its first cell,
    under the columns that are not the label.  The three parts are the
    ones the splitter returns and hold every encoded row once. *)
Theorem label_written_for_training_only (churn : DataFrame) :
  columns churn = churn_columns -> rectangular churn -> binary_target churn ->
  (Z.of_nat (len churn) < 2 ^ 63)%Z ->
  exists model_data train_data validation_data test d,
    encode repr_float churn = Some model_data /\
    Splitter permutation model_data = Some (train_data, validation_data, test) /\
    write_datasets permutation model_data = Some d /\
    columns model_data = true_column :: other_columns repr_float churn /\
    ("Churn?_True." ∉ col_name <$> other_columns repr_float churn) /\
    rows model_data
      = ((fun r : row => (r.1, SInt (churned r) :: other_cells churn r)) <$> rows churn) /\
    rows train_data ++ rows validation_data ++ rows test ≡ₚ rows model_data /\
    (len train_data + len validation_data + len test)%nat = len churn /\
    columns train_data = true_column :: other_columns repr_float churn /\
    columns validation_data = true_column :: other_columns repr_float churn /\
    train_csv d = values train_data /\
    validation_csv d = values validation_data /\
    Forall (fun record =>
              length record = S (length (other_columns repr_float churn)) /\
              exists r, r ∈ rows churn /\
                record = SInt (churned r) :: other_cells churn r)
           (train_csv d ++ validation_csv d) /\
    test_data d = test /\
    columns (test_data d) = true_column :: other_columns repr_float churn /\
    columns (test_data_batch d) = other_columns repr_float churn /\
    ("Churn?_True." ∉ names (test_data_batch d)) /\
    index (test_data_batch d) = index test /\
    batch_csv d = values (test_data_batch d) /\
    length (batch_csv d) = len test /\
    (forall i row, rows test !! i = Some row ->
       exists r, r ∈ rows churn /\
         row = (r.1, SInt (churned r) :: other_cells churn r) /\
         rows (test_data_batch d) !! i = Some (r.1, other_cells churn r) /\
         batch_csv d !! i = Some (other_cells churn r)) /\
    (forall i record, batch_csv d !! i = Some record ->
       exists row r, rows test !! i = Some row /\ r ∈ rows churn /\
         row.2 = SInt (churned r) :: record /\
         length record = length (other_columns repr_float churn)).
Proof.
  intros Hcols Hrect Hbin Hn.
  pose proof (encode_churn repr_float churn Hcols Hrect Hbin) as He.
  set (others := other_columns repr_float churn) in *.
  set (enc := fun r : row => (r.1, SInt (churned r) :: other_cells churn r)) in *.
  set (model_data := mkDataFrame (true_column :: others) (enc <$> rows churn)) in *.
  assert (Hcells : forall r, r ∈ rows churn -> length (other_cells churn r) = length others).
  { intros r Hr. apply other_cells_length; [assumption|].
    unfold rectangular in Hrect. rewrite Forall_forall in Hrect. now apply Hrect. }
  assert (Hlen : len model_data = len churn) by (unfold len; cbn [rows]; apply length_fmap).
  destruct (Splitter_spec permutation permutation_spec model_data)
    as (i1 & i2 & rs & _ & _ & H12 & H2n & _ & Hp & Hs); [now rewrite Hlen|].
  assert (Hrs : forall row, row ∈ rs -> exists r, r ∈ rows churn /\ row = enc r).
  { intros row Hrow. rewrite Hp in Hrow. cbn [rows model_data] in Hrow.
    apply list_elem_of_fmap in Hrow as (r & -> & Hr). now exists r. }
  assert (Hlrs : length rs = len churn) by (now rewrite Hp, <- Hlen).
  assert (Hnames : "Churn?_True." ∉ col_name <$> others).
  { intros (c & Hc & Hin)%list_elem_of_fmap.
    pose proof (other_columns_names repr_float churn) as Hf. rewrite Forall_forall in Hf.
    destruct (Hf c Hin) as [Ht _]. now apply Ht. }
  assert (Htest : forall i row, drop i2 rs !! i = Some row ->
            exists r, r ∈ rows churn /\ row = enc r).
  { intros i row Hi. apply Hrs.
    eapply elem_of_sublist; [eapply list_elem_of_lookup_2; exact Hi|apply sublist_drop]. }
  eexists model_data, _, _, _, _. split; [exact He|]. split; [exact Hs|].
  split; [unfold write_datasets; rewrite Hs; reflexivity|].
  cbn [train_csv validation_csv test_data test_data_batch batch_csv columns rows].
  unfold to_csv, values, index, iloc_columns_from, len. cbn [rows columns drop].
  split; [reflexivity|]. split; [exact Hnames|]. split; [reflexivity|].
  split.
  { rewrite <- Hp. replace (drop i2 rs) with (drop (i2 - i1) (drop i1 rs))
      by (rewrite drop_drop; f_equal; lia).
    now rewrite !take_drop. }
  split; [unfold len in Hlrs, H2n, Hlen; rewrite !length_take, !length_drop; lia|].
  split; [reflexivity|]. split; [reflexivity|]. split; [reflexivity|].
  split; [reflexivity|].
  split.
  { rewrite <- fmap_app. apply Forall_fmap, Forall_forall. intros row Hin.
    assert (Hrow : row ∈ rs).
    { apply elem_of_app in Hin as [Hin|Hin].
      - eapply elem_of_sublist; [exact Hin|apply sublist_take].
      - eapply elem_of_sublist; [exact Hin|].
        etransitivity; [apply sublist_take|apply sublist_drop]. }
    destruct (Hrs row Hrow) as (r & Hr & ->). unfold compose. cbn [snd enc].
    split; [cbn [length]; now rewrite Hcells|]. now exists r. }
  split; [reflexivity|]. split; [reflexivity|]. split; [reflexivity|].
  split; [exact Hnames|].
  split; [now rewrite <- list_fmap_compose|].
  split; [reflexivity|].
  split; [now rewrite !length_fmap|].
  split.
  - intros i row Hi. destruct (Htest i row Hi) as (r & Hr & ->).
    exists r. split; [exact Hr|]. split; [reflexivity|].
    rewrite <- list_fmap_compose, !list_lookup_fmap, Hi. split; reflexivity.
  - intros i record Hi.
    rewrite <- list_fmap_compose, list_lookup_fmap in Hi.
    destruct (drop i2 rs !! i) as [row|] eqn:Hrow; [|discriminate].
    destruct (Htest i row Hrow) as (r & Hr & ->).
    exists (enc r), r. split; [reflexivity|]. split; [exact Hr|].
    cbn in Hi. injection Hi as <-. cbn [snd enc].
    split; [reflexivity|now apply Hcells].
Qed.

End Written.

Lemma label_written_for_training_only_witness :
  exists model_data d,
    encode (fun _ => "") two_customers = Some model_data /\
    write_datasets reversed model_data = Some d /\
    train_csv d = values (mkDataFrame (columns model_data) (take 1 (reverse (rows model_data)))) /\
    ("Churn?_True." ∉ names (test_data_batch d)) /\
    length (batch_csv d) = 1.
Proof.
  destruct (label_written_for_training_only (fun _ => "") reversed reversed_shuffle
              two_customers eq_refl two_customers_rectangular two_customers_binary)
    as (model_data & tr & va & te & d & He & Hs & Hw & _ & _ & _ & _ & _ & _ & _ & Ht
        & _ & _ & Htd & _ & _ & Hn & _ & _ & Hl & _).
  - vm_compute. reflexivity.
  - exists model_data, d. split; [exact He|]. split; [exact Hw|].
    assert (Hm : Some model_data = encode (fun _ => "") two_customers) by now rewrite He.
    vm_compute in Hm. injection Hm as ->.
    vm_compute in Hs. injection Hs as <- <- <-.
    split; [rewrite Ht; reflexivity|]. split; [exact Hn|].
    rewrite Hl. reflexivity.
Defined.

End DatasetFacts.

(** ** Cell 66: the metrics *)
Module MetricsFacts.
Import Metrics DuplicateFacts.

Lemma count_pairs_cons (a b t p : Z) (y_true y_pred : list Z) :
  count_pairs a b (t :: y_true) (p :: y_pred)
  = ((if decide ((t, p) = (a, b)) then 1 else 0) + count_pairs a b y_true y_pred)%nat.
Proof.
  unfold count_pairs. cbn [zip zip_with]. rewrite filter_cons.
  destruct (decide ((t, p) = (a, b))); reflexivity.
Qed.

Lemma count_label_cons (a x : Z) (y : list Z) :
  count_label a (x :: y) = ((if decide (x = a) then 1 else 0) + count_label a y)%nat.
Proof.
  unfold count_label. rewrite filter_cons. destruct (decide (x = a)); reflexivity.
Qed.

Lemma hits_cons (t p : Z) (y_true y_pred : list Z) :
  hits (t :: y_true) (p :: y_pred)
  = ((if decide (t = p) then 1 else 0) + hits y_true y_pred)%nat.
Proof.
  unfold hits. cbn [zip zip_with]. rewrite filter_cons. cbn [fst snd].
  destruct (decide (t = p)); reflexivity.
Qed.

(** the marginal counts are sums of confusion-matrix entries *)
Lemma counts_split (y_true y_pred : list Z) :
  length y_true = length y_pred -> binary y_true -> binary y_pred ->
  count_label 1 y_pred = (count_pairs 1 1 y_true y_pred + count_pairs 0 1 y_true y_pred)%nat /\
  count_label 1 y_true = (count_pairs 1 1 y_true y_pred + count_pairs 1 0 y_true y_pred)%nat /\
  hits y_true y_pred = (count_pairs 1 1 y_true y_pred + count_pairs 0 0 y_true y_pred)%nat /\
  length y_true = (count_pairs 1 1 y_true y_pred + count_pairs 0 1 y_true y_pred
                   + count_pairs 0 0 y_true y_pred + count_pairs 1 0 y_true y_pred)%nat.
Proof.
  intros Hlen Ht. revert y_pred Hlen.
  induction Ht as [|t y_true Ht0 Ht IH]; intros [|p y_pred] Hlen Hp; try discriminate.
  - repeat split; reflexivity.
  - injection Hlen as Hlen. apply Forall_cons in Hp as [Hp0 Hp].
    destruct (IH y_pred Hlen Hp) as (I1 & I2 & I3 & I4).
    rewrite !count_pairs_cons, !count_label_cons, hits_cons. cbn [length].
    destruct Ht0 as [-> | ->], Hp0 as [-> | ->];
      repeat (destruct (decide _) as [?|?]; try congruence); lia.
Qed.

Lemma unique_labels_binary (y_true y_pred : list Z) :
  binary y_true -> binary y_pred ->
  0%Z ∈ y_true ++ y_pred -> 1%Z ∈ y_true ++ y_pred ->
  unique_labels y_true y_pred = [0%Z; 1%Z].
Proof.
  intros Ht Hp H0 H1. unfold unique_labels.
  destruct (two_elements (remove_dups (y_true ++ y_pred)) 0%Z 1%Z) as [-> | ->];
    [apply NoDup_remove_dups| |discriminate|reflexivity|reflexivity].
  intros x. rewrite elem_of_remove_dups. split.
  - unfold binary in *. rewrite Forall_forall in Ht, Hp.
    intros [H|H]%elem_of_app; auto.
  - intros [-> | ->]; assumption.
Qed.

Section Binary.
Variables y_true y_pred : list Z.
Hypothesis same_length : length y_true = length y_pred.
Hypothesis true_binary : binary y_true.
Hypothesis pred_binary : binary y_pred.
Hypothesis zero_occurs : 0%Z ∈ y_true ++ y_pred.
Hypothesis one_occurs : 1%Z ∈ y_true ++ y_pred.

Local Abbreviation TP := (count_pairs 1 1 y_true y_pred).
Local Abbreviation FP := (count_pairs 0 1 y_true y_pred).
Local Abbreviation TN := (count_pairs 0 0 y_true y_pred).
Local Abbreviation FN := (count_pairs 1 0 y_true y_pred).




End Binary.


Example get_score_mixed :
  get_score [1; 0; 1; 1; 0; 0]%Z [1; 0; 0; 1; 1; 0]%Z
  = Some (mkScores (2 # 3) (2 # 3) (2 * (2 # 3) * (2 # 3) / ((2 # 3) + (2 # 3)))
                   (Finite (4 # 6)) 2 1 1 2).
Proof. reflexivity. Qed.

(** C7.  [get_score] on one observation, a churner predicted as such.
    The four scores are computed and are all 1, and the one true positive
    is counted; but with a single label present the confusion matrix is
    1 by 1, [ravel] gives one number where the last line unpacks four, and
    [get_score] raises instead of returning the metrics. *)
Lemma get_score_single_class :
  get_score [1%Z] [1%Z] = None /\
  (exists q, f1_score [1%Z] [1%Z] = Some q /\ (q == 1)%Q) /\
  precision_score [1%Z] [1%Z] = Some 1%Q /\
  recall_score [1%Z] [1%Z] = Some 1%Q /\
  (exists q, accuracy_score [1%Z] [1%Z] = Some (Finite q) /\ (q == 1)%Q) /\
  count_pairs 1 1 [1%Z] [1%Z] = 1%nat /\
  confusion_matrix [1%Z] [1%Z] = Some [[1%nat]] /\
  (ravel <$> confusion_matrix [1%Z] [1%Z]) = Some [1%nat].
Proof.
  split; [reflexivity|].
  split; [eexists; split; reflexivity|].
  split; [reflexivity|]. split; [reflexivity|].
  split; [eexists; split; reflexivity|].
  repeat split; reflexivity.
Qed.


End MetricsFacts.

(** ** The evaluation cell *)
Module NotebookFacts.
Import Notebook.

Lemma stmt_stores_For (target : string) (iter : list event) (body : list stmt) :
  stmt_stores (For target iter body) = target :: bound_names body.
Proof. reflexivity. Qed.

Lemma stmt_stores_If (cond : list event) (body : list stmt) :
  stmt_stores (If cond body) = bound_names body.
Proof. reflexivity. Qed.

Lemma bound_names_cons (s : stmt) (p : list stmt) :
  bound_names (s :: p) = stmt_stores s ++ bound_names p.
Proof. reflexivity. Qed.

(** a program binds no name outside its stores *)
Lemma exec_binds (E E' : env) (p : list stmt) (o : outcome) :
  exec E p E' o -> forall x, x ∈ E' -> x ∈ E \/ x ∈ bound_names p.
Proof.
  induction 1 as
    [ E | E code stores rest e He | E code stores stored rest He Hpre
    | E code stores rest E' o He Hx IH
    | E cond body rest e He | E cond body rest E' o He Hx IH
    | E cond body rest E1 e He Hb IHb
    | E cond body rest E1 E' o He Hb IHb Hr IHr
    | E target iter body rest e He | E target iter body rest E' o He Hx IH
    | E target iter body rest E1 e He Hb IHb
    | E target iter body rest E1 E' o He Hb IHb Hr IHr ];
    intros x Hin; rewrite ?bound_names_cons, ?stmt_stores_For, ?stmt_stores_If;
    cbn [stmt_stores]; rewrite ?elem_of_app, ?elem_of_cons; auto.
  - apply elem_of_union in Hin as [H|H%elem_of_list_to_set]; auto.
    right; left. destruct Hpre as [k ->]. apply elem_of_app. now left.
  - destruct (IH x Hin) as [[H|H%elem_of_list_to_set]%elem_of_union|H]; auto.
  - destruct (IH x Hin); auto.
  - destruct (IHb x Hin); auto.
  - destruct (IHr x Hin) as [H|H]; auto. destruct (IHb x H); auto.
  - destruct (IH x Hin); auto.
  - destruct (IHb x Hin) as [[H|H%elem_of_singleton]%elem_of_union|H]; auto.
  - destruct (IHr x Hin) as [H|H].
    + destruct (IHb x H) as [[H'|H'%elem_of_singleton]%elem_of_union|H']; auto.
    + rewrite bound_names_cons, stmt_stores_For, elem_of_app, elem_of_cons in H. tauto.
Qed.

Lemma test_y_not_bound_elsewhere : "test_y" ∉ other_names.
Proof. apply (bool_decide_eq_false_1 ("test_y" ∈ other_names)). vm_compute. reflexivity. Qed.

Lemma metric_names_not_bound_elsewhere : Forall (fun x => x ∉ other_names) metric_names.
Proof.
  apply Forall_forall. intros x Hx. apply (bool_decide_eq_false_1 (x ∈ other_names)).
  unfold metric_names in Hx. rewrite !elem_of_cons in Hx.
  destruct Hx as [->|[->|[->|[->|[->|[->|[->|[->|[->|H%elem_of_nil]]]]]]]]];
    [vm_compute; reflexivity ..|contradiction].
Qed.

(** the first statement of cell 67 raises [NameError] before the call *)
Lemma get_scores_raises (E E' : env) (o : outcome) :
  "test_y" ∉ E -> exec E cell_67 E' o ->
  E' = E /\ exists x, o = Raised (NameError x) /\
    (x = "get_score" \/ x = "test_y") /\ ("get_score" ∈ E -> x = "test_y").
Proof.
  intros Hty Hx. unfold cell_67, get_scores in Hx.
  assert (Hev : forall r, eval E [Load "get_score"; Load "test_y"; Load "pred_y"; Op] r ->
            exists x, r = Some (NameError x) /\ (x = "get_score" \/ x = "test_y")
                      /\ ("get_score" ∈ E -> x = "test_y")).
  { intros r Hr. inversion Hr as [|x k Hout|x k r' Hin Hk|Hr'|Hr']; subst.
    - exists "get_score". split; [reflexivity|]. split; [now left|]. intros; contradiction.
    - inversion Hk as [|x k Hout|x k r'' Hin' Hk'|Hr'|Hr']; subst; [|contradiction].
      exists "test_y". auto. }
  inversion Hx as [|? ? ? ? e He|? ? ? ? ? He|? ? ? ? ? ? He Hrest| | | | | | | |]; subst.
  - destruct (Hev _ He) as (x & [= ->] & Hcase). split; [reflexivity|]. eauto.
  - destruct (Hev _ He) as (x & [=] & _).
  - destruct (Hev _ He) as (x & [=] & _).
Qed.

(** no session binds a name that only cell 67 could bind *)
Lemma session_names (E : env) : session E -> forall x, x ∈ E -> x ∈ other_names.
Proof.
  induction 1 as [|E c E' o Hs IH Hc Hx]; intros x Hin.
  - unfold builtins in Hin. apply elem_of_list_to_set in Hin.
    unfold other_names. apply elem_of_app. now left.
  - unfold notebook in Hc. rewrite elem_of_app, elem_of_cons in Hc.
    assert (Hother : c ∈ cells_above ++ cells_below -> x ∈ other_names).
    { intros Hc'. destruct (exec_binds _ _ _ _ Hx x Hin) as [H|H]; [now apply IH|].
      unfold other_names. apply elem_of_app. right.
      apply list_elem_of_bind. exists c. split; assumption. }
    destruct Hc as [Hc|[->|Hc]].
    + apply Hother, elem_of_app. now left.
    + apply get_scores_raises in Hx as [-> _]; [now apply IH|].
      intros Hty. apply test_y_not_bound_elsewhere. now apply IH.
    + apply Hother, elem_of_app. now right.
Qed.

Lemma run_all_stops (cs : list (list stmt)) (E E' : env) (o : outcome) :
  session E -> (forall c, c ∈ cs -> c ∈ notebook) ->
  run_all E (cs ++ cell_67 :: cells_below) E' o ->
  session E' /\ exists e, o = Raised e.
Proof.
  intros Hs Hcs Hrun.
  assert (H67 : cell_67 ∈ notebook) by (unfold notebook; rewrite elem_of_app; right; left).
  revert E Hs Hrun. induction cs as [|c cs IH]; intros E Hs Hrun; cbn [app] in Hrun.
  - inversion Hrun as [|? ? ? ? e Hx|? ? ? E1 ? ? Hx Hrest]; subst.
    + split; [eapply session_run; eauto|eauto].
    + apply get_scores_raises in Hx as (_ & x & [=] & _).
      intros Hty. apply test_y_not_bound_elsewhere. now apply (session_names E).
  - assert (Hc : c ∈ notebook) by (apply Hcs; left).
    inversion Hrun as [|? ? ? ? e Hx|? ? ? E1 ? ? Hx Hrest]; subst.
    + split; [eapply session_run; eauto|eauto].
    + apply (IH (fun c' Hc' => Hcs c' (list_elem_of_further _ _ _ Hc')) E1);
        [eapply session_run; eauto|assumption].
Qed.

(** C9.  In every kernel session [test_y] is unbound, so running the
    evaluation cell raises [NameError] at its first statement, before
    [get_score] is called, and binds nothing: no session ever holds a
    metric, and no top-to-bottom run of the notebook completes. *)
Theorem evaluation_never_yields_metrics (E : env) :
  session E ->
  ("test_y" ∉ E) /\
  Forall (fun x => x ∉ E) metric_names /\
  (forall E' o, exec E cell_67 E' o ->
     E' = E /\ exists x, o = Raised (NameError x) /\
       (x = "get_score" \/ x = "test_y") /\ ("get_score" ∈ E -> x = "test_y")) /\
  (forall E' o, run_all E notebook E' o ->
     (exists e, o = Raised e) /\ Forall (fun x => x ∉ E') metric_names).
Proof.
  intros Hs.
  assert (Hnames : forall E0, session E0 -> Forall (fun x => x ∉ E0) metric_names).
  { intros E0 Hs0. eapply Forall_impl; [apply metric_names_not_bound_elsewhere|].
    intros x Hx Hin. apply Hx. now apply (session_names E0). }
  assert (Hty : "test_y" ∉ E).
  { intros Hin. apply test_y_not_bound_elsewhere. now apply (session_names E). }
  split; [exact Hty|]. split; [now apply Hnames|]. split.
  - intros E' o. now apply get_scores_raises.
  - intros E' o Hrun.
    destruct (run_all_stops cells_above E E' o Hs) as [Hs' He]; [|exact Hrun|].
    + intros c Hc. unfold notebook. apply elem_of_app. now left.
    + split; [exact He|now apply Hnames].
Qed.

Lemma evaluation_never_yields_metrics_witness :
  ("test_y" ∉ builtins) /\
  forall E' o, exec builtins cell_67 E' o -> E' = builtins /\ o = Raised (NameError "get_score").
Proof.
  destruct (evaluation_never_yields_metrics builtins session_start) as (Hty & _ & Hx & _).
  split; [exact Hty|]. intros E' o Ho.
  destruct (Hx E' o Ho) as (-> & x & -> & [-> | ->] & _); [split; reflexivity|].
  exfalso.
  assert (Hgs : "get_score" ∉ builtins).
  { unfold builtins. rewrite elem_of_list_to_set.
    apply (bool_decide_eq_false_1 (_ ∈ _)). reflexivity. }
  inversion Ho as [|? ? ? ? e He|? ? ? ? ? He|? ? ? ? ? ? He Hrest| | | | | | | |]; subst;
    inversion He as [|x k Hout|x k r' Hin Hk|Hr'|Hr']; subst; contradiction.
Defined.

(** [pred_y] is bound by one statement of the notebook,
    [pred_y = np.round(batch_output)] in cell 65 *)
Lemma pred_y_bound_once (c : list stmt) :
  c ∈ notebook -> "pred_y" ∈ bound_names c -> c = cell_65.
Proof.
  assert (H : Forall (fun c => "pred_y" ∈ bound_names c -> c = cell_65) notebook).
  { unfold notebook, cells_above, cells_below. cbn [app].
    repeat (apply Forall_cons; split;
            [first [intros _; reflexivity
                   |intros Hin; exfalso; revert Hin;
                    match goal with
                    | |- ?P -> False =>
                        apply (bool_decide_eq_false_1 P); vm_compute; reflexivity
                    end]|]).
    constructor. }
  rewrite Forall_forall in H. apply H.
Qed.

End NotebookFacts.

(** ** Thresholding at 0.5 *)
Module ThresholdFacts.
Import Threshold Notebook NotebookFacts.
Local Open Scope Q_scope.

Lemma floor_bounds (x : Q) : inject_Z (Qfloor x) <= x /\ x < inject_Z (Qfloor x + 1).
Proof. split; [apply Qfloor_le|apply Qlt_floor]. Qed.

Lemma np_round_cases (x : Q) :
  let f := Qfloor x in
  (x - inject_Z f < 1 # 2 /\ np_round x = f) \/
  (1 # 2 < x - inject_Z f /\ np_round x = (f + 1)%Z) \/
  (x - inject_Z f == 1 # 2 /\ np_round x = if Z.even f then f else (f + 1)%Z).
Proof.
  intros f. unfold np_round. fold f.
  destruct (x - inject_Z f ?= 1 # 2) eqn:Hc.
  - right; right. split; [now apply Qeq_alt|reflexivity].
  - left. split; [now apply Qlt_alt|reflexivity].
  - right; left. split; [now apply Qgt_alt|reflexivity].
Qed.

Lemma np_round_floor (x : Q) : (Qfloor x <= np_round x <= Qfloor x + 1)%Z.
Proof.
  destruct (np_round_cases x) as [[_ ->]|[[_ ->]|[_ ->]]]; try lia.
  destruct (Z.even _); lia.
Qed.

Lemma floor_unique (x : Q) (z : Z) :
  inject_Z z <= x -> x < inject_Z (z + 1) -> Qfloor x = z.
Proof.
  intros Hlo Hhi. destruct (floor_bounds x) as [Flo Fhi].
  assert (inject_Z z < inject_Z (Qfloor x + 1)) as H1 by (eapply Qle_lt_trans; eauto).
  assert (inject_Z (Qfloor x) < inject_Z (z + 1)) as H2 by (eapply Qle_lt_trans; eauto).
  rewrite <- Zlt_Qlt in H1, H2. lia.
Qed.

(** [np.round] never decreases when its argument grows. *)
Lemma np_round_monotone (s1 s2 : Q) : s1 <= s2 -> (np_round s1 <= np_round s2)%Z.
Proof.
  intros Hle.
  assert (Hf : (Qfloor s1 <= Qfloor s2)%Z) by now apply Qfloor_resp_le.
  destruct (Z.eq_dec (Qfloor s1) (Qfloor s2)) as [Heq|Hne].
  - pose proof (np_round_cases s1) as C1. pose proof (np_round_cases s2) as C2.
    cbv zeta in C1, C2. rewrite Heq in C1.
    assert (Hd : s1 - inject_Z (Qfloor s2) <= s2 - inject_Z (Qfloor s2)).
    { apply Qplus_le_l. exact Hle. }
    destruct C1 as [[D1 ->]|[[D1 ->]|[D1 ->]]], C2 as [[D2 ->]|[[D2 ->]|[D2 ->]]];
      try lia; try (destruct (Z.even (Qfloor s2)); lia).
    + exfalso. apply (Qlt_irrefl (1 # 2)).
      eapply Qlt_le_trans; [exact D1|]. eapply Qle_trans; [exact Hd|]. now apply Qlt_le_weak.
    + exfalso. rewrite D2 in Hd. apply (Qlt_irrefl (1 # 2)).
      eapply Qlt_le_trans; [exact D1|exact Hd].
    + exfalso. rewrite D1 in Hd. apply (Qlt_irrefl (1 # 2)).
      eapply Qle_lt_trans; [exact Hd|exact D2].
  - pose proof (np_round_floor s1). pose proof (np_round_floor s2). lia.
Qed.

Example np_round_one : np_round 1 = 1%Z.
Proof. reflexivity. Qed.

(** ties go to the even neighbour: a score of exactly 0.5 gets label 0 *)
Example np_round_half : np_round (1 # 2) = 0%Z.
Proof. reflexivity. Qed.

Example np_round_outside_unit_interval : np_round (17 # 10) = 2%Z.
Proof. reflexivity. Qed.

(** the cut-off of [np.round] on one score *)
Lemma np_round_cut (s : Q) :
  (s < 1 # 2 -> (np_round s <= 0)%Z) /\
  (1 # 2 < s -> (1 <= np_round s)%Z) /\
  (0 <= s -> s < 1 # 2 -> np_round s = 0%Z) /\
  (1 # 2 < s -> s <= 1 -> np_round s = 1%Z).
Proof.
  assert (Hlo : s < 1 # 2 -> (np_round s <= 0)%Z).
  { intros Hs. change 0%Z with (np_round (1 # 2)).
    apply np_round_monotone. now apply Qlt_le_weak. }
  assert (Hhi : 1 # 2 < s -> (1 <= np_round s)%Z).
  { intros Hs. pose proof (np_round_cases s) as C. cbv zeta in C.
    assert (Hf : (0 <= Qfloor s)%Z).
    { change 0%Z with (Qfloor (1 # 2)). apply Qfloor_resp_le. now apply Qlt_le_weak. }
    destruct (Z.eq_dec (Qfloor s) 0%Z) as [Hz|Hz].
    - assert (Hd : s - inject_Z (Qfloor s) == s).
      { rewrite Hz. unfold Qminus. apply Qplus_0_r. }
      destruct C as [[D _]|[[_ ->]|[D _]]]; [exfalso|lia|exfalso]; rewrite Hd in D.
      + apply (Qlt_irrefl s). eapply Qlt_trans; eauto.
      + rewrite D in Hs. now apply (Qlt_irrefl (1 # 2)).
    - pose proof (np_round_floor s). lia. }
  split; [exact Hlo|]. split; [exact Hhi|]. split.
  - intros H0 Hs. apply Z.le_antisymm; [now apply Hlo|].
    change 0%Z with (np_round 0). now apply np_round_monotone.
  - intros Hs H1. apply Z.le_antisymm; [|now apply Hhi].
    change 1%Z with (np_round 1). now apply np_round_monotone.
Qed.

(** C2.  Cell 65 gives every score of the batch output one label, at the
    position of the score, and the label is [np.round] of that score and
    of nothing else: never above 0 for a score below 0.5, never below 1
    for a score above 0.5, so that a prediction score, which is a
    probability ("continuous values between 0 and 1", markdown cell 64),
    gets label 0 below 0.5 and label 1 above it.
    [pred_y = np.round(batch_output)] is the one statement of the notebook
    that binds the predicted labels: the pipeline has no threshold to
    tune. *)
Theorem threshold_rule (batch_output : list Q) :
  length (pred_y batch_output) = length batch_output /\
  (forall i s, batch_output !! i = Some s ->
     exists label, pred_y batch_output !! i = Some label /\
       label = np_round s /\
       (s < 1 # 2 -> (label <= 0)%Z) /\
       (1 # 2 < s -> (1 <= label)%Z) /\
       (0 <= s -> s < 1 # 2 -> label = 0%Z) /\
       (1 # 2 < s -> s <= 1 -> label = 1%Z)) /\
  (forall i label, pred_y batch_output !! i = Some label ->
     exists s, batch_output !! i = Some s /\ label = np_round s) /\
  (forall c, c ∈ notebook -> "pred_y" ∈ bound_names c ->
     c = [Simple [Load "np"; Op; Load "batch_output"; Op] ["pred_y"]]).
Proof.
  split; [apply length_fmap|]. split; [|split].
  - intros i s Hi. exists (np_round s).
    split; [unfold pred_y; now rewrite list_lookup_fmap, Hi|].
    split; [reflexivity|]. apply np_round_cut.
  - intros i label Hi. unfold pred_y in Hi. rewrite list_lookup_fmap in Hi.
    destruct (batch_output !! i) as [s|]; [|discriminate].
    exists s. split; [reflexivity|]. now injection Hi as <-.
  - intros c Hc Hp. apply (pred_y_bound_once c Hc Hp).
Qed.

Lemma threshold_rule_witness :
  pred_y [3 # 10; 8 # 10] !! 0%nat = Some 0%Z /\
  pred_y [3 # 10; 8 # 10] !! 1%nat = Some 1%Z.
Proof.
  destruct (threshold_rule [3 # 10; 8 # 10]) as (_ & H & _). split.
  - destruct (H 0%nat (3 # 10) eq_refl) as (label & Hl & _ & _ & _ & H0 & _).
    rewrite Hl. f_equal. apply H0; [discriminate|reflexivity].
  - destruct (H 1%nat (8 # 10) eq_refl) as (label & Hl & _ & _ & _ & _ & H1).
    rewrite Hl. f_equal. apply H1; [reflexivity|discriminate].
Defined.

(** C3.  Thresholding is monotonic: when the lower of two scores is
    labelled 1, the higher one is never labelled 0 (nor anything below 1),
    and it is labelled 1 as long as it is a probability. *)
Theorem threshold_monotonic (s1 s2 : Q) :
  s1 <= s2 -> np_round s1 = 1%Z ->
  np_round s2 ≠ 0%Z /\ (1 <= np_round s2)%Z /\ (s2 <= 1 -> np_round s2 = 1%Z).
Proof.
  intros H12 Hr.
  assert (Hge : (1 <= np_round s2)%Z) by (rewrite <- Hr; now apply np_round_monotone).
  split; [lia|]. split; [exact Hge|].
  intros H2. apply Z.le_antisymm; [|exact Hge].
  change 1%Z with (np_round 1). now apply np_round_monotone.
Qed.

Lemma threshold_monotonic_witness : np_round (9 # 10) = 1%Z.
Proof.
  apply (threshold_monotonic (6 # 10) (9 # 10)); [discriminate|reflexivity|discriminate].
Defined.

End ThresholdFacts.

(** ** Cells 11, 12 and 27: dropping columns and duplicated rows *)
Module DropFacts.
Import Frame Churn Samples MoreSamples DuplicateFacts DummyFacts.

Lemma select_filter {A} (p : A -> bool) (l : list A) :
  select (p <$> l) l = filter (fun x => p x = true) l.
Proof.
  induction l as [|x l IH]; [reflexivity|].
  cbn [fmap list_fmap select]. rewrite filter_cons.
  destruct (p x) eqn:E.
  - rewrite decide_True by reflexivity. now rewrite IH.
  - rewrite decide_False by discriminate. exact IH.
Qed.

Lemma filter_fmap_list {A B} (f : A -> B) (P : B -> Prop) `{forall y, Decision (P y)}
    (l : list A) :
  filter P (f <$> l) = f <$> filter (fun x => P (f x)) l.
Proof.
  induction l as [|x l IH]; [reflexivity|].
  cbn [fmap list_fmap]. rewrite !filter_cons.
  destruct (decide (P (f x))); cbn [fmap list_fmap]; now rewrite IH.
Qed.

Lemma names_select_columns (p : column -> bool) (df : DataFrame) :
  names (select_columns (p <$> columns df) df)
  = col_name <$> filter (fun c => p c = true) (columns df).
Proof. unfold names, select_columns. cbn [columns]. now rewrite select_filter. Qed.

Lemma index_select_columns (mask : list bool) (df : DataFrame) :
  index (select_columns mask df) = index df.
Proof.
  unfold index, select_columns. cbn [rows]. rewrite <- list_fmap_compose.
  reflexivity.
Qed.

Lemma rectangular_select_columns (mask : list bool) (df : DataFrame) :
  rectangular df -> rectangular (select_columns mask df).
Proof.
  unfold rectangular, select_columns. cbn [rows columns]. intros H.
  apply Forall_fmap. eapply Forall_impl; [exact H|].
  intros r Hr. cbn. now apply select_length.
Qed.

Lemma drop_labels_Some (labels : list string) (df : DataFrame) :
  labels ⊆ names df ->
  drop_labels labels df
  = Some (select_columns ((fun c => bool_decide (col_name c ∉ labels)) <$> columns df) df).
Proof. intros H. unfold drop_labels. now rewrite decide_True. Qed.

Lemma drop_labels_None (labels : list string) (df : DataFrame) :
  ¬ labels ⊆ names df -> drop_labels labels df = None.
Proof. intros H. unfold drop_labels. now rewrite decide_False. Qed.

Lemma drop_labels_inv (labels : list string) (df d : DataFrame) :
  drop_labels labels df = Some d ->
  labels ⊆ names df /\
  d = select_columns ((fun c => bool_decide (col_name c ∉ labels)) <$> columns df) df.
Proof.
  unfold drop_labels. destruct (decide (labels ⊆ names df)); [|discriminate].
  intros [= <-]. now split.
Qed.

(** X1.  [drop] raises [KeyError] exactly when a label is no column.
    Otherwise the result keeps the columns with other names, in order,
    and every row with its index label; the labels are gone, so that
    dropping them once more raises. *)
Theorem drop_removes_labels (labels : list string) (df : DataFrame) :
  (drop_labels labels df = None <-> exists l, l ∈ labels /\ l ∉ names df) /\
  forall d, drop_labels labels df = Some d ->
    names d = filter (fun n => n ∉ labels) (names df) /\
    (forall l, l ∈ labels -> l ∉ names d) /\
    index d = index df /\
    (rectangular df -> rectangular d) /\
    (labels ≠ [] -> drop_labels labels d = None).
Proof.
  split.
  - split.
    + intros H. destruct (decide (labels ⊆ names df)) as [Hs|Hs].
      * rewrite (drop_labels_Some _ _ Hs) in H. discriminate.
      * destruct (decide (Exists (fun l => l ∉ names df) labels)) as [He|He].
        { apply Exists_exists in He as (l & Hl & Hn). now exists l. }
        exfalso. apply Hs. intros l Hl.
        destruct (decide (l ∈ names df)) as [|Hn]; [assumption|].
        exfalso. apply He, Exists_exists. now exists l.
    + intros (l & Hl & Hn). apply drop_labels_None. intros Hs. apply Hn, Hs, Hl.
  - intros d (Hs & ->)%drop_labels_inv.
    assert (Hnames : names (select_columns
                ((fun c => bool_decide (col_name c ∉ labels)) <$> columns df) df)
              = filter (fun n => n ∉ labels) (names df)).
    { rewrite names_select_columns. unfold names.
      rewrite filter_fmap_list. f_equal. apply list_filter_iff.
      intros c. cbn. rewrite bool_decide_eq_true. reflexivity. }
    split; [exact Hnames|]. split; [|split; [|split]].
    + intros l Hl. rewrite Hnames, list_elem_of_filter. tauto.
    + apply index_select_columns.
    + apply rectangular_select_columns.
    + intros Hne. apply drop_labels_None. intros Hsub.
      destruct labels as [|l labels]; [congruence|].
      assert (Hin : l ∈ names (select_columns
                ((fun c => bool_decide (col_name c ∉ l :: labels)) <$> columns df) df))
        by (apply Hsub; left).
      rewrite Hnames, list_elem_of_filter in Hin. destruct Hin as [Hin _].
      apply Hin. left.
Qed.

Lemma sublist_same_length {A} (l k : list A) :
  l `sublist_of` k -> length l = length k -> l = k.
Proof.
  induction 1 as [|x l k _ IH|x l k Hs _]; cbn [length]; intros Hlen.
  - reflexivity.
  - f_equal. apply IH. lia.
  - apply sublist_length in Hs. lia.
Qed.

Section Keyed.
Context {A K : Type} `{EqDecision K} (key : A -> K).

Lemma kept_sublist (seen : list K) (l : list A) : kept key seen l `sublist_of` l.
Proof. apply select_sublist. Qed.

Lemma kept_all (seen : list K) (l : list A) :
  NoDup (key <$> l) -> (forall x, x ∈ l -> key x ∉ seen) -> kept key seen l = l.
Proof.
  revert seen. induction l as [|x l IH]; intros seen Hnd Hs; [reflexivity|].
  rewrite kept_cons. cbn [fmap list_fmap] in Hnd. apply NoDup_cons in Hnd as [Hx Hnd].
  rewrite decide_False by (apply Hs; left).
  f_equal. apply IH; [exact Hnd|].
  intros y Hy [Heq|Hin]%elem_of_cons.
  - apply Hx, list_elem_of_fmap. now exists y.
  - apply (Hs y); [now right|exact Hin].
Qed.

End Keyed.

(** projecting the rows first can only flag more of them *)
Lemma kept_projection {A K K'} `{EqDecision K} `{EqDecision K'}
    (key : A -> K) (g : K -> K') (f : A -> A) (key' : A -> K')
    (seen : list K) (seen' : list K') (l : list A) :
  (forall x, key' (f x) = g (key x)) ->
  (forall k, k ∈ seen -> g k ∈ seen') ->
  kept key' seen' (f <$> l) `sublist_of` f <$> kept key seen l.
Proof.
  intros Hkey. revert seen seen'.
  induction l as [|x l IH]; intros seen seen' Hs; [apply sublist_nil_l|].
  cbn [fmap list_fmap]. rewrite !kept_cons, Hkey.
  destruct (decide (key x ∈ seen)) as [Hin|Hout].
  - rewrite decide_True by now apply Hs. now apply IH.
  - cbn [fmap list_fmap].
    assert (Hs' : forall k, k ∈ key x :: seen -> g k ∈ g (key x) :: seen').
    { intros k [->|Hk]%elem_of_cons; [left|right; now apply Hs]. }
    destruct (decide (g (key x) ∈ seen')) as [Hin'|Hout'].
    + apply sublist_cons, IH.
      intros k [->|Hk]%elem_of_cons; [exact Hin'|now apply Hs].
    + apply sublist_skip, IH, Hs'.
Qed.

(** X2.  The two counts cell 12 prints: de-duplication never adds a row,
    and it leaves the count as it is exactly when the table has no column
    or no two rows have the same cells, in which case the table is
    returned unchanged.  The rows that stay keep their index labels. *)
Theorem drop_duplicates_len (df : DataFrame) :
  (len (drop_duplicates df) <= len df) /\
  (len (drop_duplicates df) = len df <->
     columns df = [] \/ NoDup (row_key <$> rows df)) /\
  (columns df = [] \/ NoDup (row_key <$> rows df) -> drop_duplicates df = df) /\
  (index (drop_duplicates df) `sublist_of` index df) /\
  (0 < len df -> 0 < len (drop_duplicates df)).
Proof.
  pose proof (drop_duplicates_sublist df) as Hsub.
  assert (Hid : columns df = [] \/ NoDup (row_key <$> rows df) -> drop_duplicates df = df).
  { intros [Hc|Hnd]; [apply drop_duplicates_empty; now left|].
    destruct (decide (columns df = [])) as [Hc|Hc];
      [apply drop_duplicates_empty; now left|].
    pose proof (drop_duplicates_rows df Hc) as Hr.
    pose proof (drop_duplicates_columns df) as Hcol.
    rewrite (kept_all row_key [] (rows df) Hnd) in Hr
      by (intros x _ Hx; now apply elem_of_nil in Hx).
    destruct (drop_duplicates df) as [c1 r1], df as [c0 r0]. cbn [columns rows] in *.
    now subst. }
  split; [|split; [|split; [|split]]].
  - unfold len. now apply sublist_length.
  - split; [|intros H; now rewrite (Hid H)].
    intros Hlen. destruct (decide (columns df = [])) as [Hc|Hc]; [now left|right].
    unfold len in Hlen. apply sublist_same_length in Hsub; [|exact Hlen].
    rewrite <- Hsub at 1. rewrite (drop_duplicates_rows df Hc).
    apply (kept_NoDup row_key).
  - exact Hid.
  - unfold index. now apply fmap_sublist.
  - destruct (decide (empty df)) as [He|He]; [now rewrite (drop_duplicates_empty df He)|].
    intros _. pose proof (drop_duplicates_not_empty df He) as He'.
    unfold len. destruct (rows (drop_duplicates df)) as [|r rs] eqn:E; cbn [length]; [|lia].
    exfalso. apply He'. now right.
Qed.

(** X3.  Cell 11 drops the phone number before cell 12 removes duplicated
    rows, so two customers who differ in the dropped column only count as
    duplicates: as long as a column is left, every row that survives
    de-duplication after a [drop] would also survive the [drop] after
    de-duplication, in the same order. *)
Theorem drop_then_drop_duplicates (labels : list string) (df d : DataFrame) :
  drop_labels labels df = Some d -> columns d ≠ [] ->
  exists d', drop_labels labels (drop_duplicates df) = Some d' /\
    columns (drop_duplicates d) = columns d' /\
    rows (drop_duplicates d) `sublist_of` rows d' /\
    (len (drop_duplicates d) <= len d') /\ (len d' <= len df).
Proof.
  intros (Hs & ->)%drop_labels_inv Hd.
  set (mask := (fun c => bool_decide (col_name c ∉ labels)) <$> columns df) in *.
  assert (Hc : columns df ≠ []).
  { intros Hc. apply Hd. unfold select_columns, mask. cbn [columns]. now rewrite Hc. }
  exists (select_columns mask (drop_duplicates df)).
  split.
  { rewrite drop_labels_Some by (unfold names; now rewrite drop_duplicates_columns).
    now rewrite drop_duplicates_columns. }
  split.
  { rewrite drop_duplicates_columns. unfold select_columns. cbn [columns].
    now rewrite drop_duplicates_columns. }
  assert (Hsub : rows (drop_duplicates (select_columns mask df))
                   `sublist_of` rows (select_columns mask (drop_duplicates df))).
  { rewrite (drop_duplicates_rows _ Hd). unfold select_columns at 2. cbn [rows].
    rewrite (drop_duplicates_rows df Hc). unfold select_columns. cbn [rows].
    apply (kept_projection row_key (select mask)).
    - intros r. unfold row_key. cbn [snd]. apply select_fmap.
    - intros k Hk. now apply elem_of_nil in Hk. }
  split; [exact Hsub|]. split.
  - unfold len. now apply sublist_length.
  - unfold len, select_columns. cbn [rows]. rewrite length_fmap.
    apply sublist_length, drop_duplicates_sublist.
Qed.

Lemma drop_then_drop_duplicates_witness :
  exists d d',
    drop_labels ["Phone"] same_but_phone = Some d /\
    drop_labels ["Phone"] (drop_duplicates same_but_phone) = Some d' /\
    len (drop_duplicates d) = 1 /\ len d' = 2.
Proof.
  pose (d := mkDataFrame [mkColumn "State" object] [(0%Z, [SStr "KS"]); (1%Z, [SStr "KS"])]).
  destruct (drop_then_drop_duplicates ["Phone"] same_but_phone d eq_refl)
    as (d' & Hd' & _); [discriminate|].
  exists d, d'. split; [reflexivity|]. split; [exact Hd'|].
  split; [reflexivity|].
  change (drop_labels ["Phone"] (drop_duplicates same_but_phone))
    with (Some (mkDataFrame [mkColumn "State" object]
                            [(0%Z, [SStr "KS"]); (1%Z, [SStr "KS"])])) in Hd'.
  injection Hd' as <-. reflexivity.
Defined.

End DropFacts.

(** ** Cells 8 and 32: missing values, distinct values and the encoding *)
Module DescribeFacts.
Import Frame Churn Samples MoreSamples Describe DuplicateFacts DummyFacts EncodeFacts DropFacts.













End DescribeFacts.

(** ** Cell 32 on a table in which one class is missing *)
Module EncodeEdgeFacts.
Import Frame Churn Samples MoreSamples Describe DuplicateFacts DummyFacts EncodeFacts DropFacts.

Lemma getitem_None (label : string) (df : DataFrame) :
  label ∉ names df -> getitem label df = None.
Proof. intros H. unfold getitem. now rewrite decide_False. Qed.

Lemma getitem_is_Some (label : string) (df : DataFrame) :
  label ∈ names df -> exists d, getitem label df = Some d.
Proof. intros H. unfold getitem. rewrite decide_True by exact H. eauto. Qed.

Section OneClass.
Variable repr_float : Qc -> string.
Variable churn : DataFrame.
Hypothesis Hcols : columns churn = churn_columns.

(** the names of the target's indicator columns *)
Lemma target_block_names (n : string) :
  n ∈ col_name <$> block repr_float churn 15 "Churn?" <->
  exists r, r ∈ rows churn /\ cell 15 r ≠ NaN /\
    n = "Churn?" +:+ "_" +:+ str repr_float (cell 15 r).
Proof.
  unfold block, dummy_columns. rewrite <- list_fmap_compose. rewrite list_elem_of_fmap.
  split.
  - intros (l & -> & Hl). unfold field_levels in Hl. apply elem_of_levels in Hl as [Hl Hn].
    unfold column_values in Hl. apply list_elem_of_fmap in Hl as (r & -> & Hr).
    now exists r.
  - intros (r & Hr & Hn & ->). exists (cell 15 r). split; [reflexivity|].
    unfold field_levels. apply elem_of_levels. split; [|exact Hn].
    unfold column_values. apply list_elem_of_fmap. now exists r.
Qed.

Lemma encoded_names (n : string) :
  n ∈ names (get_dummies repr_float churn) <->
  n ∈ col_name <$> other_columns repr_float churn \/
  n ∈ col_name <$> block repr_float churn 15 "Churn?".
Proof.
  rewrite (get_dummies_churn repr_float churn Hcols). unfold names. cbn [columns].
  rewrite fmap_app, elem_of_app. reflexivity.
Qed.

Lemma not_other_name (n : string) :
  n = "Churn?_True." \/ n = "Churn?_False." ->
  n ∉ col_name <$> other_columns repr_float churn.
Proof.
  intros Hn (c & -> & Hc)%list_elem_of_fmap.
  pose proof (other_columns_names repr_float churn) as H.
  rewrite Forall_forall in H. destruct (H c Hc) as [H1 H2]. tauto.
Qed.

End OneClass.

(** X6.  Cell 32 needs both classes.  On a table in which no customer
    churned, [model_data['Churn?_True.']] raises [KeyError]; on one in
    which every customer churned, the [drop] of ['Churn?_False.'] does.
    The empty table is an instance of both. *)
Theorem encode_needs_both_classes (repr_float : Qc -> string) (churn : DataFrame) :
  columns churn = churn_columns ->
  (forall r, r ∈ rows churn -> cell target_position r = SStr "False.") \/
  (forall r, r ∈ rows churn -> cell target_position r = SStr "True.") ->
  encode repr_float churn = None /\
  ((forall r, r ∈ rows churn -> cell target_position r = SStr "False.") ->
     getitem "Churn?_True." (get_dummies repr_float churn) = None) /\
  ((forall r, r ∈ rows churn -> cell target_position r = SStr "True.") ->
     drop_labels ["Churn?_False."; "Churn?_True."] (get_dummies repr_float churn) = None).
Proof.
  intros Hcols Hone. unfold target_position in *.
  assert (Hget : (forall r, r ∈ rows churn -> cell 15 r = SStr "False.") ->
            getitem "Churn?_True." (get_dummies repr_float churn) = None).
  { intros Hall. apply getitem_None. rewrite (encoded_names repr_float churn Hcols).
    intros [Ho|Hb].
    - revert Ho. apply not_other_name. now left.
    - apply target_block_names in Hb as (r & Hr & _ & Hn).
      rewrite (Hall r Hr) in Hn. discriminate. }
  assert (Hdrop : (forall r, r ∈ rows churn -> cell 15 r = SStr "True.") ->
            drop_labels ["Churn?_False."; "Churn?_True."] (get_dummies repr_float churn)
            = None).
  { intros Hall. apply drop_labels_None. intros Hsub.
    assert (Hin : "Churn?_False." ∈ names (get_dummies repr_float churn))
      by (apply Hsub; left).
    rewrite (encoded_names repr_float churn Hcols) in Hin. destruct Hin as [Ho|Hb].
    - revert Ho. apply not_other_name. now right.
    - apply target_block_names in Hb as (r & Hr & _ & Hn).
      rewrite (Hall r Hr) in Hn. discriminate. }
  split; [|split; assumption].
  unfold encode. destruct Hone as [Hall|Hall].
  - now rewrite (Hget Hall).
  - rewrite (Hdrop Hall). now destruct (getitem _ _).
Qed.

Lemma encode_needs_both_classes_witness :
  encode (fun _ => EmptyString) (mkDataFrame churn_columns (take 1 (rows two_customers))) = None.
Proof.
  destruct (encode_needs_both_classes (fun _ => EmptyString)
              (mkDataFrame churn_columns (take 1 (rows two_customers)))) as [H _].
  - reflexivity.
  - left. intros r Hr. cbn in Hr. apply list_elem_of_singleton in Hr. now subst r.
  - exact H.
Defined.

End EncodeEdgeFacts.

(** ** Cells 11 to 58: from the table read to the files written *)
Module PrepareFacts.
Import Frame Churn Float64 Split Features Pipeline Samples MoreSamples.
Import DuplicateFacts DummyFacts CleanFacts EncodeFacts SplitFacts DropFacts.

Lemma kept_cells_length (cells : list scalar) :
  length cells = 21 -> length (kept_cells cells) = 16.
Proof.
  intros H. do 22 (destruct cells as [|? cells]; try discriminate H). reflexivity.
Qed.

Lemma kept_cells_target (i : Z) (cells : list scalar) :
  length cells = 21 -> cell target_position (i, kept_cells cells) = cell raw_target_position (i, cells).
Proof.
  intros H. do 22 (destruct cells as [|? cells]; try discriminate H). reflexivity.
Qed.

(** cells that [duplicated] takes for the same are the same text, if text *)
Lemma factorize_text (v : scalar) (t : string) : factorize v = Text t -> v = SStr t.
Proof. destruct v; cbn; congruence. Qed.

Lemma cell_row_key (j : nat) (r r' : row) :
  row_key r' = row_key r -> factorize (cell j r') = factorize (cell j r).
Proof.
  unfold row_key, cell. intros H.
  assert (Hj : (factorize <$> r'.2) !! j = (factorize <$> r.2) !! j) by now rewrite H.
  rewrite !list_lookup_fmap in Hj.
  destruct (r'.2 !! j), (r.2 !! j); cbn in *; congruence.
Qed.

(** what two column selections around a [drop_duplicates] leave of the rows *)
Section Masked.
Variables mask1 mask2 : list bool.
Variable df : DataFrame.

Lemma masked_row_origin (r' : row) :
  r' ∈ (fun r : row => (r.1, select mask2 r.2))
         <$> rows (drop_duplicates (select_columns mask1 df)) ->
  exists r, r ∈ rows df /\ r' = (r.1, select mask2 (select mask1 r.2)).
Proof.
  intros (r1 & -> & H1)%list_elem_of_fmap.
  assert (H2 : r1 ∈ rows (select_columns mask1 df)).
  { eapply elem_of_sublist; [exact H1|apply drop_duplicates_sublist]. }
  cbn [rows select_columns] in H2. apply list_elem_of_fmap in H2 as (r & -> & Hr).
  exists r. split; [exact Hr|reflexivity].
Qed.

Lemma masked_row_covers (r : row) :
  select mask1 (columns df) ≠ [] -> r ∈ rows df ->
  exists r', r' ∈ (fun r : row => (r.1, select mask2 r.2))
                    <$> rows (drop_duplicates (select_columns mask1 df)) /\
             row_key r' = factorize <$> select mask2 (select mask1 r.2).
Proof.
  intros Hc Hr.
  assert (H1 : (r.1, select mask1 r.2) ∈ rows (select_columns mask1 df)).
  { cbn [rows select_columns]. apply list_elem_of_fmap. now exists r. }
  destruct (kept_covers row_key [] _ _ H1) as [H|H]; [now apply elem_of_nil in H|].
  apply list_elem_of_fmap in H as (r2 & Heq & H2). unfold row_key in Heq. cbn [snd] in Heq.
  exists (r2.1, select mask2 r2.2). split.
  - apply list_elem_of_fmap. exists r2. split; [reflexivity|].
    now rewrite drop_duplicates_rows.
  - unfold row_key. cbn [snd]. now rewrite !(select_fmap factorize mask2), Heq.
Qed.

Lemma masked_length :
  length ((fun r : row => (r.1, select mask2 r.2))
            <$> rows (drop_duplicates (select_columns mask1 df))) <= len df.
Proof.
  rewrite length_fmap.
  etransitivity; [apply sublist_length, drop_duplicates_sublist|].
  cbn [rows select_columns]. now rewrite length_fmap.
Qed.

End Masked.

Section Cleaned.
Variable churn : DataFrame.
Hypothesis Hcols : columns churn = raw_columns.
Hypothesis Hrect : rectangular churn.

Lemma raw_row_length (r : row) : r ∈ rows churn -> length r.2 = 21.
Proof.
  intros Hr. unfold rectangular in Hrect. rewrite Forall_forall in Hrect.
  rewrite (Hrect r Hr), Hcols. reflexivity.
Qed.

Lemma clean_cleaned : clean churn = Some (mkDataFrame churn_columns (cleaned_rows churn)).
Proof. now apply clean_spec. Qed.

Lemma cleaned_row_origin (r' : row) :
  r' ∈ (cleaned_rows churn) -> exists r, r ∈ rows churn /\ r' = (r.1, kept_cells r.2).
Proof. unfold cleaned_rows, kept_cells. apply masked_row_origin. Qed.

Lemma cleaned_row_covers (r : row) :
  r ∈ rows churn ->
  exists r', r' ∈ (cleaned_rows churn) /\ row_key r' = factorize <$> kept_cells r.2.
Proof.
  unfold cleaned_rows, kept_cells. apply masked_row_covers.
  rewrite Hcols. discriminate.
Qed.

Lemma cleaned_rectangular : rectangular (mkDataFrame churn_columns (cleaned_rows churn)).
Proof.
  unfold rectangular. cbn [rows columns]. apply Forall_forall.
  intros r' (r & Hr & ->)%cleaned_row_origin. cbn [snd].
  now rewrite kept_cells_length by now apply raw_row_length.
Qed.

(** a customer of the input keeps its target in the row that stands for it *)
Lemma cleaned_target (r : row) (t : string) :
  r ∈ rows churn -> cell raw_target_position r = SStr t ->
  exists r', r' ∈ cleaned_rows churn /\ cell target_position r' = SStr t.
Proof.
  intros Hr Ht. destruct (cleaned_row_covers r Hr) as (r' & Hin & Hk).
  exists r'. split; [exact Hin|]. apply factorize_text.
  rewrite (cell_row_key target_position (r.1, kept_cells r.2) r') by exact Hk.
  rewrite kept_cells_target by now apply raw_row_length.
  destruct r as [i cells]. cbn [fst snd]. now rewrite Ht.
Qed.

Lemma cleaned_binary :
  raw_binary_target churn -> binary_target (mkDataFrame churn_columns (cleaned_rows churn)).
Proof.
  intros (Hall & (rt & Hrt & Ht) & (rf & Hrf & Hf)). unfold binary_target. cbn [rows].
  split; [|split].
  - intros r' ([i cells] & Hr & ->)%cleaned_row_origin. cbn [fst snd].
    rewrite kept_cells_target by apply (raw_row_length _ Hr). now apply (Hall _ Hr).
  - now apply (cleaned_target rt).
  - now apply (cleaned_target rf).
Qed.

Lemma cleaned_len : length (cleaned_rows churn) <= len churn.
Proof. unfold cleaned_rows. apply masked_length. Qed.

End Cleaned.

(** X7.  On a table in the layout of [churn.txt], cells 11, 12 and 27 do
    not raise and leave the sixteen columns the encoder is given.  Every
    row left is a customer of the input without the phone number and the
    four charges, every customer of the input is represented by a row
    with the same cells, as [duplicated] compares them, and a target that
    takes both values still does. *)
Theorem clean_keeps_customers (churn : DataFrame) :
  columns churn = raw_columns -> rectangular churn ->
  exists cleaned,
    clean churn = Some cleaned /\
    columns cleaned = churn_columns /\
    rectangular cleaned /\
    (len cleaned <= len churn) /\
    (forall r', r' ∈ rows cleaned ->
       exists r, r ∈ rows churn /\ r' = (r.1, kept_cells r.2)) /\
    (forall r, r ∈ rows churn ->
       exists r', r' ∈ rows cleaned /\ row_key r' = factorize <$> kept_cells r.2) /\
    (forall r, r ∈ rows churn ->
       cell target_position (r.1, kept_cells r.2) = cell raw_target_position r) /\
    (raw_binary_target churn -> binary_target cleaned).
Proof.
  intros Hcols Hrect. exists (mkDataFrame churn_columns (cleaned_rows churn)).
  split; [now apply clean_cleaned|]. split; [reflexivity|].
  split; [now apply cleaned_rectangular|]. split; [now apply cleaned_len|].
  split; [apply cleaned_row_origin|]. split; [apply (cleaned_row_covers churn Hcols)|].
  split; [|now apply cleaned_binary].
  intros [i cells] Hr. apply kept_cells_target. apply (raw_row_length churn Hcols Hrect _ Hr).
Qed.

Lemma three_raw_rows_rectangular : rectangular three_raw_rows.
Proof. repeat constructor. Qed.

Lemma clean_keeps_customers_witness :
  exists cleaned, clean three_raw_rows = Some cleaned /\ len cleaned <= 3.
Proof.
  destruct (clean_keeps_customers three_raw_rows eq_refl three_raw_rows_rectangular)
    as (cleaned & Hc & _ & _ & Hl & _).
  exists cleaned. split; [exact Hc|exact Hl].
Defined.

Section Written.
Variable repr_float : Qc -> string.
Variable permutation : nat -> list nat.
Hypothesis permutation_spec : forall n, permutation n ≡ₚ seq 0 n.

(** the three parts of an encoded table, with the rows they hold *)
Lemma Splitter_encoded (churn : DataFrame) :
  columns churn = churn_columns -> rectangular churn -> binary_target churn ->
  (Z.of_nat (len churn) < 2 ^ 63)%Z ->
  exists (i1 i2 : nat) (rs : list row),
    let cols := true_column :: other_columns repr_float churn in
    encode repr_float churn
      = Some (mkDataFrame cols
                ((fun r : row => (r.1, SInt (churned r) :: other_cells churn r)) <$> rows churn)) /\
    rs ≡ₚ (fun r : row => (r.1, SInt (churned r) :: other_cells churn r)) <$> rows churn /\
    i1 <= i2 /\ i2 <= len churn /\
    Splitter permutation
        (mkDataFrame cols
           ((fun r : row => (r.1, SInt (churned r) :: other_cells churn r)) <$> rows churn))
      = Some (mkDataFrame cols (take i1 rs),
              mkDataFrame cols (take (i2 - i1) (drop i1 rs)),
              mkDataFrame cols (drop i2 rs)).
Proof.
  intros Hcols Hrect Hbin Hn.
  set (md := mkDataFrame (true_column :: other_columns repr_float churn)
               ((fun r : row => (r.1, SInt (churned r) :: other_cells churn r)) <$> rows churn)).
  assert (Hlen : len md = len churn) by (unfold len, md; cbn [rows]; apply length_fmap).
  destruct (Splitter_spec permutation permutation_spec md)
    as (i1 & i2 & rs & _ & _ & H12 & H2n & _ & Hp & Hs); [now rewrite Hlen|].
  exists i1, i2, rs. cbn zeta. fold md.
  split; [now apply encode_churn|]. split; [exact Hp|].
  split; [exact H12|]. split; [now rewrite <- Hlen|exact Hs].
Qed.

Lemma churned_binary (r : row) : churned r = 0%Z \/ churned r = 1%Z.
Proof. unfold churned. destruct (decide _); [now right|now left]. Qed.

Lemma iloc_column_0 (c : column) (cols : list column) (rws : list row) :
  iloc_column 0 (mkDataFrame (c :: cols) rws)
  = Some (mkSeries (col_name c) ((fun r : row => (r.1, cell 0 r)) <$> rws)).
Proof. reflexivity. Qed.

(** the label and the features put back together *)
Lemma stitch_rows (rws : list row) :
  Forall (fun r : row => r.2 ≠ []) rws ->
  zip_with (fun (y : Z * scalar) (x : row) => (x.1, y.2 :: x.2))
           ((fun r : row => (r.1, cell 0 r)) <$> rws)
           ((fun r : row => (r.1, drop 1 r.2)) <$> rws)
  = rws.
Proof.
  induction 1 as [|[i cells] rws Hne _ IH]; [reflexivity|].
  cbn [fmap list_fmap zip_with]. cbn [fmap list_fmap] in IH. rewrite IH. f_equal.
  destruct cells as [|v cells]; [now cbn in Hne|reflexivity].
Qed.

(** X8.  The local classifier is fitted on the training rows without
    their first cell, against that cell: the target series is named
    ['Churn?_True.'] and holds 0 and 1 only, the feature tables have the
    columns of the batch input, in the same order, and putting a label
    back in front of its feature row gives the row of the split. *)
Theorem features_exclude_label (churn : DataFrame) :
  columns churn = churn_columns -> rectangular churn -> binary_target churn ->
  (Z.of_nat (len churn) < 2 ^ 63)%Z ->
  exists model_data train_data validation_data test_data ld,
    encode repr_float churn = Some model_data /\
    Splitter permutation model_data = Some (train_data, validation_data, test_data) /\
    learning_set repr_float permutation churn = Some ld /\
    series_name (train_y ld) = "Churn?_True." /\
    series_name (valid_y ld) = "Churn?_True." /\
    Forall (fun v => v = SInt 0 \/ v = SInt 1) (labels (train_y ld) ++ labels (valid_y ld)) /\
    columns (train_X ld) = columns (iloc_columns_from 1 test_data) /\
    columns (valid_X ld) = columns (iloc_columns_from 1 test_data) /\
    ("Churn?_True." ∉ names (train_X ld)) /\
    (series_items (train_y ld)).*1 = index (train_X ld) /\
    (series_items (valid_y ld)).*1 = index (valid_X ld) /\
    zip_with (fun (y : Z * scalar) (x : row) => (x.1, y.2 :: x.2))
             (series_items (train_y ld)) (rows (train_X ld)) = rows train_data /\
    zip_with (fun (y : Z * scalar) (x : row) => (x.1, y.2 :: x.2))
             (series_items (valid_y ld)) (rows (valid_X ld)) = rows validation_data.
Proof.
  intros Hcols Hrect Hbin Hn.
  destruct (Splitter_encoded churn Hcols Hrect Hbin Hn)
    as (i1 & i2 & rs & He & Hp & H12 & H2n & Hs).
  cbn zeta in *.
  set (cols := true_column :: other_columns repr_float churn) in *.
  set (enc := (fun r : row => (r.1, SInt (churned r) :: other_cells churn r)) <$> rows churn) in *.
  assert (Hrs : Forall (fun r' : row => exists r, r' = (r.1, SInt (churned r) :: other_cells churn r)) rs).
  { apply Forall_forall. intros r' Hr'. rewrite Hp in Hr'.
    apply list_elem_of_fmap in Hr' as (r & -> & _). now exists r. }
  assert (Hlab : forall l, l ⊆ rs ->
            Forall (fun v => v = SInt 0 \/ v = SInt 1)
                   ((fun r : row => (r.1, cell 0 r)) <$> l).*2).
  { intros l Hl. rewrite <- list_fmap_compose. apply Forall_fmap, Forall_forall.
    intros r' Hr'. rewrite Forall_forall in Hrs.
    destruct (Hrs r' (Hl _ Hr')) as (r & ->). cbn.
    destruct (churned_binary r) as [->| ->]; [now left|now right]. }
  assert (Hne : forall l, l ⊆ rs -> Forall (fun r : row => r.2 ≠ []) l).
  { intros l Hl. apply Forall_forall. intros r' Hr'. rewrite Forall_forall in Hrs.
    destruct (Hrs r' (Hl _ Hr')) as (r & ->). discriminate. }
  assert (Ht : take i1 rs ⊆ rs) by (intros x Hx; eapply elem_of_sublist; [exact Hx|apply sublist_take]).
  assert (Hv : take (i2 - i1) (drop i1 rs) ⊆ rs).
  { intros x Hx. eapply elem_of_sublist; [exact Hx|].
    etransitivity; [apply sublist_take|apply sublist_drop]. }
  eexists _, _, _, _, _. split; [exact He|]. split; [exact Hs|].
  split.
  { unfold learning_set. rewrite He. cbn [mbind option_bind]. rewrite Hs.
    cbn [mbind option_bind]. unfold split_features, cols. rewrite !iloc_column_0.
    reflexivity. }
  cbn [train_y valid_y train_X valid_X series_name series_items labels col_name true_column].
  split; [reflexivity|]. split; [reflexivity|].
  split; [unfold labels; cbn [series_items]; apply Forall_app; split;
          [now apply Hlab|now apply Hlab]|].
  split; [reflexivity|]. split; [reflexivity|].
  split.
  { unfold names, iloc_columns_from. cbn [columns drop cols].
    intros (c & Hc & Hin)%list_elem_of_fmap.
    pose proof (other_columns_names repr_float churn) as Ho. rewrite Forall_forall in Ho.
    destruct (Ho c Hin) as [Hno _]. now apply Hno. }
  unfold index, iloc_columns_from. cbn [rows].
  rewrite <- !list_fmap_compose.
  split; [reflexivity|]. split; [reflexivity|].
  split; apply stitch_rows; [now apply Hne|now apply Hne].
Qed.


End Written.

Lemma features_exclude_label_witness :
  exists ld, learning_set (fun _ => EmptyString) reversed two_customers = Some ld /\
    series_name (train_y ld) = "Churn?_True.".
Proof.
  destruct (features_exclude_label (fun _ => EmptyString) reversed reversed_shuffle
              two_customers eq_refl two_customers_rectangular two_customers_binary)
    as (md & tr & va & te & ld & _ & _ & Hl & Hn & _).
  - vm_compute. reflexivity.
  - exists ld. split; [exact Hl|exact Hn].
Defined.



End PrepareFacts.

(** ** Cell 34: the cut points as binary64 computes them *)
Module CutFacts.
Import Frame Float64 Split Samples Float64Facts SplitFacts.
Local Open Scope Z_scope.

(** a row count below [2 ^ 53] converts exactly *)
Lemma float_of_int_exact (n : Z) :
  0 <= n < 2 ^ 53 -> float_of_int n = Some (mkFloat n 0).
Proof.
  intros [H0 Hn]. unfold float_of_int, round_nearest_even, prec.
  assert (Hlog : Z.log2 n + 1 - 53 <= 0).
  { destruct (Z.eq_dec n 0) as [->|Hne]; [cbn; lia|].
    assert (Z.log2 n < 53) by (apply Z.log2_lt_pow2; lia). lia. }
  destruct (Z.leb_spec (Z.log2 n + 1 - 53) 0) as [_|?]; [|lia].
  unfold int_value. cbn [mant expo]. rewrite Z.shiftl_0_r.
  destruct (Z.ltb_spec n (2 ^ 1024)) as [_|Hge]; [reflexivity|].
  assert (2 ^ 53 < 2 ^ 1024) by (apply Z.pow_lt_mono_r; lia). lia.
Qed.

(** rounding to nearest never takes a product below the integer part of
    its exact value *)
Lemma py_int_fmul_floor (c nf : float) :
  0 <= mant c -> expo c = -53 -> 0 <= mant nf -> expo nf = 0 ->
  mant c * mant nf < 2 ^ 106 ->
  (mant c * mant nf) / 2 ^ 53 <= py_int (fmul c nf).
Proof.
  intros Hc He Hm Hen Hsmall. unfold fmul, py_int, round_nearest_even, prec.
  rewrite He, Hen. set (m := mant c * mant nf) in *.
  assert (Hm0 : 0 <= m) by (apply Z.mul_nonneg_nonneg; assumption).
  destruct (Z.leb_spec (Z.log2 m + 1 - 53) 0) as [Hs|Hs].
  - cbn [mant expo]. rewrite Z.shiftr_div_pow2 by lia. change (- (-53 + 0)) with 53. lia.
  - assert (Hmpos : 0 < m).
    { destruct (Z.eq_dec m 0) as [E|]; [rewrite E in Hs; cbn in Hs; lia|lia]. }
    set (s := Z.log2 m + 1 - 53) in *.
    assert (Hs53 : s <= 53).
    { assert (Z.log2 m < 106) by (apply Z.log2_lt_pow2; lia). lia. }
    cbn [mant expo].
    replace (- (-53 + 0 + s)) with (53 - s) by lia.
    rewrite !Z.shiftr_div_pow2 by lia.
    assert (Hq : m / 2 ^ s <= (if (Z.shiftl 1 (s - 1) <? Z.land m (Z.ones s))
                                   || ((Z.land m (Z.ones s) =? Z.shiftl 1 (s - 1))
                                       && Z.odd (m / 2 ^ s))
                               then m / 2 ^ s + 1 else m / 2 ^ s))
      by (destruct (_ || _); lia).
    etransitivity; [|apply Z.div_le_mono; [apply Z.pow_pos_nonneg; lia|exact Hq]].
    rewrite Z.div_div by (try apply Z.pow_pos_nonneg; try apply Z.pow_nonzero; lia).
    rewrite <- Z.pow_add_r by lia. replace (s + (53 - s)) with 53 by lia. lia.
Qed.

(** [int(c * n)] between the floor of the exact product and what one
    rounding up allows *)
Lemma int_mul_bounds (c : float) (n : Z) :
  0 <= mant c < 2 ^ 53 -> expo c = -53 -> 0 <= n < 2 ^ 53 ->
  exists i, int_mul c n = Some i /\
    (mant c * n) / 2 ^ 53 <= i /\
    2 ^ 106 * i <= (2 ^ 53 + 1) * (mant c * n).
Proof.
  intros Hc He Hn. unfold int_mul. rewrite (float_of_int_exact n Hn).
  cbn [mbind option_bind]. eexists. split; [reflexivity|].
  assert (Hprod : mant c * n < 2 ^ 106).
  { change (2 ^ 106) with (2 ^ 53 * 2 ^ 53). apply Z.mul_lt_mono_nonneg; lia. }
  split.
  - apply (py_int_fmul_floor c (mkFloat n 0)); cbn [mant expo]; lia.
  - destruct (py_int_fmul_spec c (mkFloat n 0)) as (w & Hw & Hw0 & _ & Hhi);
      cbn [mant expo]; try lia.
    rewrite Hw. unfold int_value in Hhi. cbn [mant expo] in Hhi.
    rewrite Z.shiftl_0_r in Hhi.
    pose proof (Z.mul_div_le w (2 ^ 53) ltac:(lia)) as Hdiv.
    change (2 ^ 106) with (2 ^ 53 * 2 ^ 53). nia.
Qed.

(** The cut points of a table of fewer than [2 ^ 49] rows.  The second
    is [9 * n // 10].  The first is [7 * n // 10], except that it may be
    one less when [n] is a multiple of 10: the double nearest to 0.7 lies
    below 0.7. *)
Lemma cut_values (n : Z) :
  0 <= n < 2 ^ 49 ->
  exists i1, int_mul f0_7 n = Some i1 /\ int_mul f0_9 n = Some (9 * n / 10) /\
    7 * n / 10 - 1 <= i1 <= 7 * n / 10 /\
    (n mod 10 <> 0 -> i1 = 7 * n / 10).
Proof.
  intros Hn.
  assert (Hn53 : 0 <= n < 2 ^ 53).
  { assert (2 ^ 49 < 2 ^ 53) by (apply Z.pow_lt_mono_r; lia). lia. }
  destruct (int_mul_bounds f0_7 n) as (i1 & H1 & Hlo1 & Hhi1); [cbn; lia|reflexivity|exact Hn53|].
  destruct (int_mul_bounds f0_9 n) as (i2 & H2 & Hlo2 & Hhi2); [cbn; lia|reflexivity|exact Hn53|].
  cbn [mant f0_7 f0_9] in *.
  change (2 ^ 106) with 81129638414606681695789005144064 in *.
  change (2 ^ 53) with 9007199254740992 in *.
  change (2 ^ 49) with 562949953421312 in *.
  pose proof (Z.div_mod (7 * n) 10 ltac:(lia)) as D7.
  pose proof (Z.mod_pos_bound (7 * n) 10 ltac:(lia)) as M7.
  pose proof (Z.div_mod (9 * n) 10 ltac:(lia)) as D9.
  pose proof (Z.mod_pos_bound (9 * n) 10 ltac:(lia)) as M9.
  pose proof (Z.div_mod n 10 ltac:(lia)) as Dn.
  pose proof (Z.mod_pos_bound n 10 ltac:(lia)) as Mn.
  pose proof (Z.div_mod (6305039478318694 * n) 9007199254740992 ltac:(lia)) as E7.
  pose proof (Z.mod_pos_bound (6305039478318694 * n) 9007199254740992 ltac:(lia)) as R7.
  pose proof (Z.div_mod (8106479329266893 * n) 9007199254740992 ltac:(lia)) as E9.
  pose proof (Z.mod_pos_bound (8106479329266893 * n) 9007199254740992 ltac:(lia)) as R9.
  set (k7 := 7 * n / 10) in *. set (r7 := (7 * n) mod 10) in *.
  set (k9 := 9 * n / 10) in *. set (r9 := (9 * n) mod 10) in *.
  set (a7 := 6305039478318694 * n / 9007199254740992) in *.
  set (b7 := (6305039478318694 * n) mod 9007199254740992) in *.
  set (a9 := 8106479329266893 * n / 9007199254740992) in *.
  set (b9 := (8106479329266893 * n) mod 9007199254740992) in *.
  set (kn := n / 10) in *. set (rn := n mod 10) in *.
  exists i1. split; [exact H1|].
  assert (E2 : i2 = k9) by lia.
  split; [now rewrite H2, E2|].
  split; [lia|].
  intros Hrn. lia.
Qed.

(** the cut points in terms of the rounded products *)
Lemma cut_products (n : Z) :
  0 <= n < 2 ^ 63 ->
  exists N w1 w2,
    int_mul f0_7 n = Some (w1 / 2 ^ 53) /\ int_mul f0_9 n = Some (w2 / 2 ^ 53) /\
    0 <= N /\ 0 <= w1 /\ 0 <= w2 /\
    (2 ^ 53 - 1) * n <= 2 ^ 53 * N /\ 2 ^ 53 * N <= (2 ^ 53 + 1) * n /\
    (2 ^ 53 - 1) * (mant f0_7 * N) <= 2 ^ 53 * w1 /\
    2 ^ 53 * w1 <= (2 ^ 53 + 1) * (mant f0_7 * N) /\
    (2 ^ 53 - 1) * (mant f0_9 * N) <= 2 ^ 53 * w2 /\
    2 ^ 53 * w2 <= (2 ^ 53 + 1) * (mant f0_9 * N).
Proof.
  intros Hn.
  destruct (float_of_int_spec n Hn) as (nf & Hnf & Hm & He & Hlo & Hhi).
  destruct (py_int_fmul_spec f0_7 nf) as (w1 & H1 & Hw1 & Hlo1 & Hhi1);
    [cbn; lia|reflexivity|assumption|assumption|].
  destruct (py_int_fmul_spec f0_9 nf) as (w2 & H2 & Hw2 & Hlo2 & Hhi2);
    [cbn; lia|reflexivity|assumption|assumption|].
  exists (int_value nf), w1, w2.
  unfold int_mul. rewrite Hnf. cbn [mbind option_bind]. rewrite H1, H2.
  repeat split; try assumption.
  unfold int_value. rewrite Z.shiftl_mul_pow2 by lia.
  apply Z.mul_nonneg_nonneg; [assumption|apply Z.pow_nonneg; lia].
Qed.

(** which of the three parts are empty *)
Lemma cut_gaps (n : Z) :
  0 <= n < 2 ^ 63 ->
  exists i1 i2, int_mul f0_7 n = Some i1 /\ int_mul f0_9 n = Some i2 /\
    (0 < i1 <-> 2 <= n) /\ (i1 < i2 <-> 4 <= n) /\ (i2 < n <-> 1 <= n).
Proof.
  intros Hn.
  destruct (Z_lt_le_dec n 6) as [Hsmall|Hbig].
  - assert (Hcase : n = 0 \/ n = 1 \/ n = 2 \/ n = 3 \/ n = 4 \/ n = 5) by lia.
    destruct Hcase as [->|[->|[->|[->|[->| ->]]]]];
      [exists 0, 0|exists 0, 0|exists 1, 1|exists 2, 2|exists 2, 3|exists 3, 4];
      (split; [reflexivity|]); (split; [reflexivity|]); lia.
  - destruct (cut_products n Hn)
      as (N & w1 & w2 & H1 & H2 & HN & Hw1 & Hw2 & Hlo & Hhi & Hlo1 & Hhi1 & Hlo2 & Hhi2).
    exists (w1 / 2 ^ 53), (w2 / 2 ^ 53). split; [exact H1|]. split; [exact H2|].
    cbn [mant f0_7 f0_9] in *.
    change (2 ^ 63) with 9223372036854775808 in *.
    change (2 ^ 53) with 9007199254740992 in *.
    pose proof (Z.div_mod w1 9007199254740992 ltac:(lia)) as E1.
    pose proof (Z.mod_pos_bound w1 9007199254740992 ltac:(lia)) as R1.
    pose proof (Z.div_mod w2 9007199254740992 ltac:(lia)) as E2.
    pose proof (Z.mod_pos_bound w2 9007199254740992 ltac:(lia)) as R2.
    set (a1 := w1 / 9007199254740992) in *. set (b1 := w1 mod 9007199254740992) in *.
    set (a2 := w2 / 9007199254740992) in *. set (b2 := w2 mod 9007199254740992) in *.
    assert (HN6 : 6 <= N) by lia.
    split; [|split]; (split; [lia|intros _]).
    + lia.
    + lia.
    + lia.
Qed.

Local Close Scope Z_scope.

Section Sample.
Variable permutation : nat -> list nat.
Hypothesis permutation_spec : forall n, permutation n ≡ₚ seq 0 n.

Lemma Splitter_lens (df : DataFrame) :
  (Z.of_nat (len df) < 2 ^ 63)%Z ->
  exists (i1 i2 : nat) (train validation test : DataFrame),
    int_mul f0_7 (Z.of_nat (len df)) = Some (Z.of_nat i1) /\
    int_mul f0_9 (Z.of_nat (len df)) = Some (Z.of_nat i2) /\
    Splitter permutation df = Some (train, validation, test) /\
    len train = i1 /\ len validation = i2 - i1 /\ len test = len df - i2 /\
    i1 <= i2 /\ i2 <= len df.
Proof.
  intros Hn.
  destruct (Splitter_spec permutation permutation_spec df Hn)
    as (i1 & i2 & rs & H1 & H2 & H12 & H2n & _ & Hp & Hs).
  assert (Hlen : length rs = len df) by (unfold len; now rewrite Hp).
  eexists i1, i2, _, _, _. split; [exact H1|]. split; [exact H2|]. split; [exact Hs|].
  unfold len in *. cbn [rows]. rewrite !length_take, !length_drop, Hlen.
  repeat split; lia.
Qed.

(** X10.  Which parts of the split are empty.  The test set is empty only
    for the empty table, the training set for fewer than two rows, the
    validation set for fewer than four. *)
Theorem empty_parts (df : DataFrame) :
  (Z.of_nat (len df) < 2 ^ 63)%Z ->
  exists train validation test,
    Splitter permutation df = Some (train, validation, test) /\
    (0 < len test <-> 1 <= len df) /\
    (0 < len train <-> 2 <= len df) /\
    (0 < len validation <-> 4 <= len df).
Proof.
  intros Hn.
  destruct (Splitter_lens df Hn) as (i1 & i2 & tr & va & te & H1 & H2 & Hs & Ht & Hv & He & _).
  destruct (cut_gaps (Z.of_nat (len df))) as (j1 & j2 & J1 & J2 & G1 & G2 & G3); [lia|].
  rewrite J1 in H1. rewrite J2 in H2. injection H1 as ->. injection H2 as ->.
  exists tr, va, te. split; [exact Hs|]. rewrite Ht, Hv, He. lia.
Qed.

(** X11.  The sizes of the parts of a table of fewer than [2 ^ 49] rows.
    The test set has [n - 9 * n // 10] rows.  The training set has
    [7 * n // 10] rows when [n] is no multiple of 10, and that many or one
    less when it is. *)
Theorem part_sizes (df : DataFrame) :
  (Z.of_nat (len df) < 2 ^ 49)%Z ->
  exists train validation test,
    Splitter permutation df = Some (train, validation, test) /\
    len test = len df - 9 * len df / 10 /\
    len train + len validation = 9 * len df / 10 /\
    (7 * len df / 10 - 1 <= len train) /\ (len train <= 7 * len df / 10) /\
    (len df mod 10 ≠ 0 -> len train = 7 * len df / 10).
Proof.
  intros Hn.
  assert (Hn63 : (Z.of_nat (len df) < 2 ^ 63)%Z).
  { assert (2 ^ 49 < 2 ^ 63)%Z by (apply Z.pow_lt_mono_r; lia). lia. }
  destruct (Splitter_lens df Hn63)
    as (i1 & i2 & tr & va & te & H1 & H2 & Hs & Ht & Hv & He & H12 & H2n).
  destruct (cut_values (Z.of_nat (len df))) as (j1 & J1 & J2 & [Hlo Hhi] & Hex); [lia|].
  rewrite J1 in H1. rewrite J2 in H2. injection H1 as ->. injection H2 as H2.
  exists tr, va, te. split; [exact Hs|]. rewrite Ht, Hv, He.
  assert (E9 : Z.of_nat (9 * len df / 10) = (9 * Z.of_nat (len df) / 10)%Z).
  { rewrite Nat2Z.inj_div, Nat2Z.inj_mul. reflexivity. }
  assert (E7 : Z.of_nat (7 * len df / 10) = (7 * Z.of_nat (len df) / 10)%Z).
  { rewrite Nat2Z.inj_div, Nat2Z.inj_mul. reflexivity. }
  assert (Em : Z.of_nat (len df mod 10) = (Z.of_nat (len df) mod 10)%Z).
  { rewrite Nat2Z.inj_mod. reflexivity. }
  set (k9 := 9 * len df / 10) in *. set (k7 := 7 * len df / 10) in *.
  set (m := len df mod 10) in *.
  repeat split; lia.
Qed.

End Sample.

Lemma empty_parts_witness :
  exists train validation test,
    Splitter reversed ten_rows = Some (train, validation, test) /\ 0 < len validation.
Proof.
  destruct (empty_parts reversed reversed_shuffle ten_rows)
    as (tr & va & te & Hs & _ & _ & Hv).
  - vm_compute. reflexivity.
  - exists tr, va, te. split; [exact Hs|]. apply Hv. vm_compute. lia.
Defined.

Lemma part_sizes_witness :
  exists train validation test,
    Splitter reversed ten_rows = Some (train, validation, test) /\ len test = 1.
Proof.
  destruct (part_sizes reversed reversed_shuffle ten_rows)
    as (tr & va & te & Hs & Ht & _).
  - vm_compute. reflexivity.
  - exists tr, va, te. split; [exact Hs|exact Ht].
Defined.

End CutFacts.

(** ** Cell 34: [np.split] at any two cut points *)
Module SplitEdgeFacts.
Import Frame Float64 Split Samples Float64Facts SplitFacts.

Lemma slice_bound_min (n i : nat) : slice_bound n (Z.of_nat i) = i `min` n.
Proof. unfold slice_bound. destruct (Z.ltb_spec (Z.of_nat i) 0); lia. Qed.

(** slicing clamps its bounds to the length *)
Lemma py_slice_clamped {A} (a b : nat) (l : list A) :
  py_slice (Z.of_nat a) (Z.of_nat b) l = take (b - a) (drop a l).
Proof.
  unfold py_slice. rewrite !slice_bound_min.
  destruct (Nat.le_gt_cases (length l) a) as [Ha|Ha].
  - rewrite (Nat.min_r a) by exact Ha.
    rewrite (drop_ge l (length l)), (drop_ge l a) by lia. now rewrite !take_nil.
  - rewrite (Nat.min_l a) by lia.
    destruct (Nat.le_gt_cases (length l) b) as [Hb|Hb].
    + rewrite (Nat.min_r b) by exact Hb.
      rewrite !take_ge by (rewrite length_drop; lia). reflexivity.
    + rewrite (Nat.min_l b) by lia. reflexivity.
Qed.

(** X12.  [np.split] at two cut points never raises.  It returns the rows
    before the first point, those from the first up to the second, and
    those from the second on, a point past the end giving empty parts.
    Points in order partition the rows; with the points out of order the
    middle part is empty and the rows between them are in both outer
    parts. *)
Theorem np_split_any_points (df : DataFrame) (i1 i2 : nat) :
  exists a b c,
    np_split df [Z.of_nat i1; Z.of_nat i2] = [a; b; c] /\
    columns a = columns df /\ columns b = columns df /\ columns c = columns df /\
    rows a = take i1 (rows df) /\
    rows b = take (i2 - i1) (drop i1 (rows df)) /\
    rows c = drop i2 (rows df) /\
    (i1 <= i2 -> rows a ++ rows b ++ rows c = rows df) /\
    (len df <= i1 -> a = df /\ rows b = [] /\ rows c = drop i2 (rows df)) /\
    (i2 < i1 -> rows b = [] /\
       rows a = take i2 (rows df) ++ take (i1 - i2) (drop i2 (rows df)) /\
       rows c = take (i1 - i2) (drop i2 (rows df)) ++ drop i1 (rows df)).
Proof.
  eexists _, _, _. split.
  { unfold np_split. cbn [app sections fmap list_fmap].
    change 0%Z with (Z.of_nat 0). rewrite !py_slice_clamped.
    rewrite drop_0, Nat.sub_0_r.
    rewrite (take_ge (drop i2 _)) by (rewrite length_drop; unfold len; lia).
    reflexivity. }
  cbn [columns rows]. repeat (split; [reflexivity|]).
  split; [|split].
  - intros H12.
    replace (drop i2 (rows df)) with (drop (i2 - i1) (drop i1 (rows df)))
      by (rewrite drop_drop; f_equal; lia).
    now rewrite !take_drop.
  - unfold len. intros Hn. rewrite (take_ge (rows df)) by exact Hn.
    rewrite (drop_ge _ i1) by exact Hn. rewrite take_nil.
    destruct df; now repeat split.
  - intros H21. replace (i2 - i1) with 0 by lia. rewrite take_0.
    split; [reflexivity|]. split.
    + replace i1 with (i2 + (i1 - i2)) at 1 by lia. now rewrite take_take_drop.
    + replace (drop i1 (rows df)) with (drop (i1 - i2) (drop i2 (rows df)))
        by (rewrite drop_drop; f_equal; lia).
      now rewrite take_drop.
Qed.

End SplitEdgeFacts.

(** ** Cell 66: when [get_score] returns, and what *)
Module ScoreFacts.
Import Metrics DuplicateFacts MetricsFacts.

Lemma unique_labels_spec (y_true y_pred : list Z) :
  NoDup (unique_labels y_true y_pred) /\
  Sorted Z.le (unique_labels y_true y_pred) /\
  forall x, x ∈ unique_labels y_true y_pred <-> x ∈ y_true ++ y_pred.
Proof.
  unfold unique_labels. split; [|split].
  - rewrite merge_sort_Permutation. apply NoDup_remove_dups.
  - apply Sorted_merge_sort. intros x y. lia.
  - intros x. rewrite merge_sort_Permutation. apply elem_of_remove_dups.
Qed.

(** the sorted labels depend on which labels occur only *)
Lemma unique_labels_ext (y_true y_pred y_true' y_pred' : list Z) :
  (forall x, x ∈ y_true ++ y_pred <-> x ∈ y_true' ++ y_pred') ->
  unique_labels y_true y_pred = unique_labels y_true' y_pred'.
Proof.
  intros H.
  destruct (unique_labels_spec y_true y_pred) as (N1 & S1 & E1).
  destruct (unique_labels_spec y_true' y_pred') as (N2 & S2 & E2).
  apply (Sorted_unique Z.le); try assumption; try apply _.
  apply NoDup_Permutation; try assumption.
  intros x. rewrite E1, E2. apply H.
Qed.

(** [get_score] returns exactly when the vectors have the same length
    and two labels occur, one of them 1; the four counts are then those of
    the sorted labels *)
Lemma get_score_cases (y_true y_pred : list Z) :
  (get_score y_true y_pred = None /\
   ¬ (length y_true = length y_pred /\
      length (unique_labels y_true y_pred) = 2 /\ 1%Z ∈ unique_labels y_true y_pred)) \/
  (exists a b,
     length y_true = length y_pred /\ length y_true ≠ 0 /\
     unique_labels y_true y_pred = [a; b] /\ (a = 1%Z \/ b = 1%Z) /\
     get_score y_true y_pred =
       Some (mkScores
               (prf_divide (count_pairs 1 1 y_true y_pred) (count_label 1 y_pred))
               (prf_divide (count_pairs 1 1 y_true y_pred) (count_label 1 y_true))
               (if decide (count_pairs 1 1 y_true y_pred = 0) then 0%Q
                else (2 * prf_divide (count_pairs 1 1 y_true y_pred) (count_label 1 y_pred)
                        * prf_divide (count_pairs 1 1 y_true y_pred) (count_label 1 y_true)
                      / (prf_divide (count_pairs 1 1 y_true y_pred) (count_label 1 y_pred)
                         + prf_divide (count_pairs 1 1 y_true y_pred) (count_label 1 y_true)))%Q)
               (Finite (inject_Z (Z.of_nat (hits y_true y_pred))
                        / inject_Z (Z.of_nat (length y_true)))%Q)
               (count_pairs a a y_true y_pred) (count_pairs a b y_true y_pred)
               (count_pairs b a y_true y_pred) (count_pairs b b y_true y_pred))).
Proof.
  unfold get_score, f1_score, precision_score, recall_score, accuracy_score,
    confusion_matrix, precision_recall_fscore.
  destruct (decide (length y_true = length y_pred)) as [Hlen|Hlen];
    [|left; split; [reflexivity|tauto]].
  pose proof (unique_labels_spec y_true y_pred) as (_ & _ & Hin).
  destruct (unique_labels y_true y_pred) as [|a [|b [|c L]]] eqn:E; cbn [length].
  - left. split; [|intros (_ & H & _); discriminate H].
    destruct (decide (2 < 0)) as [?|_]; [lia|].
    destruct (decide ((1%Z ∉ []) ∧ 2 ≤ 0)) as [[_ ?]|_]; [lia|].
    destruct (decide (length y_true = 0)); reflexivity.
  - left. split; [|intros (_ & H & _); discriminate H].
    destruct (decide (2 < 1)) as [?|_]; [lia|].
    destruct (decide ((1%Z ∉ [a]) ∧ 2 ≤ 1)) as [[_ ?]|_]; [lia|].
    destruct (decide (length y_true = 0)); reflexivity.
  - destruct (decide (2 < 2)) as [?|_]; [lia|].
    destruct (decide ((1%Z ∉ [a; b]) ∧ 2 ≤ 2)) as [[Hno _]|Hyes].
    + left. split; [reflexivity|]. intros (_ & _ & H1). contradiction.
    + right. exists a, b.
      assert (H1 : a = 1%Z \/ b = 1%Z).
      { destruct (decide (a = 1%Z)) as [|Ha]; [now left|].
        destruct (decide (b = 1%Z)) as [|Hb]; [now right|].
        exfalso. apply Hyes. split; [|lia].
        intros [?|[?|?%elem_of_nil]%elem_of_cons]%elem_of_cons; congruence. }
      assert (Hne : length y_true ≠ 0).
      { intros Hz. apply length_zero_iff_nil in Hz. subst y_true.
        symmetry in Hlen. apply length_zero_iff_nil in Hlen. subst y_pred.
        assert (Ha : a ∈ [a; b]) by left. apply Hin in Ha. now apply elem_of_nil in Ha. }
      split; [exact Hlen|]. split; [exact Hne|]. split; [reflexivity|]. split; [exact H1|].
      cbn [mbind option_bind fst snd].
      destruct (decide (length y_true = 0)) as [?|_]; [contradiction|]. reflexivity.
  - left. split; [|intros (_ & H & _); discriminate H].
    destruct (decide (2 < S (S (S (length L))))) as [_|?]; [|lia]. reflexivity.
Qed.

(** every observation is in one cell of the confusion matrix *)
Lemma counts_total (a b : Z) (y_true y_pred : list Z) :
  a ≠ b -> length y_true = length y_pred ->
  Forall (fun x => x = a \/ x = b) y_true -> Forall (fun x => x = a \/ x = b) y_pred ->
  count_pairs a a y_true y_pred + count_pairs a b y_true y_pred
    + count_pairs b a y_true y_pred + count_pairs b b y_true y_pred = length y_true.
Proof.
  intros Hab Hlen Ht. revert y_pred Hlen.
  induction Ht as [|t y_true Ht0 Ht IH]; intros [|p y_pred] Hlen Hp; try discriminate.
  - reflexivity.
  - injection Hlen as Hlen. apply Forall_cons in Hp as [Hp0 Hp].
    specialize (IH y_pred Hlen Hp).
    rewrite !count_pairs_cons. cbn [length].
    destruct Ht0 as [-> | ->], Hp0 as [-> | ->];
      repeat (destruct (decide _) as [?|?]; try congruence); lia.
Qed.




(** the two labels of vectors [get_score] accepts *)
Lemma two_labels (y_true y_pred : list Z) (a b : Z) :
  unique_labels y_true y_pred = [a; b] ->
  (a < b)%Z /\ forall x, x ∈ y_true ++ y_pred <-> x = a \/ x = b.
Proof.
  intros E. destruct (unique_labels_spec y_true y_pred) as (Hnd & Hs & Hin).
  rewrite E in Hnd, Hs, Hin. split.
  - apply NoDup_cons in Hnd as [Hab _].
    inversion Hs as [|? ? _ Hhd]; subst. inversion Hhd as [|? ? Hle]; subst.
    assert (a ≠ b) by (intros ->; apply Hab; left). lia.
  - intros x. rewrite <- Hin. rewrite !elem_of_cons, elem_of_nil. tauto.
Qed.

(** X13.  [get_score] returns exactly for vectors of the same length in
    which two labels occur, one of them 1; in every other case one of its
    calls raises.  The four counts it returns are taken from the matrix of
    the sorted labels, so that [tp] counts the agreements on the larger
    label and [tn] those on the smaller, whereas precision and recall are
    those of the label 1. *)
Theorem get_score_returns (y_true y_pred : list Z) :
  (is_Some (get_score y_true y_pred) <->
     length y_true = length y_pred /\
     exists l, l ≠ 1%Z /\ 1%Z ∈ y_true ++ y_pred /\ l ∈ y_true ++ y_pred /\
       forall x, x ∈ y_true ++ y_pred -> x = 1%Z \/ x = l) /\
  forall s, get_score y_true y_pred = Some s ->
    exists a b, (a < b)%Z /\ (a = 1%Z \/ b = 1%Z) /\
      (forall x, x ∈ y_true ++ y_pred <-> x = a \/ x = b) /\
      tn s = count_pairs a a y_true y_pred /\
      fp s = count_pairs a b y_true y_pred /\
      fn s = count_pairs b a y_true y_pred /\
      tp s = count_pairs b b y_true y_pred /\
      tn s + fp s + fn s + tp s = length y_true /\
      precision s = prf_divide (count_pairs 1 1 y_true y_pred) (count_label 1 y_pred) /\
      recall s = prf_divide (count_pairs 1 1 y_true y_pred) (count_label 1 y_true).
Proof.
  split.
  - destruct (get_score_cases y_true y_pred)
      as [[Hn Hno]|(a & b & Hlen & Hne & E & H1 & Hs)].
    + rewrite Hn. split; [intros [? [=]]|].
      intros (Hlen & l & Hl & H1 & Hin & Hall). exfalso. apply Hno.
      destruct (unique_labels_spec y_true y_pred) as (Hnd & _ & Hel).
      split; [exact Hlen|].
      destruct (two_elements (unique_labels y_true y_pred) 1%Z l Hnd) as [-> | ->].
      * intros x. rewrite Hel. split; [apply Hall|]. now intros [-> | ->].
      * congruence.
      * split; [reflexivity|left].
      * split; [reflexivity|right; left].
    + rewrite Hs. split; [|intros _; eexists; reflexivity]. intros _.
      split; [exact Hlen|].
      destruct (two_labels y_true y_pred a b E) as [Hab Hel].
      destruct H1 as [-> | ->].
      * exists b. split; [lia|]. repeat split.
        -- apply Hel. now left.
        -- apply Hel. now right.
        -- intros x. apply Hel.
      * exists a. split; [lia|]. repeat split.
        -- apply Hel. now right.
        -- apply Hel. now left.
        -- intros x Hx. apply Hel in Hx. tauto.
  - intros s Hs.
    destruct (get_score_cases y_true y_pred)
      as [[Hn _]|(a & b & Hlen & Hne & E & H1 & Hs')]; [congruence|].
    rewrite Hs' in Hs. injection Hs as <-.
    destruct (two_labels y_true y_pred a b E) as [Hab Hel].
    exists a, b. cbn [tn fp fn tp precision recall].
    repeat (split; [first [assumption|reflexivity]|]).
    split; [|split; reflexivity].
    assert (Hall : forall y, y ⊆ y_true ++ y_pred -> Forall (fun x => x = a \/ x = b) y).
    { intros y Hy. apply Forall_forall. intros x Hx. now apply Hel, Hy. }
    apply counts_total; [lia|exact Hlen| |].
    + apply Hall. intros x Hx. apply elem_of_app. now left.
    + apply Hall. intros x Hx. apply elem_of_app. now right.
Qed.

Lemma count_pairs_swap (a b : Z) (y_true y_pred : list Z) :
  count_pairs a b y_pred y_true = count_pairs b a y_true y_pred.
Proof.
  revert y_pred. induction y_true as [|t y_true IH]; intros [|p y_pred];
    try (unfold count_pairs; cbn [zip zip_with]; rewrite ?filter_nil; reflexivity).
  rewrite !count_pairs_cons, IH.
  destruct (decide ((p, t) = (a, b))) as [[= -> ->]|H1].
  - now rewrite decide_True.
  - rewrite decide_False; [reflexivity|]. intros [= -> ->]. now apply H1.
Qed.

Lemma hits_swap (y_true y_pred : list Z) : hits y_pred y_true = hits y_true y_pred.
Proof.
  revert y_pred. induction y_true as [|t y_true IH]; intros [|p y_pred];
    try (unfold hits; cbn [zip zip_with]; rewrite ?filter_nil; reflexivity).
  rewrite !hits_cons, IH.
  destruct (decide (p = t)) as [->|H1].
  - now rewrite decide_True.
  - rewrite decide_False; [reflexivity|]. intros ->. now apply H1.
Qed.

(** X14.  Exchanging the two arguments of [get_score] exchanges precision
    with recall and false positives with false negatives, and leaves F1,
    accuracy, true positives and true negatives as they are. *)
Theorem get_score_swapped (y_true y_pred : list Z) (s : scores) :
  get_score y_true y_pred = Some s ->
  exists s', get_score y_pred y_true = Some s' /\
    precision s' = recall s /\ recall s' = precision s /\ (f1 s' == f1 s)%Q /\
    accuracy s' = accuracy s /\
    tp s' = tp s /\ tn s' = tn s /\ fp s' = fn s /\ fn s' = fp s.
Proof.
  intros Hs.
  destruct (get_score_cases y_true y_pred)
    as [[Hn _]|(a & b & Hlen & Hne & E & H1 & Hs1)]; [congruence|].
  rewrite Hs1 in Hs. injection Hs as <-.
  assert (E' : unique_labels y_pred y_true = [a; b]).
  { rewrite <- E. apply unique_labels_ext. intros x. rewrite !elem_of_app. tauto. }
  destruct (get_score_cases y_pred y_true)
    as [[_ Hno]|(a' & b' & Hlen' & Hne' & E2 & H1' & Hs2)].
  { exfalso. apply Hno. rewrite E'. split; [now symmetry|]. split; [reflexivity|].
    destruct H1 as [-> | ->]; [left|right; left]. }
  rewrite E' in E2. injection E2 as <- <-.
  eexists. split; [exact Hs2|].
  cbn [precision recall f1 accuracy tp tn fp fn].
  rewrite !(count_pairs_swap _ _ y_true y_pred), hits_swap, <- Hlen.
  repeat (split; [reflexivity|]).
  split; [|repeat split; reflexivity].
  destruct (decide (count_pairs 1 1 y_true y_pred = 0)); [reflexivity|].
  set (p := prf_divide _ (count_label 1 y_pred)). set (r := prf_divide _ (count_label 1 y_true)).
  unfold Qdiv. setoid_replace (r + p)%Q with (p + r)%Q using relation Qeq by ring. ring.
Qed.

Lemma get_score_swapped_witness :
  exists s', get_score [1; 0; 0; 1; 1; 0]%Z [1; 0; 1; 1; 0; 0]%Z = Some s' /\
    precision s' = (2 # 3)%Q /\ fp s' = 1.
Proof.
  destruct (get_score_swapped [1; 0; 1; 1; 0; 0]%Z [1; 0; 0; 1; 1; 0]%Z _ eq_refl)
    as (s' & Hs & Hp & _ & _ & _ & _ & _ & Hfp & _).
  exists s'. split; [exact Hs|]. split; [exact Hp|exact Hfp].
Defined.

Local Open Scope Q_scope.









Local Close Scope Q_scope.






End ScoreFacts.

(** ** Cell 65: [np.round] as a rounding *)
Module RoundFacts.
Import Threshold Metrics ThresholdFacts MetricsFacts.
Local Open Scope Q_scope.

Lemma inject_succ (z : Z) : inject_Z (z + 1) == inject_Z z + 1.
Proof. rewrite inject_Z_plus. reflexivity. Qed.

Lemma np_round_within_half (s : Q) :
  inject_Z (np_round s) - (1 # 2) <= s <= inject_Z (np_round s) + (1 # 2).
Proof.
  destruct (floor_bounds s) as [Flo Fhi]. rewrite inject_succ in Fhi.
  destruct (np_round_cases s) as [[D ->]|[[D ->]|[D ->]]].
  - split; lra.
  - rewrite inject_succ. split; lra.
  - destruct (Z.even (Qfloor s)); [|rewrite inject_succ]; split; lra.
Qed.

(** an integer strictly within a half of [s] is what [s] rounds to *)
Lemma np_round_strict (s : Q) (z : Z) :
  inject_Z z - (1 # 2) < s -> s < inject_Z z + (1 # 2) -> np_round s = z.
Proof.
  intros Hlo Hhi. destruct (Qlt_le_dec s (inject_Z z)) as [Hlt|Hge].
  - assert (Hf : Qfloor s = (z - 1)%Z).
    { apply floor_unique.
      - replace (z - 1)%Z with (z + -1)%Z by lia. rewrite inject_Z_plus.
        change (inject_Z (-1)) with (-1 # 1). lra.
      - replace (z - 1 + 1)%Z with z by lia. exact Hlt. }
    destruct (np_round_cases s) as [[D E]|[[D E]|[D E]]]; cbv zeta in *;
      rewrite Hf in D, E; rewrite E;
      replace (z - 1)%Z with (z + -1)%Z in D by lia; rewrite inject_Z_plus in D;
      change (inject_Z (-1)) with (-1 # 1) in D; try lia; exfalso; lra.
  - assert (Hf : Qfloor s = z).
    { apply floor_unique; [exact Hge|]. rewrite inject_succ. lra. }
    destruct (np_round_cases s) as [[D E]|[[D E]|[D E]]]; cbv zeta in *;
      rewrite Hf in D, E; rewrite E; try reflexivity; exfalso; lra.
Qed.

(** half-way between two integers the even one is taken *)
Lemma np_round_tie (s : Q) (z : Z) :
  s == inject_Z z + (1 # 2) -> np_round s = if Z.even z then z else (z + 1)%Z.
Proof.
  intros Hs.
  assert (Hf : Qfloor s = z).
  { apply floor_unique; [lra|]. rewrite inject_succ. lra. }
  destruct (np_round_cases s) as [[D E]|[[D E]|[D E]]]; cbv zeta in *;
    rewrite Hf in D, E; rewrite E; try reflexivity; exfalso; lra.
Qed.

Lemma np_round_opp (s : Q) : np_round (- s) = (- np_round s)%Z.
Proof.
  destruct (np_round_within_half s) as [Hlo Hhi].
  set (r := np_round s) in *.
  destruct (Qlt_le_dec (inject_Z r - (1 # 2)) s) as [Hlo'|Hlo'].
  - destruct (Qlt_le_dec s (inject_Z r + (1 # 2))) as [Hhi'|Hhi'].
    + apply np_round_strict; rewrite inject_Z_opp; lra.
    + assert (Hs : s == inject_Z r + (1 # 2)) by lra.
      pose proof (np_round_tie s r Hs) as Ht. fold r in Ht.
      assert (He : Z.even r = true) by (destruct (Z.even r); [reflexivity|lia]).
      assert (Ho : - s == inject_Z (- r - 1) + (1 # 2)).
      { replace (- r - 1)%Z with (- r + -1)%Z by lia. rewrite inject_Z_plus, inject_Z_opp.
        change (inject_Z (-1)) with (-1 # 1). lra. }
      rewrite (np_round_tie _ _ Ho).
      replace (- r - 1)%Z with (- (r + 1))%Z by lia.
      rewrite Z.even_opp, Z.even_add, He. cbn. lia.
  - assert (Hs : s == inject_Z (r - 1) + (1 # 2)).
    { replace (r - 1)%Z with (r + -1)%Z by lia. rewrite inject_Z_plus.
      change (inject_Z (-1)) with (-1 # 1). lra. }
    pose proof (np_round_tie s _ Hs) as Ht. fold r in Ht.
    assert (He : Z.even (r - 1) = false) by (destruct (Z.even (r - 1)); [lia|reflexivity]).
    assert (Ho : - s == inject_Z (- r) + (1 # 2)).
    { rewrite inject_Z_opp. replace (r - 1)%Z with (r + -1)%Z in Hs by lia.
      rewrite inject_Z_plus in Hs. change (inject_Z (-1)) with (-1 # 1) in Hs. lra. }
    rewrite (np_round_tie _ _ Ho). rewrite Z.even_opp.
    replace r with (r - 1 + 1)%Z at 1 by lia. rewrite Z.even_add, He. cbn. reflexivity.
Qed.

(** X16.  [np.round] takes a score to a nearest integer: the result is
    within a half of the score, an integer strictly within a half of the
    score is the result, and a score half-way between two integers goes to
    the even one, so that 0.5 becomes 0 and 1.5 becomes 2.  Integers are
    left as they are, and rounding commutes with negation. *)
Theorem np_round_nearest_even (s : Q) :
  (inject_Z (np_round s) - (1 # 2) <= s <= inject_Z (np_round s) + (1 # 2)) /\
  (forall z, inject_Z z - (1 # 2) < s -> s < inject_Z z + (1 # 2) -> np_round s = z) /\
  (forall z, s == inject_Z z + (1 # 2) ->
     np_round s = (if Z.even z then z else (z + 1)%Z) /\ Z.even (np_round s) = true) /\
  (forall z, np_round (inject_Z z) = z) /\
  np_round (- s) = (- np_round s)%Z.
Proof.
  split; [apply np_round_within_half|]. split; [apply np_round_strict|].
  split; [|split; [|apply np_round_opp]].
  - intros z Hs. split; [now apply np_round_tie|].
    rewrite (np_round_tie s z Hs). destruct (Z.even z) eqn:E; [exact E|].
    rewrite Z.even_add, E. reflexivity.
  - intros z. apply np_round_strict; lra.
Qed.

(** the label of a probability *)
Lemma np_round_probability (s : Q) :
  0 <= s <= 1 -> np_round s = if Qlt_le_dec (1 # 2) s then 1%Z else 0%Z.
Proof.
  intros [H0 H1]. destruct (Qlt_le_dec (1 # 2) s) as [Hgt|Hle].
  - apply np_round_strict; change (inject_Z 1) with 1; lra.
  - destruct (Qlt_le_dec s (1 # 2)) as [Hlt|Hge].
    + apply np_round_strict; change (inject_Z 0) with 0; lra.
    + assert (Hs : s == inject_Z 0 + (1 # 2)) by (change (inject_Z 0) with 0; lra).
      now rewrite (np_round_tie s 0 Hs).
Qed.

End RoundFacts.

(** ** Cells 65 and 66: evaluating thresholded probabilities *)
Module EvaluateFacts.
Import Threshold Metrics Evaluate Report ThresholdFacts MetricsFacts DuplicateFacts.
Import ScoreFacts RoundFacts.

Lemma pred_y_probabilities (scores : list Q) :
  Forall probability scores ->
  pred_y scores = (fun s => if above_half s then 1%Z else 0%Z) <$> scores.
Proof.
  intros H. unfold pred_y. apply Forall_fmap_ext. eapply Forall_impl; [exact H|].
  intros s Hs. rewrite (np_round_probability s Hs). unfold above_half.
  now destruct (Qlt_le_dec (1 # 2) s).
Qed.

Lemma pred_y_binary (scores : list Q) : Forall probability scores -> binary (pred_y scores).
Proof.
  intros H. rewrite (pred_y_probabilities scores H). unfold binary.
  apply Forall_fmap, Forall_forall. intros s _. cbn. destruct (above_half s); auto.
Qed.

Lemma count_above_half (scores : list Q) :
  count_label 1 ((fun s => if above_half s then 1%Z else 0%Z) <$> scores)
  = length (filter (fun s => above_half s = true) scores).
Proof.
  induction scores as [|s scores IH]; [reflexivity|].
  cbn [fmap list_fmap]. rewrite count_label_cons, filter_cons, IH.
  destruct (above_half s).
  - rewrite !decide_True by reflexivity. reflexivity.
  - rewrite !decide_False by discriminate. reflexivity.
Qed.

(** X17.  Evaluating thresholded probabilities.  The predicted labels are
    0 and 1, one per score, 1 exactly for the scores above 0.5.  Against
    true labels of the same length in which both classes occur,
    [get_score] returns: the four counts add up to the number of rows
    scored, true and false positives to the number of scores above 0.5,
    and true positives and false negatives to the number of churners. *)
Theorem evaluate_probabilities (test_y : list Z) (batch_output : list Q) :
  Forall probability batch_output -> binary test_y ->
  length test_y = length batch_output -> 0%Z ∈ test_y -> 1%Z ∈ test_y ->
  binary (pred_y batch_output) /\
  length (pred_y batch_output) = length batch_output /\
  pred_y batch_output = (fun s => if above_half s then 1%Z else 0%Z) <$> batch_output /\
  exists s, evaluate test_y batch_output = Some s /\
    tp s = count_pairs 1 1 test_y (pred_y batch_output) /\
    fp s = count_pairs 0 1 test_y (pred_y batch_output) /\
    fn s = count_pairs 1 0 test_y (pred_y batch_output) /\
    tn s = count_pairs 0 0 test_y (pred_y batch_output) /\
    tn s + fp s + fn s + tp s = length batch_output /\
    tp s + fp s = length (filter (fun s => above_half s = true) batch_output) /\
    tp s + fn s = count_label 1 test_y.
Proof.
  intros Hprob Hbin Hlen H0 H1.
  pose proof (pred_y_binary batch_output Hprob) as Hpb.
  pose proof (pred_y_probabilities batch_output Hprob) as Hpred.
  assert (Hlen' : length test_y = length (pred_y batch_output)).
  { unfold pred_y. now rewrite length_fmap. }
  split; [exact Hpb|]. split; [unfold pred_y; apply length_fmap|]. split; [exact Hpred|].
  assert (E : unique_labels test_y (pred_y batch_output) = [0%Z; 1%Z]).
  { apply unique_labels_binary; try assumption; apply elem_of_app; now left. }
  destruct (counts_split test_y (pred_y batch_output) Hlen' Hbin Hpb) as (C1 & C2 & _ & C4).
  unfold evaluate.
  destruct (get_score_cases test_y (pred_y batch_output))
    as [[_ Hno]|(a & b & _ & _ & E' & _ & Hs)].
  { exfalso. apply Hno. rewrite E. split; [exact Hlen'|]. split; [reflexivity|right; left]. }
  rewrite E in E'. injection E' as <- <-.
  eexists. split; [exact Hs|]. cbn [tp fp fn tn].
  repeat (split; [reflexivity|]).
  split; [lia|]. split; [|lia].
  rewrite <- C1. rewrite Hpred at 1. apply count_above_half.
Qed.

Lemma evaluate_probabilities_witness :
  exists s, evaluate [1; 0; 1]%Z [9 # 10; 1 # 2; 2 # 10]%Q = Some s /\
    tp s = 1 /\ fn s = 1 /\ tn s = 1 /\ fp s = 0.
Proof.
  destruct (evaluate_probabilities [1; 0; 1]%Z [9 # 10; 1 # 2; 2 # 10]%Q)
    as (_ & _ & _ & s & Hs & Htp & Hfp & Hfn & Htn & _).
  - repeat (constructor; [split; lra|]). constructor.
  - repeat (constructor; [(now left) || (now right)|]). constructor.
  - reflexivity.
  - right; left.
  - left.
  - exists s. split; [exact Hs|]. rewrite Htp, Hfn, Htn, Hfp. repeat split; reflexivity.
Defined.

(** X18.  The series cell 67 prints.  Whenever [get_score] returns, the
    tuple is unpacked, listed again with the four counts in another order
    and labelled; each of the five labels printed stands next to the
    value of that name.  Cell 67 prints nothing when [get_score] raises. *)
Theorem report_labels (test_y pred_y : list Z) :
  (report test_y pred_y = None <-> get_score test_y pred_y = None) /\
  forall s, get_score test_y pred_y = Some s ->
    report test_y pred_y
    = Some [("accuracy", Mean (accuracy s)); ("tp", Count (tp s)); ("fp", Count (fp s));
            ("tn", Count (tn s)); ("fn", Count (fn s))].
Proof.
  assert (H : forall s, get_score test_y pred_y = Some s ->
            report test_y pred_y
            = Some [("accuracy", Mean (accuracy s)); ("tp", Count (tp s));
                    ("fp", Count (fp s)); ("tn", Count (tn s)); ("fn", Count (fn s))]).
  { intros s Hs. unfold report. rewrite Hs. reflexivity. }
  split; [|exact H].
  destruct (get_score test_y pred_y) as [s|] eqn:Hs.
  - rewrite (H s eq_refl). split; discriminate.
  - unfold report. rewrite Hs. split; reflexivity.
Qed.

(** the counts of a permuted pairing *)
Lemma count_pairs_Permutation (a b : Z) (y_true y_pred y_true' y_pred' : list Z) :
  zip y_true' y_pred' ≡ₚ zip y_true y_pred ->
  count_pairs a b y_true' y_pred' = count_pairs a b y_true y_pred.
Proof. intros H. unfold count_pairs. now rewrite H. Qed.

Lemma hits_Permutation (y_true y_pred y_true' y_pred' : list Z) :
  zip y_true' y_pred' ≡ₚ zip y_true y_pred -> hits y_true' y_pred' = hits y_true y_pred.
Proof. intros H. unfold hits. now rewrite H. Qed.

Lemma count_label_Permutation (l : Z) (y y' : list Z) :
  y' ≡ₚ y -> count_label l y' = count_label l y.
Proof. intros H. unfold count_label. now rewrite H. Qed.

(** X19.  The scores do not depend on the order of the observations:
    permuting the true labels and the predictions in the same way leaves
    the result of [get_score] as it is, an exception included. *)
Theorem get_score_permuted (y_true y_pred y_true' y_pred' : list Z) :
  length y_true = length y_pred -> length y_true' = length y_pred' ->
  zip y_true' y_pred' ≡ₚ zip y_true y_pred ->
  get_score y_true' y_pred' = get_score y_true y_pred.
Proof.
  intros Hlen Hlen' Hp.
  assert (Ht : y_true' ≡ₚ y_true).
  { rewrite <- (fst_zip y_true' y_pred'), <- (fst_zip y_true y_pred) by lia. now rewrite Hp. }
  assert (Hy : y_pred' ≡ₚ y_pred).
  { rewrite <- (snd_zip y_true' y_pred'), <- (snd_zip y_true y_pred) by lia. now rewrite Hp. }
  assert (E : unique_labels y_true' y_pred' = unique_labels y_true y_pred).
  { apply unique_labels_ext. intros x. now rewrite Ht, Hy. }
  assert (Hl : length y_true' = length y_true) by now rewrite Ht.
  destruct (get_score_cases y_true y_pred)
    as [[Hn Hno]|(a & b & _ & _ & E1 & H1 & Hs)];
    destruct (get_score_cases y_true' y_pred')
      as [[Hn' Hno']|(a' & b' & _ & _ & E1' & H1' & Hs')].
  - congruence.
  - exfalso. apply Hno. rewrite <- E, E1'. split; [exact Hlen|]. split; [reflexivity|].
    destruct H1' as [-> | ->]; [left|right; left].
  - exfalso. apply Hno'. rewrite E, E1. split; [exact Hlen'|]. split; [reflexivity|].
    destruct H1 as [-> | ->]; [left|right; left].
  - rewrite E, E1 in E1'. injection E1' as <- <-.
    rewrite Hs, Hs'.
    rewrite !(count_pairs_Permutation _ _ y_true y_pred y_true' y_pred' Hp).
    rewrite (hits_Permutation y_true y_pred y_true' y_pred' Hp).
    rewrite (count_label_Permutation 1 _ _ Ht), (count_label_Permutation 1 _ _ Hy), Hl.
    reflexivity.
Qed.

Lemma get_score_permuted_witness :
  get_score [0; 1; 1]%Z [1; 1; 0]%Z = get_score [1; 0; 1]%Z [1; 1; 0]%Z.
Proof.
  apply get_score_permuted; [reflexivity|reflexivity|].
  cbn [zip zip_with]. apply perm_swap.
Defined.

End EvaluateFacts.

(** ** Cells 36 to 72: where the files are put and where they are looked for *)
Module PathFacts.
Import Stdlib.Strings.Ascii.
Import Paths.

Lemma append_cons (x : ascii) (a b : string) : String x a +:+ b = String x (a +:+ b).
Proof. reflexivity. Qed.

Lemma append_assoc (a b c : string) : (a +:+ b) +:+ c = a +:+ (b +:+ c).
Proof. induction a as [|x a IH]; [reflexivity|]. rewrite !append_cons. now rewrite IH. Qed.

Lemma append_nil_r (a : string) : a +:+ EmptyString = a.
Proof. induction a as [|x a IH]; [reflexivity|]. rewrite append_cons. now rewrite IH. Qed.

Lemma join_step_relative (path b : string) :
  starts_with_sep b = false -> path ≠ EmptyString -> ends_with_sep path = false ->
  join_step path b = path +:+ "/" +:+ b.
Proof.
  intros Hb Hp He. unfold join_step. rewrite Hb, He.
  now rewrite bool_decide_eq_false_2.
Qed.

Lemma ends_with_sep_append (a : string) (c : ascii) (b : string) :
  ends_with_sep (a +:+ String c b) = ends_with_sep (String c b).
Proof.
  induction a as [|x a IH]; [reflexivity|].
  rewrite append_cons. change (ends_with_sep (String x (a +:+ String c b)))
    with (match a +:+ String c b with
          | EmptyString => bool_decide (x = "/"%char)
          | _ => ends_with_sep (a +:+ String c b)
          end).
  destruct (a +:+ String c b) eqn:E; [destruct a; discriminate E|].
  exact IH.
Qed.


Section Locations.
Variables bucket prefix : string.

Lemma s3_input_train_eq :
  s3_input_train bucket prefix = Some ("s3://" +:+ bucket +:+ "/" +:+ prefix +:+ "/train").
Proof. reflexivity. Qed.

Lemma s3_input_validation_eq :
  s3_input_validation bucket prefix
  = Some ("s3://" +:+ bucket +:+ "/" +:+ prefix +:+ "/validation/").
Proof. reflexivity. Qed.

Lemma s3_batch_input_eq :
  s3_batch_input bucket prefix
  = Some ("s3://" +:+ bucket +:+ "/" +:+ prefix +:+ "/batch/test_data_Batch.csv").
Proof. reflexivity. Qed.

Lemma s3_batch_output_eq :
  s3_batch_output bucket prefix
  = Some ("s3://" +:+ bucket +:+ "/" +:+ prefix +:+ "/batch/batch-inference").
Proof. reflexivity. Qed.

Lemma batch_output_eq :
  batch_output bucket prefix
  = Some ("s3://" +:+ bucket +:+ "/" +:+ prefix
            +:+ "/batch/batch-inference/test_data_Batch.csv.out").
Proof. reflexivity. Qed.

Lemma object_uri_eq (k : string) :
  object_uri bucket k = Some ("s3://" +:+ bucket +:+ "/" +:+ k).
Proof.
  unfold object_uri. change (format "s3://{}/{}" [bucket; k])
    with (Some ("s3://" +:+ bucket +:+ "/" +:+ k +:+ EmptyString)).
  now rewrite append_nil_r.
Qed.

(** the key of a file uploaded under a folder of the prefix *)
Lemma key_cases (b : string) :
  starts_with_sep b = false ->
  (prefix ≠ EmptyString /\ ends_with_sep prefix = false /\
   path_join prefix [b] = prefix +:+ "/" +:+ b) \/
  ((prefix = EmptyString \/ ends_with_sep prefix = true) /\
   path_join prefix [b] = prefix +:+ b).
Proof.
  intros Hb. unfold path_join. cbn [foldl]. unfold join_step. rewrite Hb.
  destruct (bool_decide_reflect (prefix = EmptyString)) as [He|He]; cbn [orb].
  - right. split; [now left|reflexivity].
  - destruct (ends_with_sep prefix) eqn:Hs.
    + right. split; [now right|reflexivity].
    + left. now repeat split.
Qed.

(** whether the object with key [path_join prefix [folder/name]] has the
    URI [s3://bucket/prefix/folder/name] *)
Lemma uri_under_prefix (b : string) :
  starts_with_sep b = false ->
  object_uri bucket (path_join prefix [b])
    = Some ("s3://" +:+ bucket +:+ "/" +:+ prefix +:+ "/" +:+ b)
  <-> prefix ≠ EmptyString /\ ends_with_sep prefix = false.
Proof.
  intros Hb. rewrite object_uri_eq.
  destruct (key_cases b Hb) as [(Hne & Hs & ->)|[Hbad ->]].
  - split; [tauto|reflexivity].
  - split; [|intros [Hne Hs]; destruct Hbad; congruence].
    intros [= H]. exfalso.
    apply (inj (String.append bucket)) in H. apply (inj (String.append "/")) in H.
    apply (inj (String.append prefix)) in H.
    destruct b as [|c b]; [discriminate H|].
    injection H as -> _. discriminate Hb.
Qed.

(** X21.  Where the files go and where the jobs look for them.  The
    training channel, the validation channel and the batch input name
    the objects cell 36 and cell 58 upload exactly when the prefix is not
    empty and does not end with a separator: [os.path.join] then puts one
    separator where the format strings have one, and none or two
    otherwise.  The file cell 63 reads lies in the output folder of the
    transform job under the name of the input with [.out] added, and that
    file, not the folder, is the output path the second job is given. *)
Theorem upload_locations :
  exists train validation input output out,
    s3_input_train bucket prefix = Some train /\
    s3_input_validation bucket prefix = Some validation /\
    s3_batch_input bucket prefix = Some input /\
    batch_input bucket prefix = Some input /\
    s3_batch_output bucket prefix = Some output /\
    batch_output bucket prefix = Some out /\
    out = output +:+ "/" +:+ "test_data_Batch.csv" +:+ ".out" /\
    out ≠ output /\
    (object_uri bucket (train_key prefix) = Some (train +:+ "/" +:+ "train.csv")
       <-> prefix ≠ EmptyString /\ ends_with_sep prefix = false) /\
    (object_uri bucket (validation_key prefix) = Some (validation +:+ "validation.csv")
       <-> prefix ≠ EmptyString /\ ends_with_sep prefix = false) /\
    (object_uri bucket (batch_key prefix) = Some input
       <-> prefix ≠ EmptyString /\ ends_with_sep prefix = false) /\
    (model_url bucket prefix
       = Some ("s3://" +:+ bucket +:+ "/" +:+ prefix +:+ "/" +:+ model_file_name
                 +:+ "/" +:+ "model.tar.gz")
       <-> prefix ≠ EmptyString /\ ends_with_sep prefix = false).
Proof.
  eexists _, _, _, _, _.
  split; [apply s3_input_train_eq|]. split; [apply s3_input_validation_eq|].
  split; [apply s3_batch_input_eq|]. split; [apply s3_batch_input_eq|].
  split; [apply s3_batch_output_eq|]. split; [apply batch_output_eq|].
  split; [now rewrite !append_assoc|].
  split.
  { intros H. apply (inj (String.append "s3://")), (inj (String.append bucket)) in H.
    apply (inj (String.append "/")), (inj (String.append prefix)) in H. discriminate H. }
  split; [|split; [|split]].
  - rewrite <- (uri_under_prefix "train/train.csv" eq_refl).
    unfold train_key. now rewrite !append_assoc.
  - rewrite <- (uri_under_prefix "validation/validation.csv" eq_refl).
    unfold validation_key. now rewrite !append_assoc.
  - rewrite <- (uri_under_prefix "batch/test_data_Batch.csv" eq_refl).
    unfold batch_key. reflexivity.
  - unfold model_url, key.
    change (path_join prefix [model_file_name; "model.tar.gz"])
      with (join_step (path_join prefix [model_file_name]) "model.tar.gz").
    rewrite object_uri_eq.
    destruct (key_cases model_file_name eq_refl) as [(Hne & Hs & ->)|[Hbad ->]].
    + split; [tauto|intros _].
      assert (E : join_step (prefix +:+ "/" +:+ model_file_name) "model.tar.gz"
                  = (prefix +:+ "/" +:+ model_file_name) +:+ "/" +:+ "model.tar.gz").
      { apply join_step_relative; [reflexivity| |].
        - destruct prefix; [congruence|discriminate].
        - apply ends_with_sep_append. }
      rewrite E. now rewrite !append_assoc.
    + split; [|intros [Hne Hs]; destruct Hbad; congruence].
      assert (E : join_step (prefix +:+ model_file_name) "model.tar.gz"
                  = (prefix +:+ model_file_name) +:+ "/" +:+ "model.tar.gz").
      { apply join_step_relative; [reflexivity| |].
        - unfold model_file_name. destruct prefix; discriminate.
        - apply ends_with_sep_append. }
      rewrite E. intros [= H]. exfalso.
      apply (inj (String.append bucket)), (inj (String.append "/")) in H.
      rewrite !append_assoc in H. apply (inj (String.append prefix)) in H. discriminate H.
Qed.

End Locations.
End PathFacts.

(** ** "Run All": which names can be undefined *)
Module ScopeFacts.
Import Notebook Scope NotebookFacts.

Lemma scan_stmt_Simple (known : list string) (code : list event) (stores : list string) :
  scan_stmt known (Simple code stores) = (uncovered known code, stores ++ known).
Proof. reflexivity. Qed.

Lemma scan_local (known : list string) (p : list stmt) :
  (fix scan (known : list string) (p : list stmt) {struct p} : list string * list string :=
     match p with
     | [] => ([], known)
     | s :: p =>
         let r := scan_stmt known s in
         let r' := scan r.2 p in
         (r.1 ++ r'.1, r'.2)
     end) known p = scan known p.
Proof.
  revert known. induction p as [|s p IH]; intros known; [reflexivity|].
  cbn [scan]. rewrite <- IH. reflexivity.
Qed.

Lemma scan_stmt_For (known : list string) (target : string) (iter : list event)
    (body : list stmt) :
  scan_stmt known (For target iter body)
  = (uncovered known iter ++ (scan (target :: known) body).1, known).
Proof. cbn [scan_stmt]. now rewrite scan_local. Qed.

Lemma scan_stmt_If (known : list string) (cond : list event) (body : list stmt) :
  scan_stmt known (If cond body) = (uncovered known cond ++ (scan known body).1, known).
Proof. cbn [scan_stmt]. now rewrite scan_local. Qed.

Lemma scan_cons (known : list string) (s : stmt) (p : list stmt) :
  scan known (s :: p)
  = ((scan_stmt known s).1 ++ (scan (scan_stmt known s).2 p).1,
     (scan (scan_stmt known s).2 p).2).
Proof. reflexivity. Qed.

(** an unbound load is one the known names do not cover *)
Lemma eval_uncovered (E : env) (known : list string) (code : list event) (x : string) :
  (forall y, y ∈ known -> y ∈ E) ->
  eval E code (Some (NameError x)) -> x ∈ uncovered known code.
Proof.
  intros Hk H. remember (Some (NameError x)) as r eqn:Hr.
  induction H as [|y k Hy|y k r Hy H IH| |k r H IH]; try discriminate.
  - injection Hr as ->. unfold uncovered. apply list_elem_of_filter. split.
    + intros Hin. apply Hy, Hk, Hin.
    + unfold loaded. rewrite bind_cons. apply elem_of_app. left. left.
  - specialize (IH Hr). unfold uncovered in *. apply list_elem_of_filter in IH as [H1 H2].
    apply list_elem_of_filter. split; [exact H1|].
    unfold loaded in *. rewrite bind_cons. apply elem_of_app. now right.
  - specialize (IH Hr). unfold uncovered, loaded in *. now rewrite bind_cons.
Qed.

(** Soundness of the pass: an execution from a namespace that holds the
    known names raises [NameError] only for an uncovered load, keeps the
    known names bound, and, when it completes, has bound the names the
    pass reports. *)
Lemma exec_scan (E E' : env) (p : list stmt) (o : outcome) :
  exec E p E' o ->
  forall known, (forall y, y ∈ known -> y ∈ E) ->
    (forall x, o = Raised (NameError x) -> x ∈ (scan known p).1) /\
    (o = Completed -> forall y, y ∈ (scan known p).2 -> y ∈ E') /\
    (forall y, y ∈ known -> y ∈ E').
Proof.
  induction 1 as
    [E
    |E code stores rest e He
    |E code stores stored rest He Hpre
    |E code stores rest E' o He Hrest IH
    |E cond body rest e He
    |E cond body rest E' o He Hrest IH
    |E cond body rest E1 e He Hbody IH
    |E cond body rest E1 E' o He Hbody IHb Hrest IHr
    |E target iter body rest e He
    |E target iter body rest E' o He Hrest IH
    |E target iter body rest E1 e He Hbody IH
    |E target iter body rest E1 E' o He Hbody IHb Hrest IHr];
    intros known Hk; rewrite ?scan_cons, ?scan_stmt_Simple, ?scan_stmt_If, ?scan_stmt_For;
    cbn [fst snd].
  - split; [discriminate|]. split; [intros _ y Hy; now apply Hk|exact Hk].
  - split; [|split; [discriminate|exact Hk]].
    intros x [= ->]. apply elem_of_app. left. eapply eval_uncovered; eauto.
  - split; [discriminate|]. split; [discriminate|].
    intros y Hy. apply elem_of_union. left. now apply Hk.
  - destruct (IH (stores ++ known)) as (I1 & I2 & I3).
    { intros y [Hy|Hy]%elem_of_app; apply elem_of_union.
      - right. now apply elem_of_list_to_set.
      - left. now apply Hk. }
    split; [|split; [exact I2|]].
    + intros x Hx. apply elem_of_app. right. now apply I1.
    + intros y Hy. apply I3, elem_of_app. now right.
  - split; [|split; [discriminate|exact Hk]].
    intros x [= ->]. apply elem_of_app. left. apply elem_of_app. left.
    eapply eval_uncovered; eauto.
  - destruct (IH known Hk) as (I1 & I2 & I3).
    split; [|split; [exact I2|exact I3]].
    intros x Hx. apply elem_of_app. right. now apply I1.
  - destruct (IH known Hk) as (I1 & _ & I3).
    split; [|split; [discriminate|exact I3]].
    intros x Hx. apply elem_of_app. left. apply elem_of_app. right. now apply I1.
  - destruct (IHb known Hk) as (_ & _ & B3).
    destruct (IHr known B3) as (I1 & I2 & I3).
    split; [|split; [exact I2|exact I3]].
    intros x Hx. apply elem_of_app. right. now apply I1.
  - split; [|split; [discriminate|exact Hk]].
    intros x [= ->]. apply elem_of_app. left. apply elem_of_app. left.
    eapply eval_uncovered; eauto.
  - destruct (IH known Hk) as (I1 & I2 & I3).
    split; [|split; [exact I2|exact I3]].
    intros x Hx. apply elem_of_app. right. now apply I1.
  - destruct (IH (target :: known)) as (I1 & _ & I3).
    { intros y [->|Hy]%elem_of_cons; apply elem_of_union.
      - right. now apply elem_of_singleton.
      - left. now apply Hk. }
    split; [|split; [discriminate|]].
    + intros x Hx. apply elem_of_app. left. apply elem_of_app. right. now apply I1.
    + intros y Hy. apply I3. now right.
  - destruct (IHb (target :: known)) as (_ & _ & B3).
    { intros y [->|Hy]%elem_of_cons; apply elem_of_union.
      - right. now apply elem_of_singleton.
      - left. now apply Hk. }
    assert (Hk1 : forall y, y ∈ known -> y ∈ E1) by (intros y Hy; apply B3; now right).
    specialize (IHr known Hk1).
    rewrite scan_cons, scan_stmt_For in IHr. cbn [fst snd] in IHr. exact IHr.
Qed.

(** a top-to-bottom run is an execution of the cells' statements in
    sequence *)
Lemma exec_app_raise (E E' : env) (p q : list stmt) (e : exn) :
  exec E p E' (Raised e) -> exec E (p ++ q) E' (Raised e).
Proof.
  intros H. remember (Raised e) as o eqn:Ho. revert Ho.
  induction H; intros Ho; try discriminate Ho; cbn [app];
    try (injection Ho as <-); solve [econstructor; eauto].
Qed.

Lemma exec_app_completed (E E1 E' : env) (p q : list stmt) (o : outcome) :
  exec E p E1 Completed -> exec E1 q E' o -> exec E (p ++ q) E' o.
Proof.
  intros H. remember Completed as c eqn:Hc. revert Hc.
  induction H; intros Hc Hq; try discriminate Hc; cbn [app];
    [exact Hq|solve [econstructor; eauto]..].
Qed.

Lemma run_all_exec (E E' : env) (cells : list (list stmt)) (o : outcome) :
  run_all E cells E' o -> exec E (concat cells) E' o.
Proof.
  induction 1 as [E|E c cs E' e Hc|E c cs E1 E' o Hc Hrest IH]; cbn [concat].
  - constructor.
  - now apply exec_app_raise.
  - eapply exec_app_completed; eauto.
Qed.

Lemma run_all_app_inv (E E' : env) (cs cs' : list (list stmt)) (o : outcome) :
  run_all E (cs ++ cs') E' o ->
  (exists e, o = Raised e /\ run_all E cs E' (Raised e)) \/
  (exists E1, run_all E cs E1 Completed /\ run_all E1 cs' E' o).
Proof.
  revert E. induction cs as [|c cs IH]; intros E H; cbn [app] in H.
  - right. exists E. split; [constructor|exact H].
  - inversion H as [|? ? ? ? e Hc|? ? ? E1 ? ? Hc Hrest]; subst.
    + left. exists e. split; [reflexivity|now constructor].
    + destruct (IH E1 Hrest) as [(e & -> & Hr)|(E2 & Hr & Hr')].
      * left. exists e. split; [reflexivity|]. eapply run_all_next; eauto.
      * right. exists E2. split; [eapply run_all_next; eauto|exact Hr'].
Qed.

Lemma builtin_names_bound (y : string) : y ∈ builtin_names -> y ∈ builtins.
Proof. intros H. unfold builtins. now apply elem_of_list_to_set. Qed.

(** X22.  "Run All" on a fresh kernel.  Whatever the operations of the
    cells do, the one name that can be undefined when it is loaded is
    [test_y]: every other global is bound by a statement that is certain
    to have completed before.  When that [NameError] is raised, the cells
    above the evaluation cell have all completed, and what they bind for
    certain is bound: the data sets, the estimator, the predictions and
    [get_score] among them. *)
Theorem only_test_y_undefined (E' : env) (o : outcome) :
  run_all builtins notebook E' o ->
  (forall x, o = Raised (NameError x) -> x = "test_y") /\
  (o = Raised (NameError "test_y") ->
     (forall y, y ∈ defined_after cells_above -> y ∈ E') /\
     Forall (fun y => y ∈ E')
       ["churn"; "model_data"; "train_data"; "validation_data"; "test_data";
        "train_X"; "train_y"; "valid_X"; "valid_y"; "xgb"; "customised_xgb";
        "test_data_batch"; "transformer"; "batch_output"; "pred_y"; "get_score"]).
Proof.
  intros Hrun. split.
  - intros x ->.
    destruct (exec_scan _ _ _ _ (run_all_exec _ _ _ _ Hrun) builtin_names builtin_names_bound)
      as (H1 & _).
    specialize (H1 x eq_refl).
    change ((scan builtin_names (concat notebook)).1) with (undefined_names notebook) in H1.
    assert (Hu : undefined_names notebook = ["test_y"; "test_y"]) by (vm_compute; reflexivity).
    rewrite Hu in H1.
    apply elem_of_cons in H1 as [->|H1]; [reflexivity|].
    apply elem_of_cons in H1 as [->|H1]; [reflexivity|]. now apply elem_of_nil in H1.
  - intros ->.
    assert (Hdef : forall y, y ∈ defined_after cells_above -> y ∈ E').
    { unfold notebook in Hrun. apply run_all_app_inv in Hrun as [(e & [= <-] & Hr)|(E1 & Hr & Hr')].
      - exfalso.
        destruct (exec_scan _ _ _ _ (run_all_exec _ _ _ _ Hr) builtin_names builtin_names_bound)
          as (H1 & _).
        specialize (H1 "test_y" eq_refl).
        change ((scan builtin_names (concat cells_above)).1)
          with (undefined_names cells_above) in H1.
        assert (Hu : undefined_names cells_above = []) by (vm_compute; reflexivity).
        rewrite Hu in H1. now apply elem_of_nil in H1.
      - destruct (exec_scan _ _ _ _ (run_all_exec _ _ _ _ Hr) builtin_names builtin_names_bound)
          as (_ & H2 & _).
        specialize (H2 eq_refl).
        destruct (exec_scan _ _ _ _ (run_all_exec _ _ _ _ Hr') (defined_after cells_above) H2)
          as (_ & _ & H3).
        exact H3. }
    split; [exact Hdef|].
    repeat (apply Forall_cons; split;
            [apply Hdef; apply (bool_decide_unpack _); vm_compute; exact I|]).
    apply Forall_nil_2.
Qed.

Lemma scan_app (known : list string) (p q : list stmt) :
  scan known (p ++ q)
  = ((scan known p).1 ++ (scan (scan known p).2 q).1, (scan (scan known p).2 q).2).
Proof.
  revert known. induction p as [|s p IH]; intros known; cbn [app].
  - cbn [scan fst snd app]. now destruct (scan known q).
  - rewrite !scan_cons, IH. cbn [fst snd]. now rewrite app_assoc.
Qed.

Lemma eval_covered (E : env) (known : list string) (code : list event) :
  (forall y, y ∈ known -> y ∈ E) -> uncovered known code = [] -> eval E code None.
Proof.
  intros Hk. induction code as [|[x|] code IH]; intros Hu.
  - constructor.
  - unfold uncovered, loaded in Hu. rewrite bind_cons in Hu. cbn [app] in Hu.
    rewrite filter_cons in Hu. destruct (decide (x ∉ known)) as [|Hin]; [discriminate|].
    apply eval_load; [|now apply IH].
    apply Hk. destruct (decide (x ∈ known)); [assumption|contradiction].
  - apply eval_op, IH. exact Hu.
Qed.

(** Completeness of the pass: when it finds every load covered, the run
    in which no operation fails and no loop body or branch is entered
    completes. *)
Lemma exec_straight (p : list stmt) (E : env) (known : list string) :
  (forall y, y ∈ known -> y ∈ E) -> (scan known p).1 = [] ->
  exists E', exec E p E' Completed /\ forall y, y ∈ (scan known p).2 -> y ∈ E'.
Proof.
  revert E known. induction p as [|s p IH]; intros E known Hk Hu.
  - exists E. split; [constructor|exact Hk].
  - rewrite scan_cons in Hu |- *. cbn [fst snd] in *.
    apply app_eq_nil in Hu as [Hs Hp].
    destruct s as [code stores|target iter body|cond body].
    + rewrite scan_stmt_Simple in *. cbn [fst snd] in *.
      destruct (IH (E ∪ list_to_set stores) (stores ++ known)) as (E' & He & Hd); [|exact Hp|].
      { intros y [Hy|Hy]%elem_of_app; apply elem_of_union.
        - right. now apply elem_of_list_to_set.
        - left. now apply Hk. }
      exists E'. split; [|exact Hd]. apply exec_simple; [|exact He].
      eapply eval_covered; eauto.
    + rewrite scan_stmt_For in *. cbn [fst snd] in *.
      apply app_eq_nil in Hs as [Hi _].
      destruct (IH E known Hk Hp) as (E' & He & Hd).
      exists E'. split; [|exact Hd]. apply exec_for_end; [|exact He].
      eapply eval_covered; eauto.
    + rewrite scan_stmt_If in *. cbn [fst snd] in *.
      apply app_eq_nil in Hs as [Hi _].
      destruct (IH E known Hk Hp) as (E' & He & Hd).
      exists E'. split; [|exact Hd]. apply exec_if_skip; [|exact He].
      eapply eval_covered; eauto.
Qed.

Lemma run_all_straight (cells : list (list stmt)) (E : env) (known : list string) :
  (forall y, y ∈ known -> y ∈ E) -> (scan known (concat cells)).1 = [] ->
  exists E', run_all E cells E' Completed /\
    forall y, y ∈ (scan known (concat cells)).2 -> y ∈ E'.
Proof.
  revert E known. induction cells as [|c cs IH]; intros E known Hk Hu.
  - exists E. split; [constructor|exact Hk].
  - cbn [concat] in *. rewrite scan_app in Hu |- *. cbn [fst snd] in *.
    apply app_eq_nil in Hu as [Hc Hcs].
    destruct (exec_straight c E known Hk Hc) as (E1 & He & Hd).
    destruct (IH E1 _ Hd Hcs) as (E' & Hr & Hd').
    exists E'. split; [|exact Hd']. eapply run_all_next; eauto.
Qed.

Lemma run_all_app (E E1 E' : env) (cs cs' : list (list stmt)) (o : outcome) :
  run_all E cs E1 Completed -> run_all E1 cs' E' o -> run_all E (cs ++ cs') E' o.
Proof.
  intros H. remember Completed as c eqn:Hc. revert Hc.
  induction H as [E|E c0 cs0 E2 e Hx|E c0 cs0 E2 E3 o' Hx Hrest IH]; intros Hc Hr;
    try discriminate Hc; cbn [app].
  - exact Hr.
  - eapply run_all_next; [exact Hx|]. now apply IH.
Qed.

Lemma run_all_session (cs : list (list stmt)) (E E' : env) (o : outcome) :
  session E -> (forall c, c ∈ cs -> c ∈ notebook) -> run_all E cs E' o -> session E'.
Proof.
  intros Hs Hcs H. induction H as [E|E c cs E' e Hx|E c cs E1 E' o Hx Hrest IH].
  - exact Hs.
  - eapply session_run; [exact Hs| |exact Hx]. apply Hcs. left.
  - apply IH.
    + eapply session_run; [exact Hs| |exact Hx]. apply Hcs. left.
    + intros c' Hc'. apply Hcs. now right.
Qed.

(** a run in which every operation succeeds and no loop body is entered *)
Lemma run_to_evaluation :
  exists E', run_all builtins notebook E' (Raised (NameError "test_y")).
Proof.
  destruct (run_all_straight cells_above builtins builtin_names builtin_names_bound)
    as (E1 & Hr & Hd); [vm_compute; reflexivity|].
  exists E1. unfold notebook. eapply run_all_app; [exact Hr|].
  apply run_all_raise. apply exec_simple_raise.
  apply eval_load.
  - apply Hd. apply (bool_decide_unpack _). vm_compute. exact I.
  - apply eval_load_unbound. intros Hin.
    apply test_y_not_bound_elsewhere.
    apply (session_names E1); [|exact Hin].
    eapply run_all_session; [apply session_start| |exact Hr].
    intros c Hc. unfold notebook. apply elem_of_app. now left.
Qed.

Lemma only_test_y_undefined_witness :
  exists E', run_all builtins notebook E' (Raised (NameError "test_y")) /\
    "pred_y" ∈ E' /\ "get_score" ∈ E'.
Proof.
  destruct run_to_evaluation as (E' & Hrun).
  exists E'. split; [exact Hrun|].
  destruct (only_test_y_undefined E' _ Hrun) as (_ & H).
  destruct (H eq_refl) as (Hd & _).
  split; apply Hd; apply (bool_decide_unpack _); vm_compute; exact I.
Defined.

End ScopeFacts.

(** ** Cells 16 to 21: the tables and the histograms *)
Module CrosstabFacts.
Import Frame Churn Describe Pipeline Samples MoreSamples.
Import DuplicateFacts DummyFacts CleanFacts DropFacts DescribeFacts.

(** counting the elements of a list by a key that takes its values in a
    duplicate-free list counts each element once *)
Lemma sum_counts {A K} `{EqDecision K} (key : A -> K) (lv : list K) (l : list A) :
  NoDup lv -> (forall x, x ∈ l -> key x ∈ lv) ->
  sum_list ((fun a => length (filter (fun x => key x = a) l)) <$> lv) = length l.
Proof.
  intros Hnd. induction l as [|x l IH]; intros Hin.
  - induction lv as [|a lv IHlv]; [reflexivity|].
    cbn [fmap list_fmap sum_list sum_list_with]. apply NoDup_cons in Hnd as [_ Hnd].
    now rewrite (IHlv Hnd).
  - cbn [length]. rewrite <- IH by (intros y Hy; apply Hin; now right).
    assert (Hx : key x ∈ lv) by (apply Hin; left).
    clear IH Hin. induction lv as [|a lv IHlv]; [now apply elem_of_nil in Hx|].
    apply NoDup_cons in Hnd as [Ha Hnd].
    cbn [fmap list_fmap sum_list sum_list_with]. rewrite filter_cons.
    destruct (decide (key x = a)) as [Heq|Hne].
    + cbn [length].
      assert (Hrest : forall lv', key x ∉ lv' ->
                sum_list ((fun a => length (filter (fun x0 => key x0 = a) (x :: l))) <$> lv')
                = sum_list ((fun a => length (filter (fun x0 => key x0 = a) l)) <$> lv')).
      { induction lv' as [|b lv' IH']; intros Hb; [reflexivity|].
        cbn [fmap list_fmap sum_list sum_list_with]. rewrite filter_cons.
        rewrite decide_False by (intros E; apply Hb; rewrite E; left).
        rewrite IH' by (intros E; apply Hb; now right). reflexivity. }
      rewrite Hrest by (rewrite Heq; exact Ha). unfold id. lia.
    + apply elem_of_cons in Hx as [Hx|Hx]; [congruence|].
      rewrite (IHlv Hnd Hx). unfold id. lia.
Qed.

Lemma observed_present (index columns : list scalar) (p : scalar * scalar) :
  p ∈ observed index columns -> p.1 ≠ NaN /\ p.2 ≠ NaN.
Proof. unfold observed. now intros [H _]%list_elem_of_filter. Qed.

Lemma observed_all (index columns : list scalar) :
  NaN ∉ index -> NaN ∉ columns -> observed index columns = zip index columns.
Proof.
  intros Hi Hc. unfold observed.
  assert (H : Forall (fun p : scalar * scalar => p.1 ≠ NaN ∧ p.2 ≠ NaN) (zip index columns)).
  { apply Forall_forall. intros [a b] Hin. cbn. split; intros ->.
    - apply Hi. eapply elem_of_zip_l; eauto.
    - apply Hc. eapply elem_of_zip_r; eauto. }
  induction H as [|p l Hp _ IH]; [reflexivity|].
  rewrite filter_cons, decide_True by exact Hp. now rewrite IH.
Qed.

(** X23.  A cross-tabulation counts every observation once.  The table
    has one row per value of the first factor and one column per value of
    the second, without repetition; the cells of a row add up to the
    number of observations with the row's value, and all cells to the
    number of observations in which neither factor is missing, which is
    the number of rows when nothing is missing. *)
Theorem crosstab_counts_once (index columns : list scalar) :
  NoDup (row_labels (crosstab index columns)) /\
  NoDup (column_labels (crosstab index columns)) /\
  length (counts (crosstab index columns)) = length (row_labels (crosstab index columns)) /\
  Forall (fun r => length r = length (column_labels (crosstab index columns)))
         (counts (crosstab index columns)) /\
  sum_list <$> counts (crosstab index columns)
    = (fun a => length (filter (fun p : scalar * scalar => p.1 = a) (observed index columns)))
        <$> row_labels (crosstab index columns) /\
  sum_list (sum_list <$> counts (crosstab index columns))
    = length (observed index columns) /\
  (length index = length columns -> NaN ∉ index -> NaN ∉ columns ->
     sum_list (sum_list <$> counts (crosstab index columns)) = length index /\
     row_labels (crosstab index columns) = levels index /\
     column_labels (crosstab index columns) = levels columns).
Proof.
  unfold crosstab. cbn [row_labels column_labels counts].
  set (obs := observed index columns).
  assert (Hrows : sum_list <$>
                    ((fun a => (fun b => length (filter (fun p => p = (a, b)) obs))
                                 <$> levels obs.*2) <$> levels obs.*1)
                  = (fun a => length (filter (fun p : scalar * scalar => p.1 = a) obs))
                      <$> levels obs.*1).
  { rewrite <- list_fmap_compose. apply list_fmap_ext. intros _ a _. cbn.
    rewrite <- (sum_counts snd (levels obs.*2) (filter (fun p : scalar * scalar => p.1 = a) obs)).
    - f_equal. apply list_fmap_ext. intros _ b _. cbn. f_equal.
      rewrite list_filter_filter. apply list_filter_iff. intros [x y]. cbn.
      split; [intros [= -> ->]; now split|intros [-> ->]; reflexivity].
    - apply levels_NoDup.
    - intros p [_ Hp]%list_elem_of_filter. apply elem_of_levels.
      split; [apply list_elem_of_fmap; now exists p|].
      now apply (observed_present index columns). }
  assert (Htotal : sum_list ((fun a => length (filter (fun p : scalar * scalar => p.1 = a) obs))
                               <$> levels obs.*1) = length obs).
  { apply (sum_counts fst); [apply levels_NoDup|].
    intros p Hp. apply elem_of_levels.
    split; [apply list_elem_of_fmap; now exists p|].
    now apply (observed_present index columns). }
  split; [apply levels_NoDup|]. split; [apply levels_NoDup|].
  split; [now rewrite length_fmap|].
  split; [apply Forall_fmap, Forall_forall; intros a _; cbn; now rewrite length_fmap|].
  split; [exact Hrows|]. split; [now rewrite Hrows|].
  intros Hlen Hi Hc. rewrite Hrows, Htotal. unfold obs.
  rewrite (observed_all index columns Hi Hc).
  rewrite fst_zip, snd_zip by lia. split; [|now split].
  rewrite length_zip_with. lia.
Qed.

(** cells 12 and 27 continue from the table cell 11 leaves *)
Lemma clean_after_drop_phone (churn : DataFrame) :
  clean churn
  = explored ← drop_phone churn;
    drop_labels ["Day Charge"; "Eve Charge"; "Night Charge"; "Intl Charge"]
                (drop_duplicates explored).
Proof. unfold clean, drop_phone. now destruct (drop_labels ["Phone"] churn). Qed.

(** the layout cell 11 leaves: the columns of [churn.txt] without the
    phone number, the area code as an object column *)
Lemma drop_phone_layout (churn : DataFrame) :
  columns churn = raw_columns ->
  exists explored,
    drop_phone churn = Some explored /\
    columns explored
    = ((fun c => if decide (col_name c = "Area Code") then mkColumn "Area Code" object else c)
         <$> select phone_mask raw_columns).
Proof.
  destruct churn as [cols rws]. cbn [columns]. intros ->.
  unfold drop_phone, drop_labels. known.
  cbn [mbind option_bind]. unfold astype. known.
  eexists. split; reflexivity.
Qed.

(** X24.  What cells 18 and 21 go through.  On the layout of [churn.txt],
    after cell 11, the loop of cell 18 makes a table for each of the four
    names in [categorial_variable] and for no other column, the target
    included, and the loop of cell 21 draws the columns listed in
    [continuous_variable], in that order; together with the target the
    two lists are the columns of the table.  Without the [astype] of
    cell 11 the area code would be drawn as a continuous variable. *)
Theorem explored_columns (churn : DataFrame) :
  columns churn = raw_columns ->
  exists explored tables,
    drop_phone churn = Some explored /\
    clean churn
      = drop_labels ["Day Charge"; "Eve Charge"; "Night Charge"; "Intl Charge"]
                    (drop_duplicates explored) /\
    tabulated explored = categorial_variable /\
    tabulated (drop_duplicates explored) = categorial_variable /\
    histogram_columns explored = continuous_variable /\
    names explored ≡ₚ categorial_variable ++ continuous_variable ++ ["Churn?"] /\
    crosstabs explored = Some tables /\
    tables.*1 = categorial_variable /\
    Forall (fun t : string * table =>
              exists j, position t.1 explored = Some j /\
                t.2 = crosstab (column_values 19 explored) (column_values j explored))
           tables /\
    (forall d, drop_labels ["Phone"] churn = Some d -> "Area Code" ∈ histogram_columns d).
Proof.
  intros Hcols.
  destruct (drop_phone_layout churn Hcols) as (explored & H1 & Hc).
  destruct explored as [ecols erows]. cbn [columns] in Hc. subst ecols.
  eexists _, _.
  split; [exact H1|].
  split; [rewrite clean_after_drop_phone, H1; reflexivity|].
  split; [reflexivity|].
  split; [unfold tabulated, names; rewrite drop_duplicates_columns; reflexivity|].
  split; [reflexivity|].
  split.
  { apply (bool_decide_unpack _). vm_compute. exact I. }
  split; [reflexivity|]. split; [reflexivity|]. split.
  - repeat (apply Forall_cons; split; [eexists; split; reflexivity|]). apply Forall_nil_2.
  - intros d [_ ->]%drop_labels_inv. unfold histogram_columns, select_dtypes_exclude_object.
    rewrite names_select_columns. cbn [columns select_columns]. rewrite Hcols.
    apply (bool_decide_unpack _). vm_compute. exact I.
Qed.

Lemma explored_columns_witness :
  exists explored, drop_phone three_raw_rows = Some explored /\
    tabulated explored = ["State"; "Area Code"; "Int’l Plan"; "VMail Plan"].
Proof.
  destruct (explored_columns three_raw_rows eq_refl)
    as (explored & tables & H1 & _ & H2 & _).
  exists explored. split; [exact H1|exact H2].
Defined.

End CrosstabFacts.

